(** * photo-normalizer: the planning pipeline of [photo_normalizer/cli.py]

    A shallow embedding of the capture-time resolver, the plan builder and
    the path allocator, followed by the properties the specification states
    about them.

    Conventions of the embedding:
    - a Python [str] is a [string]; its characters are code points below 256;
    - a Python [int] is a [Z];
    - a [pathlib.Path] is its anchor flag and its list of components;
    - the destination file system is the finite set of paths that exist;
    - a call that can raise returns an [outcome]; [try]/[except Exception]
      is a match on it;
    - the platform is an [Env]: the imaging library, [stat], the library
      functions on timestamps, each raising or returning, and the way the
      C library writes a year; it does not change while a plan is made. *)

From Stdlib Require Import ZArith Ascii String List Floats.
From stdpp Require Import base tactics option list sorting gmap strings pretty.

Local Open Scope string_scope.
Local Open Scope list_scope.
Local Open Scope Z_scope.

(** ** Exceptions *)

(** The exceptions below [Exception]. *)
Inductive exn : Type :=
  | ValueError
  | TypeError
  | OSError
  | OtherException.

(** The result of running a piece of Python code.  [Unfinished] is the
    embedding's own: a loop that used up the steps it was given. *)
Inductive outcome (A : Type) : Type :=
  | Returned (a : A)
  | Raised (e : exn)
  | Unfinished.
Arguments Returned {A} a.
Arguments Raised {A} e.
Arguments Unfinished {A}.

Global Instance outcome_ret : MRet outcome := λ A a, Returned a.

Global Instance outcome_bind : MBind outcome := λ A B k m,
  match m with
  | Returned a => k a
  | Raised e => Raised e
  | Unfinished => Unfinished
  end.

(** A call into a library or the platform: it raises or it returns. *)
Definition call {A} (r : exn + A) : outcome A :=
  match r with
  | inl e => Raised e
  | inr a => Returned a
  end.

(** [try: body except Exception: handler] *)
Definition try_except {A} (body : outcome A) (handler : outcome A) : outcome A :=
  match body with
  | Raised _ => handler
  | r => r
  end.

(** ** Python strings *)

Definition char_eqb (a b : ascii) : bool := Ascii.eqb a b.

Fixpoint str_take (n : nat) (s : string) : string :=
  match n, s with
  | S n', String c s' => String c (str_take n' s')
  | _, _ => ""
  end.

Fixpoint str_drop (n : nat) (s : string) : string :=
  match n, s with
  | S n', String _ s' => str_drop n' s'
  | _, _ => s
  end.

(** [s.rfind(c)]: the highest index of [c] in [s], or -1. *)
Fixpoint rfind (c : ascii) (s : string) : Z :=
  match s with
  | "" => -1
  | String a s' =>
      let r := rfind c s' in
      if 0 <=? r then r + 1 else if char_eqb a c then 0 else -1
  end.

Fixpoint contains (c : ascii) (s : string) : bool :=
  match s with
  | "" => false
  | String a s' => char_eqb a c || contains c s'
  end.

Definition str_eqb (a b : string) : bool := bool_decide (a = b).

(** [c.lower()] for a code point below 256: A-Z, and the upper-case letters
    of Latin-1 (U+00C0-U+00DE without the multiplication sign). *)
Definition lower_char (c : ascii) : ascii :=
  let n := N_of_ascii c in
  if ((65 <=? n) && (n <=? 90))%N then ascii_of_N (n + 32)
  else if ((192 <=? n) && (n <=? 222) && negb (n =? 215))%N then ascii_of_N (n + 32)
  else c.

Fixpoint lower (s : string) : string :=
  match s with
  | "" => ""
  | String c s' => String (lower_char c) (lower s')
  end.

(** [f"{n}"] for an int. *)
Definition str_of_int (n : Z) : string := pretty n.

Fixpoint zeros (n : nat) : string :=
  match n with
  | O => ""
  | S n' => String "0" (zeros n')
  end.

(** Zero fill of a digit string on the left, up to [width] characters. *)
Definition zfill (width : nat) (digits : string) : string :=
  zeros (width - String.length digits) +:+ digits.

(** [f"{n:0{width}d}"]: the sign first, then zeros, then the digits. *)
Definition format_0d (width : nat) (n : Z) : string :=
  if n <? 0 then String "-" (zfill (width - 1) (pretty (Z.abs_N n)))
  else zfill width (pretty (Z.abs_N n)).

(** ** pathlib *)

Record Path : Type := mkPath {
  absolute : bool;
  parts : list string
}.

Global Instance Path_eq_dec : EqDecision Path.
Proof. solve_decision. Defined.

Global Instance Path_countable : Countable Path.
Proof.
  apply (inj_countable' (λ p, (absolute p, parts p))
                         (λ t, mkPath t.1 t.2)).
  by intros [].
Defined.

(** [Path()] *)
Definition Path_empty : Path := mkPath false [].

(** The components of a string, as [pathlib] parses it: empty components
    and ["."] are dropped. *)
Fixpoint split_slash (cur : string) (s : string) : list string :=
  match s with
  | "" => [String.rev cur]
  | String c s' =>
      if char_eqb c "/" then String.rev cur :: split_slash "" s'
      else split_slash (String c cur) s'
  end.

Definition segments (s : string) : list string :=
  filter (λ x, x ≠ "" ∧ x ≠ ".") (split_slash "" s).

Definition starts_with_slash (s : string) : bool :=
  match s with
  | String c _ => char_eqb c "/"
  | "" => false
  end.

(** [p / s] *)
Definition truediv (p : Path) (s : string) : Path :=
  if starts_with_slash s then mkPath true (segments s)
  else mkPath (absolute p) (parts p ++ segments s).

Infix "//" := truediv (at level 40, left associativity).

(** [p.name] *)
Definition name (p : Path) : string := List.last (parts p) "".

(** [p.parent] *)
Definition parent (p : Path) : Path :=
  mkPath (absolute p) (removelast (parts p)).

(** [PurePath.suffix] and [PurePath.stem] of a file name, as [pathlib] has
    them up to CPython 3.13: [i = name.rfind('.')], and the split is at [i]
    when [0 < i < len(name) - 1].  A leading dot and a trailing dot start no
    suffix. *)
Definition splits_at_dot (nm : string) : bool :=
  let i := rfind "." nm in
  (0 <? i) && (i <? Z.of_nat (String.length nm) - 1).

Definition name_suffix (nm : string) : string :=
  if splits_at_dot nm then str_drop (Z.to_nat (rfind "." nm)) nm else "".

Definition name_stem (nm : string) : string :=
  if splits_at_dot nm then str_take (Z.to_nat (rfind "." nm)) nm else nm.

Definition suffix (p : Path) : string := name_suffix (name p).
Definition stem (p : Path) : string := name_stem (name p).

(** [p.with_name(n)]: [ValueError] when [p] has an empty name or [n] is
    not a valid file name. *)
Definition valid_name (n : string) : bool :=
  negb (str_eqb n "") && negb (contains "/" n) && negb (str_eqb n ".").

Definition with_name (p : Path) (n : string) : outcome Path :=
  if str_eqb (name p) "" then Raised ValueError
  else if negb (valid_name n) then Raised ValueError
  else Returned (mkPath (absolute p) (removelast (parts p) ++ [n])).

(** The destination file system, as far as the planner looks at it. *)
Abbreviation FileStore := (gset Path).

(** [p.exists()] *)
Definition path_exists (fs : FileStore) (p : Path) : bool :=
  bool_decide (p ∈ fs).


(** ** datetime *)

(** A naive [datetime.datetime].  Comparison, equality and [strftime] look
    at these seven fields only. *)
Record datetime : Type := mkDatetime {
  year : Z;
  month : Z;
  day : Z;
  hour : Z;
  minute : Z;
  second : Z;
  microsecond : Z
}.

Global Instance datetime_eq_dec : EqDecision datetime.
Proof. solve_decision. Defined.

Definition is_leap (y : Z) : bool :=
  (y mod 4 =? 0) && (negb (y mod 100 =? 0) || (y mod 400 =? 0)).

Definition days_in_month (y m : Z) : Z :=
  if m =? 2 then (if is_leap y then 29 else 28)
  else if (m =? 4) || (m =? 6) || (m =? 9) || (m =? 11) then 30
  else 31.

(** The range checks of the [datetime] constructor. *)
Definition valid_fields (y mo d h mi s us : Z) : bool :=
  (1 <=? y) && (y <=? 9999) &&
  (1 <=? mo) && (mo <=? 12) &&
  (1 <=? d) && (d <=? days_in_month y mo) &&
  (0 <=? h) && (h <=? 23) &&
  (0 <=? mi) && (mi <=? 59) &&
  (0 <=? s) && (s <=? 59) &&
  (0 <=? us) && (us <=? 999999).

(** Every [datetime] object Python hands out satisfies the range checks. *)
Definition valid_datetime (dt : datetime) : Prop :=
  valid_fields (year dt) (month dt) (day dt) (hour dt) (minute dt)
               (second dt) (microsecond dt) = true.

(** [datetime(y, mo, d, h, mi, s)] *)
Definition datetime_new (y mo d h mi s : Z) : outcome datetime :=
  if valid_fields y mo d h mi s 0 then Returned (mkDatetime y mo d h mi s 0)
  else Raised ValueError.

(** [dt.replace(microsecond=0)] *)
Definition replace_microsecond_0 (dt : datetime) : datetime :=
  mkDatetime (year dt) (month dt) (day dt) (hour dt) (minute dt) (second dt) 0.

(** Comparison of two naive datetimes: the field tuples, lexicographically. *)
Definition dt_tuple (dt : datetime) : list Z :=
  [year dt; month dt; day dt; hour dt; minute dt; second dt; microsecond dt].

Fixpoint tuple_cmp (a b : list Z) : comparison :=
  match a, b with
  | [], [] => Eq
  | [], _ :: _ => Lt
  | _ :: _, [] => Gt
  | x :: a', y :: b' =>
      match x ?= y with
      | Eq => tuple_cmp a' b'
      | c => c
      end
  end.

Definition dt_cmp (a b : datetime) : comparison :=
  tuple_cmp (dt_tuple a) (dt_tuple b).

Definition dt_ltb (a b : datetime) : bool :=
  match dt_cmp a b with Lt => true | _ => false end.

Definition dt_eqb (a b : datetime) : bool := bool_decide (a = b).

(** ** Regular expressions

    The fragment of [re] the file-name pattern is written in, with the
    backtracking order of the [re] module: the left alternative first, an
    optional item taken first, the leftmost start position first. *)

Inductive regex : Type :=
  | Chr (f : ascii → bool)
  | Cat (r1 r2 : regex)
  | Alt (r1 r2 : regex)
  | Opt (r : regex)
  | Grp (g : string) (r : regex).

(** The named groups of a match. *)
Definition match_groups : Type := list (string * string).

Fixpoint re_match (r : regex) (s : string) (gs : match_groups)
    (k : string → match_groups → option match_groups) : option match_groups :=
  match r with
  | Chr f =>
      match s with
      | String c s' => if f c then k s' gs else None
      | "" => None
      end
  | Cat r1 r2 => re_match r1 s gs (λ s1 gs1, re_match r2 s1 gs1 k)
  | Alt r1 r2 =>
      match re_match r1 s gs k with
      | Some m => Some m
      | None => re_match r2 s gs k
      end
  | Opt r1 =>
      match re_match r1 s gs k with
      | Some m => Some m
      | None => k s gs
      end
  | Grp g r1 =>
      re_match r1 s gs (λ s1 gs1,
        k s1 ((g, str_take (String.length s - String.length s1) s) :: gs1))
  end.

(** [pattern.search(s)] *)
Fixpoint re_search (r : regex) (s : string) : option match_groups :=
  match re_match r s [] (λ _ gs, Some gs) with
  | Some m => Some m
  | None =>
      match s with
      | String _ s' => re_search r s'
      | "" => None
      end
  end.

(** [match.group(g)] *)
Fixpoint group (m : match_groups) (g : string) : option string :=
  match m with
  | [] => None
  | (g', v) :: m' => if str_eqb g' g then Some v else group m' g
  end.

Definition in_range (lo hi : ascii) (c : ascii) : bool :=
  ((N_of_ascii lo <=? N_of_ascii c) && (N_of_ascii c <=? N_of_ascii hi))%N.

Definition one_of (cs : string) (c : ascii) : bool := contains c cs.

(** [\d]; below 256 the decimal digits are 0-9. *)
Definition is_digit : ascii → bool := in_range "0" "9".

(** [\s] and [str.isspace] below 256. *)
Definition is_space (c : ascii) : bool :=
  let n := N_of_ascii c in
  (((9 <=? n) && (n <=? 13)) || ((28 <=? n) && (n <=? 32))
   || (n =? 133) || (n =? 160))%N.

Definition lit (c : ascii) : regex := Chr (char_eqb c).
Definition digit : regex := Chr is_digit.

(** [(?P<y>20\d{2})[-_\.]?(?P<m>0[1-9]|1[0-2])[-_\.]?(?P<d>[0-2]\d|3[01])
     [_\-\s\.]?(?P<h>[01]\d|2[0-3])[:\._-]?(?P<min>[0-5]\d)[:\._-]?(?P<s>[0-5]\d)] *)
Definition name_pattern : regex :=
  Cat (Grp "y" (Cat (lit "2") (Cat (lit "0") (Cat digit digit))))
  (Cat (Opt (Chr (one_of "-_.")))
  (Cat (Grp "m" (Alt (Cat (lit "0") (Chr (in_range "1" "9")))
                     (Cat (lit "1") (Chr (in_range "0" "2")))))
  (Cat (Opt (Chr (one_of "-_.")))
  (Cat (Grp "d" (Alt (Cat (Chr (in_range "0" "2")) digit)
                     (Cat (lit "3") (Chr (one_of "01")))))
  (Cat (Opt (Chr (λ c, one_of "_-." c || is_space c)))
  (Cat (Grp "h" (Alt (Cat (Chr (one_of "01")) digit)
                     (Cat (lit "2") (Chr (in_range "0" "3")))))
  (Cat (Opt (Chr (one_of ":._-")))
  (Cat (Grp "min" (Cat (Chr (in_range "0" "5")) digit))
  (Cat (Opt (Chr (one_of ":._-")))
       (Grp "s" (Cat (Chr (in_range "0" "5")) digit))))))))))).

Definition DATETIME_NAME_PATTERNS : list regex := [name_pattern].

(** [int(s)] for a string of decimal digits; anything else is a
    [ValueError]. *)
Fixpoint int_digits (acc : Z) (s : string) : outcome Z :=
  match s with
  | "" => Returned acc
  | String c s' =>
      if is_digit c
      then int_digits (10 * acc + Z.of_N (N_of_ascii c - 48)) s'
      else Raised ValueError
  end.

Definition int_of_str (s : string) : outcome Z :=
  match s with
  | "" => Raised ValueError
  | _ => int_digits 0 s
  end.

(** [int(match.group(g))]; [int(None)] is a [TypeError]. *)
Definition group_int (m : match_groups) (g : string) : outcome Z :=
  match group m g with
  | Some v => int_of_str v
  | None => Raised TypeError
  end.

(** ** The capture-time resolver *)

(** The body of the [try] in [try_parse_from_name]. *)
Definition datetime_of_match (m : match_groups) : outcome datetime :=
  y ← group_int m "y";
  mo ← group_int m "m";
  d ← group_int m "d";
  h ← group_int m "h";
  mi ← group_int m "min";
  s ← group_int m "s";
  datetime_new y mo d h mi s.

Fixpoint try_parse_from_name_in (patterns : list regex) (nm : string)
    : outcome (option datetime) :=
  match patterns with
  | [] => Returned None
  | pattern :: rest =>
      match re_search pattern nm with
      | Some m =>
          try_except (dt ← datetime_of_match m; Returned (Some dt))
                     (try_parse_from_name_in rest nm)
      | None => try_parse_from_name_in rest nm
      end
  end.

Definition try_parse_from_name (nm : string) : outcome (option datetime) :=
  try_parse_from_name_in DATETIME_NAME_PATTERNS nm.

(** *** EXIF *)

(** A value of the EXIF mapping.  A [bytes] value is kept as the text
    [value.decode("utf-8", "ignore")] gives. *)
Inductive exif_value : Type :=
  | ExifStr (s : string)
  | ExifBytes (decoded : string)
  | ExifOther.

(** An opened image: what [img.getexif()] does, the items of the mapping
    in order, keyed by tag number. *)
Record Image : Type := mkImage {
  getexif : exn + list (Z * exif_value)
}.

(** [os.stat_result]: [st_birthtime] where the platform has it. *)
Record stat_result : Type := mkStat {
  st_birthtime : option float;
  st_mtime : float
}.

(** The collaborators of the planner: the imaging library, the [stat] of
    the file store, and the library functions on timestamps.  [stat] and
    [fromtimestamp] raise or return, as [Image.open] and [strptime] do.
    [pads_year] is the C library behind [strftime]: it fills [%Y] with
    zeros to four digits, or it writes the year as it is; the test suite of
    CPython allows for both. *)
Record Env : Type := mkEnv {
  Image_open : Path → exn + Image;
  TAGS : Z → option string;
  strptime : string → string → exn + datetime;
  path_stat : Path → exn + stat_result;
  fromtimestamp : float → exn + datetime;
  pads_year : bool
}.

(** The width [%Y] is filled to. *)
Definition year_width (env : Env) : nat := if pads_year env then 4%nat else 1%nat.

(** [dt.strftime(fmt)] for the directives the program uses, each a decimal
    number filled with zeros to its width: that of the C library for [%Y],
    2 for the others. *)
Definition strftime_directive (env : Env) (dt : datetime) (c : ascii) : string :=
  if char_eqb c "Y" then format_0d (year_width env) (year dt)
  else if char_eqb c "m" then format_0d 2 (month dt)
  else if char_eqb c "d" then format_0d 2 (day dt)
  else if char_eqb c "H" then format_0d 2 (hour dt)
  else if char_eqb c "M" then format_0d 2 (minute dt)
  else if char_eqb c "S" then format_0d 2 (second dt)
  else String "%" (String c "").

Fixpoint strftime (env : Env) (dt : datetime) (fmt : string) : string :=
  match fmt with
  | "" => ""
  | String c rest =>
      if char_eqb c "%" then
        match rest with
        | String d rest' => strftime_directive env dt d +:+ strftime env dt rest'
        | "" => String c ""
        end
      else String c (strftime env dt rest)
  end.

(** The keys of [{ExifTags.TAGS.get(tag, tag): value ...}]: the tag's name,
    or the number itself where it has none. *)
Definition exif_key (env : Env) (tag : Z) : string + Z :=
  match TAGS env tag with
  | Some n => inl n
  | None => inr tag
  end.

(** [exif.get(key)] on the dict built from the items: a later item with the
    same key replaces an earlier one. *)
Fixpoint exif_get (env : Env) (items : list (Z * exif_value)) (key : string)
    : option exif_value :=
  match items with
  | [] => None
  | (tag, v) :: rest =>
      match exif_get env rest key with
      | Some v' => Some v'
      | None => if decide (exif_key env tag = inl key) then Some v else None
      end
  end.

Fixpoint lstrip (s : string) : string :=
  match s with
  | String c s' => if is_space c then lstrip s' else s
  | "" => ""
  end.

Fixpoint rstrip (s : string) : string :=
  match s with
  | String c s' =>
      match rstrip s' with
      | "" => if is_space c then "" else String c ""
      | t => String c t
      end
  | "" => ""
  end.

(** [s.strip()] *)
Definition strip (s : string) : string := rstrip (lstrip s).

(** [s.replace(a, b)] for single characters. *)
Fixpoint replace_char (a b : ascii) (s : string) : string :=
  match s with
  | "" => ""
  | String c s' => String (if char_eqb c a then b else c) (replace_char a b s')
  end.

(** The inner [for fmt in (...)] of [get_exif_datetime]. *)
Fixpoint strptime_relaxed (env : Env) (value : string) (fmts : list string)
    : option datetime :=
  match fmts with
  | [] => None
  | fmt :: rest =>
      match strptime env value fmt with
      | inr dt => Some dt
      | inl _ => strptime_relaxed env value rest
      end
  end.

(** What one EXIF value parses to, if it does. *)
Definition parse_exif_value (env : Env) (v : option exif_value) : option datetime :=
  let text :=
    match v with
    | Some (ExifStr s) => Some s
    | Some (ExifBytes s) => Some s
    | _ => None
    end in
  match text with
  | Some s =>
      let value := replace_char "/" ":" (strip s) in
      match strptime env value "%Y:%m:%d %H:%M:%S" with
      | inr dt => Some dt
      | inl _ => strptime_relaxed env value ["%Y-%m-%d %H:%M:%S"; "%Y/%m/%d %H:%M:%S"]
      end
  | None => None
  end.

(** The [for key in (...)] of [get_exif_datetime]. *)
Fixpoint first_exif_datetime (env : Env) (items : list (Z * exif_value))
    (keys : list string) : option datetime :=
  match keys with
  | [] => None
  | key :: rest =>
      match parse_exif_value env (exif_get env items key) with
      | Some dt => Some dt
      | None => first_exif_datetime env items rest
      end
  end.

Definition EXIF_KEYS : list string :=
  ["DateTimeOriginal"; "DateTime"; "DateTimeDigitized"].

Definition get_exif_datetime (env : Env) (img : Image) : outcome (option datetime) :=
  try_except
    (exif_raw ← call (getexif img);
     match exif_raw with
     | [] => Returned None
     | _ => Returned (first_exif_datetime env exif_raw EXIF_KEYS)
     end)
    (Returned None).

(** The truth value of a float: anything but zero. *)
Definition float_truth (x : float) : bool := negb (PrimFloat.eqb x 0%float).

(** [birth_ts or stat.st_mtime] *)
Definition birth_or_mtime (st : stat_result) : float :=
  match st_birthtime st with
  | Some b => if float_truth b then b else st_mtime st
  | None => st_mtime st
  end.

Definition get_file_times (env : Env) (path : Path) : outcome datetime :=
  stat ← call (path_stat env path);
  let ts := birth_or_mtime stat in
  call (fromtimestamp env ts).

(** Step 1 of [determine_capture_datetime]: the [try] around [Image.open].
    [Some dt] is the [return dt] inside it. *)
Definition exif_step (env : Env) (path : Path) : outcome (option datetime) :=
  try_except
    (img ← call (Image_open env path); get_exif_datetime env img)
    (Returned None).

Definition determine_capture_datetime (env : Env) (path : Path) : outcome datetime :=
  from_exif ← exif_step env path;
  match from_exif with
  | Some dt => Returned dt
  | None =>
      dt_from_name ← try_parse_from_name (name path);
      match dt_from_name with
      | Some dt => Returned dt
      | None => get_file_times env path
      end
  end.

(** ** The plan *)

Inductive Format : Type := jpeg | png | webp | tiff.

Definition OUTPUT_FORMAT_TO_EXT (f : Format) : string :=
  match f with
  | jpeg => ".jpg"
  | png => ".png"
  | webp => ".webp"
  | tiff => ".tiff"
  end.

Record PlanItem : Type := mkPlanItem {
  source : Path;
  target : Path;
  capture_dt : datetime;
  needs_reencode : bool
}.

Definition build_target_path (env : Env) (output_dir : Path) (capture_dt : datetime)
    (idx : Z) (subfolders : string) (target_ext : string) : Path :=
  let base_name :=
    strftime env capture_dt "%Y-%m-%d_%H-%M-%S" +:+ ("_" +:+ format_0d 4 idx)
    +:+ target_ext in
  if str_eqb subfolders "none" then output_dir // base_name
  else if str_eqb subfolders "day" then
    output_dir // strftime env capture_dt "%Y/%m/%d" // base_name
  else if str_eqb subfolders "month" then
    output_dir // strftime env capture_dt "%Y/%m" // base_name
  else if str_eqb subfolders "year" then
    output_dir // strftime env capture_dt "%Y" // base_name
  else output_dir // base_name.

(** [f"{stem}__{counter}{ext}"] *)
Definition candidate_name (stem ext : string) (counter : Z) : string :=
  stem +:+ "__" +:+ str_of_int counter +:+ ext.

(** The [while True] of [ensure_unique], for at most [steps] rounds. *)
Fixpoint ensure_unique_loop (steps : nat) (fs : FileStore) (path : Path)
    (stem ext : string) (counter : Z) : outcome Path :=
  match steps with
  | O => Unfinished
  | S steps' =>
      candidate ← with_name path (candidate_name stem ext counter);
      if negb (path_exists fs candidate) then Returned candidate
      else ensure_unique_loop steps' fs path stem ext (counter + 1)
  end.

(** The loop looks at a fresh candidate each round, so one round more than
    there are existing paths is enough for it to finish. *)
Definition ensure_unique (fs : FileStore) (path : Path) : outcome Path :=
  if negb (path_exists fs path) then Returned path
  else ensure_unique_loop (S (size fs)) fs path (stem path) (suffix path) 1.

(** The options of [main] the plan depends on. *)
Record Options : Type := mkOptions {
  output_dir : Path;
  output_format : Format;
  subfolders : string;
  copy_unchanged : bool
}.

(** The first loop of [main]: one [PlanItem] per input file, its target a
    placeholder. *)
Definition collect_item (env : Env) (opts : Options) (path : Path) : outcome PlanItem :=
  let target_ext := OUTPUT_FORMAT_TO_EXT (output_format opts) in
  capture_dt ← try_except (determine_capture_datetime env path)
                          (get_file_times env path);
  let needs_reencode :=
    if copy_unchanged opts && str_eqb (lower (suffix path)) target_ext
    then false else true in
  Returned (mkPlanItem path Path_empty capture_dt needs_reencode).

Fixpoint collect (env : Env) (opts : Options) (input_files : list Path)
    : outcome (list PlanItem) :=
  match input_files with
  | [] => Returned []
  | path :: rest =>
      item ← collect_item env opts path;
      plan ← collect env opts rest;
      Returned (item :: plan)
  end.

(** The sort key [(p.capture_dt, p.source.name)] and the [<] of such
    tuples: the first components that differ decide. *)
Definition sort_key (p : PlanItem) : datetime * string :=
  (capture_dt p, name (source p)).

Definition key_ltb (a b : datetime * string) : bool :=
  if dt_eqb a.1 b.1 then String.ltb a.2 b.2 else dt_ltb a.1 b.1.

(** [plan.sort(key=...)]: a stable sort.  An item goes in front of the
    first item of the sorted rest whose key is not smaller than its own, so
    items with equal keys keep the order they had. *)
Fixpoint sort_insert (x : PlanItem) (l : list PlanItem) : list PlanItem :=
  match l with
  | [] => [x]
  | y :: l' =>
      if key_ltb (sort_key y) (sort_key x) then y :: sort_insert x l'
      else x :: y :: l'
  end.

Fixpoint plan_sort (l : list PlanItem) : list PlanItem :=
  match l with
  | [] => []
  | x :: l' => sort_insert x (plan_sort l')
  end.

(** The state of the numbering loop: [last_second] and [seq_in_second]. *)
Definition seq_state : Type := option datetime * Z.

Definition seq_init : seq_state := (None, 0).

(** One round of the numbering loop, up to the new [seq_in_second]. *)
Definition seq_step (st : seq_state) (item : PlanItem) : seq_state :=
  let current_second := replace_microsecond_0 (capture_dt item) in
  match st.1 with
  | Some last_second =>
      if negb (dt_eqb current_second last_second) then (Some current_second, 1)
      else (st.1, st.2 + 1)
  | None => (Some current_second, 1)
  end.

Definition set_target (item : PlanItem) (t : Path) : PlanItem :=
  mkPlanItem (source item) t (capture_dt item) (needs_reencode item).

(** The second loop of [main]: numbering and target paths. *)
Fixpoint assign_targets (env : Env) (opts : Options) (fs : FileStore)
    (st : seq_state) (plan : list PlanItem) : outcome (list PlanItem) :=
  match plan with
  | [] => Returned []
  | item :: rest =>
      let st' := seq_step st item in
      let target_path :=
        build_target_path env (output_dir opts) (capture_dt item) st'.2
          (subfolders opts) (OUTPUT_FORMAT_TO_EXT (output_format opts)) in
      t ← ensure_unique fs target_path;
      rest' ← assign_targets env opts fs st' rest;
      Returned (set_target item t :: rest')
  end.

(** The sequence numbers the second loop hands out, in plan order. *)
Fixpoint seq_numbers (st : seq_state) (plan : list PlanItem) : list Z :=
  match plan with
  | [] => []
  | item :: rest =>
      let st' := seq_step st item in
      st'.2 :: seq_numbers st' rest
  end.

(** How [main] gets to the point where the plan is complete: it has left
    with [sys.exit], or it has the plan. *)
Inductive planning : Type :=
  | Exit (status : Z)
  | Planned (plan : list PlanItem).

(** [main], from the list of input files to the end of the second loop. *)
Definition main (env : Env) (opts : Options) (fs : FileStore)
    (input_files : list Path) : outcome planning :=
  match input_files with
  | [] => Returned (Exit 1)
  | _ =>
      plan ← collect env opts input_files;
      plan' ← assign_targets env opts fs seq_init (plan_sort plan);
      Returned (Planned plan')
  end.

(** ** Auxiliary notions of the proofs *)

(** Every character of [s] satisfies [f]. *)
Fixpoint str_forall (f : ascii → bool) (s : string) : bool :=
  match s with
  | "" => true
  | String c s' => f c && str_forall f s'
  end.

(** [s] without its leading zeros. *)
Fixpoint drop_zeros (s : string) : string :=
  match s with
  | String c s' => if char_eqb c "0" then drop_zeros s' else s
  | "" => ""
  end.

(** The order of naive datetimes, and of sort keys. *)
Definition dt_lt (a b : datetime) : Prop := dt_cmp a b = Lt.
Definition dt_le (a b : datetime) : Prop := dt_cmp a b ≠ Gt.

Definition str_lt (s t : string) : Prop := String.ltb s t = true.

Definition key_le (a b : datetime * string) : Prop :=
  dt_lt a.1 b.1 ∨ (a.1 = b.1 ∧ String.le a.2 b.2).

(** [x] and [y] are in key order. *)
Definition item_le (x y : PlanItem) : Prop := key_le (sort_key x) (sort_key y).

(** The whole second an item was captured in. *)
Definition second_of (x : PlanItem) : datetime :=
  replace_microsecond_0 (capture_dt x).

(** The path next to [p] that is called [n]. *)
Definition sibling (p : Path) (n : string) : Path :=
  mkPath (absolute p) (removelast (parts p) ++ [n]).

(** The base name of a target, without its extension, written out. *)
Definition stamp (env : Env) (dt : datetime) : string :=
  format_0d (year_width env) (year dt) +:+ "-" +:+ format_0d 2 (month dt) +:+ "-" +:+
  format_0d 2 (day dt) +:+ "_" +:+ format_0d 2 (hour dt) +:+ "-" +:+
  format_0d 2 (minute dt) +:+ "-" +:+ format_0d 2 (second dt).

Definition base_stem (env : Env) (dt : datetime) (idx : Z) : string :=
  stamp env dt +:+ "_" +:+ format_0d 4 idx.

(** The directories a layout policy puts between the root and the file. *)
Definition layout_dirs (env : Env) (subfolders : string) (dt : datetime)
    : list string :=
  let Y := format_0d (year_width env) (year dt) in
  if str_eqb subfolders "day" then [Y; format_0d 2 (month dt); format_0d 2 (day dt)]
  else if str_eqb subfolders "month" then [Y; format_0d 2 (month dt)]
  else if str_eqb subfolders "year" then [Y]
  else [].

(** [s] ends with the character [c]. *)
Fixpoint ends_with (c : ascii) (s : string) : bool :=
  match s with
  | "" => false
  | String a "" => char_eqb a c
  | String _ s' => ends_with c s'
  end.

(** *** The resolver, in the words of the specification *)

(** The EXIF items of a file; none when the image cannot be opened or its
    EXIF cannot be read. *)
Definition exif_items (env : Env) (path : Path) : list (Z * exif_value) :=
  match Image_open env path with
  | inr img =>
      match getexif img with
      | inr items => items
      | inl _ => []
      end
  | inl _ => []
  end.

(** The timestamp the EXIF tag [key] of a file parses to, if it does. *)
Definition exif_timestamp (env : Env) (path : Path) (key : string) : option datetime :=
  parse_exif_value env (exif_get env (exif_items env path) key).

(** The date and time in a file name: the first match of the pattern, if
    its values make a calendar date. *)
Definition name_timestamp (nm : string) : option datetime :=
  match re_search name_pattern nm with
  | Some m =>
      match datetime_of_match m with
      | Returned dt => Some dt
      | _ => None
      end
  | None => None
  end.

(** The first of the given sources that has a timestamp, or what the
    fallback comes to. *)
Fixpoint first_of (sources : list (option datetime)) (fallback : outcome datetime)
    : outcome datetime :=
  match sources with
  | [] => fallback
  | Some dt :: _ => Returned dt
  | None :: rest => first_of rest fallback
  end.

(** The file-system time as the claim words it: the creation time when the
    platform has one, else the modification time. *)
Definition file_time_when_available (env : Env) (path : Path) : outcome datetime :=
  stat ← call (path_stat env path);
  match st_birthtime stat with
  | Some b => call (fromtimestamp env b)
  | None => call (fromtimestamp env (st_mtime stat))
  end.

(** The file-system time as the code has it: the creation time when the
    platform has one and it is not zero, else the modification time; the
    exception of [stat] or of [fromtimestamp] when one of them raises. *)
Definition file_time (env : Env) (path : Path) : outcome datetime :=
  stat ← call (path_stat env path);
  match st_birthtime stat with
  | Some b =>
      if PrimFloat.eqb b 0%float
      then call (fromtimestamp env (st_mtime stat))
      else call (fromtimestamp env b)
  | None => call (fromtimestamp env (st_mtime stat))
  end.

(** The sources of a timestamp that come before the file system: the
    three EXIF tags in order, then the file name. *)
Definition metadata_timestamps (env : Env) (path : Path) : list (option datetime) :=
  [exif_timestamp env path "DateTimeOriginal";
   exif_timestamp env path "DateTime";
   exif_timestamp env path "DateTimeDigitized";
   name_timestamp (name path)].

(** The fallback chain: the three EXIF tags in order, then the file name,
    then the file-system time. *)
Definition resolve_by_priority (env : Env) (path : Path) (file_time : outcome datetime)
    : outcome datetime :=
  first_of (metadata_timestamps env path) file_time.

(** A file without EXIF and without a date in its name, whose creation
    time reads zero. *)
Definition env_birth_zero : Env :=
  {| Image_open := λ _, inl OSError;
     TAGS := λ _, None;
     strptime := λ _ _, inl ValueError;
     path_stat := λ _, inr (mkStat (Some 0%float) 1000%float);
     fromtimestamp := λ t,
       if PrimFloat.eqb t 0%float then inr (mkDatetime 1970 1 1 0 0 0 0)
       else inr (mkDatetime 1970 1 1 0 16 40 0);
     pads_year := false |}.

(** The same on a platform whose [strftime] fills the year with zeros. *)
Definition env_padded_year : Env :=
  {| Image_open := Image_open env_birth_zero;
     TAGS := TAGS env_birth_zero;
     strptime := strptime env_birth_zero;
     path_stat := path_stat env_birth_zero;
     fromtimestamp := fromtimestamp env_birth_zero;
     pads_year := true |}.

(** A file without EXIF whose modification time is beyond the year 9999:
    [fromtimestamp] raises [ValueError]. *)
Definition env_mtime_out_of_range : Env :=
  {| Image_open := λ _, inl OSError;
     TAGS := λ _, None;
     strptime := λ _ _, inl ValueError;
     path_stat := λ _, inr (mkStat None 253402300800%float);
     fromtimestamp := λ t,
       if PrimFloat.ltb t 253402300800%float
       then inr (mkDatetime 1970 1 1 0 16 40 0)
       else inl ValueError;
     pads_year := false |}.

(** *** The plan, piece by piece *)

(** The timestamp [main] has for a file.  For a file the resolver raises
    on, [main] makes no item; the epoch stands in. *)
Definition resolved (env : Env) (path : Path) : datetime :=
  match determine_capture_datetime env path with
  | Returned dt => dt
  | _ => mkDatetime 1970 1 1 0 0 0 0
  end.

(** The resolver returns for a file. *)
Definition resolves (env : Env) (path : Path) : Prop :=
  ∃ dt, determine_capture_datetime env path = Returned dt.

(** The decision to copy: the option is on and the extension is the one of
    the target format. *)
Definition copies_unchanged (opts : Options) (path : Path) : bool :=
  copy_unchanged opts
  && str_eqb (lower (suffix path)) (OUTPUT_FORMAT_TO_EXT (output_format opts)).

(** The item the first loop makes of a file. *)
Definition item_of (env : Env) (opts : Options) (path : Path) : PlanItem :=
  mkPlanItem path Path_empty (resolved env path) (negb (copies_unchanged opts path)).

(** The target path the second loop computes for an item and its number. *)
Definition target_path (env : Env) (opts : Options) (item : PlanItem) (idx : Z)
    : Path :=
  build_target_path env (output_dir opts) (capture_dt item) idx (subfolders opts)
    (OUTPUT_FORMAT_TO_EXT (output_format opts)).

(** [y] is [x] with the target allocated for number [idx]. *)
Definition allocated (env : Env) (opts : Options) (fs : FileStore) (x : PlanItem)
    (idx : Z) (y : PlanItem) : Prop :=
  y = set_target x (target y)
  ∧ ensure_unique fs (target_path env opts x idx) = Returned (target y).

(** The state of the numbering loop after the items of [l]. *)
Definition seq_after (st : seq_state) (l : list PlanItem) : seq_state :=
  foldl seq_step st l.

(** How many items of [l] were captured in the second [s]. *)
Definition count_second (s : datetime) (l : list PlanItem) : Z :=
  Z.of_nat (length (filter (λ y, second_of y = s) l)).

(** The timestamps the environment hands out are datetimes of Python. *)
Definition valid_env (env : Env) : Prop :=
  (∀ s fmt dt, strptime env s fmt = inr dt → valid_datetime dt)
  ∧ (∀ t dt, fromtimestamp env t = inr dt → valid_datetime dt).

(** The plan of the first loop, sorted. *)
Definition sorted_items (env : Env) (opts : Options) (input_files : list Path)
    : list PlanItem :=
  plan_sort (item_of env opts <$> input_files).

(** What may follow the digits of a number in a name: nothing, or
    something that does not start with a digit. *)
Definition no_digit_ahead (t : string) : Prop :=
  match t with
  | "" => True
  | String c _ => is_digit c = false
  end.

(** An extension: a dot, then at least one character, none of them a
    dot. *)
Definition dot_ext (ext : string) : Prop :=
  ∃ e, ext = String "." e ∧ e ≠ "" ∧ contains "." e = false.

(** An extension as the output formats have it: without a slash as well. *)
Definition plain_ext (ext : string) : Prop :=
  dot_ext ext ∧ contains "/" ext = false.

(** The seconds of a plan do not go down. *)
Definition seconds_ascend (l : list PlanItem) : Prop :=
  ∀ i j x y, (i < j)%nat → l !! i = Some x → l !! j = Some y →
             dt_le (second_of x) (second_of y).


(** The year of a stamp has four digits when the C library fills it, and
    from the year 1000 on in any case. *)
Definition four_digit_year (env : Env) (dt : datetime) : Prop :=
  pads_year env = true ∨ 1000 ≤ year dt.

(** ** The scan of the input directory *)

Definition SUPPORTED_INPUT_EXTS : list string :=
  [".jpg"; ".jpeg"; ".png"; ".heic"; ".heif"; ".webp"; ".tif"; ".tiff"].

(** What the scan sees of the input tree: the entries [root.rglob("*")] and
    [root.iterdir()] give, in the order they give them, and [is_file]. *)
Record Listing : Type := mkListing {
  rglob : Path → list Path;
  iterdir : Path → list Path;
  is_file : Path → bool
}.

(** [path.is_file() and path.suffix.lower() in SUPPORTED_INPUT_EXTS] *)
Definition is_input_file (ls : Listing) (path : Path) : bool :=
  is_file ls path && bool_decide (lower (suffix path) ∈ SUPPORTED_INPUT_EXTS).

(** [list(iter_input_files(root, recursive))] *)
Definition iter_input_files (ls : Listing) (root : Path) (recursive : bool)
    : list Path :=
  if recursive then filter (λ p, is_input_file ls p = true) (rglob ls root)
  else filter (λ p, is_input_file ls p = true) (iterdir ls root).

Global Instance exn_eq_dec : EqDecision exn.
Proof. solve_decision. Defined.

Global Instance outcome_eq_dec {A} `{EqDecision A} : EqDecision (outcome A).
Proof. solve_decision. Defined.

(** ** Auxiliary notions: the digits of the formatted fields *)

(** [format_0d 2 n] is two characters of the class [cls], and [int] reads
    [n] back from them. *)
Definition two_chars (cls : ascii → ascii → bool) (n : Z) : bool :=
  match format_0d 2 n with
  | String a (String b "") =>
      cls a b && bool_decide (int_of_str (String a (String b "")) = Returned n)
  | _ => false
  end.

(** [format_0d 4 n] is [20] and two digits, and [int] reads [n] back. *)
Definition year_chars (n : Z) : bool :=
  match format_0d 4 n with
  | String c1 (String c2 (String a (String b ""))) =>
      char_eqb "2" c1 && char_eqb "0" c2 && is_digit a && is_digit b
      && bool_decide
           (int_of_str (String c1 (String c2 (String a (String b "")))) = Returned n)
  | _ => false
  end.

(** The character classes of the groups of the file-name pattern. *)
Definition month_cls (a b : ascii) : bool :=
  (char_eqb "0" a && in_range "1" "9" b) || (char_eqb "1" a && in_range "0" "2" b).
Definition day_cls (a b : ascii) : bool :=
  (in_range "0" "2" a && is_digit b) || (char_eqb "3" a && one_of "01" b).
Definition hour_cls (a b : ascii) : bool :=
  (one_of "01" a && is_digit b) || (char_eqb "2" a && in_range "0" "3" b).
Definition sixty_cls (a b : ascii) : bool := in_range "0" "5" a && is_digit b.

(** The names of the groups of a pattern. *)
Fixpoint group_names (r : regex) : list string :=
  match r with
  | Chr _ => []
  | Cat r1 r2 | Alt r1 r2 => group_names r1 ++ group_names r2
  | Opt r1 => group_names r1
  | Grp g r1 => g :: group_names r1
  end.

Definition comparison_eqb (c d : comparison) : bool :=
  match c, d with
  | Eq, Eq | Lt, Lt | Gt, Gt => true
  | _, _ => false
  end.

(** Two digits compare as their numbers do. *)
Definition two_digits_ordered (a : Z) : bool :=
  (String.length (format_0d 2 a) =? 2)%nat
  && forallb (λ b, comparison_eqb (String.compare (format_0d 2 a) (format_0d 2 b)) (a ?= b))
       (seqZ 0 100).

(** Four digits are two and two. *)
Definition four_digits_split (n : Z) : bool :=
  str_eqb (format_0d 4 n) (format_0d 2 (n / 100) +:+ format_0d 2 (n mod 100)).

(** The order of seconds first, of numbers second. *)
Definition second_then_number (dt1 dt2 : datetime) (i1 i2 : Z) : comparison :=
  match dt_cmp (replace_microsecond_0 dt1) (replace_microsecond_0 dt2) with
  | Eq => i1 ?= i2
  | c => c
  end.

(** A separator the pattern lets through: none, or one character of the
    class. *)
Definition opt_sep (f : ascii → bool) (sep : string) : bool :=
  match sep with
  | "" => true
  | String c "" => f c
  | _ => false
  end.

(** The six fields of a timestamp with separators between them. *)
Definition written_fields (dt : datetime) (s1 s2 s3 s4 s5 : string) : string :=
  format_0d 4 (year dt) +:+ s1 +:+ format_0d 2 (month dt) +:+ s2 +:+
  format_0d 2 (day dt) +:+ s3 +:+ format_0d 2 (hour dt) +:+ s4 +:+
  format_0d 2 (minute dt) +:+ s5 +:+ format_0d 2 (second dt).

(** The separator classes of the pattern. *)
Definition date_sep : ascii → bool := one_of "-_.".
Definition mid_sep (c : ascii) : bool := one_of "_-." c || is_space c.
Definition time_sep : ascii → bool := one_of ":._-".

(** A [strptime] that refuses a value without the slashes of the format
    [%Y/%m/%d %H:%M:%S]. *)
Definition slash_format_needs_slash (env : Env) : Prop :=
  ∀ value dt,
    strptime env value "%Y/%m/%d %H:%M:%S" = inr dt → contains "/" value = true.

(** An imaging library that reads one tag, [DateTimeOriginal], written with
    slashes, and a [strptime] for that one value. *)
Definition env_exif_slashes : Env :=
  {| Image_open := λ _,
       inr (mkImage (inr [(36867, ExifStr " 2021/01/02 15:30:45 ")]));
     TAGS := λ tag, if tag =? 36867 then Some "DateTimeOriginal" else None;
     strptime := λ value fmt,
       if str_eqb fmt "%Y:%m:%d %H:%M:%S" && str_eqb value "2021:01:02 15:30:45"
       then inr (mkDatetime 2021 1 2 15 30 45 0)
       else inl ValueError;
     path_stat := λ _, inr (mkStat None 1000%float);
     fromtimestamp := λ _, inr (mkDatetime 1970 1 1 0 16 40 0);
     pads_year := false |}.
(** * Properties *)

(** ** Sanity checks of the string and path primitives *)

Example ex_suffix_jpg : name_suffix "IMG_0001.JPG" = ".JPG". Proof. reflexivity. Qed.
Example ex_stem_dot : name_stem "foo." = "foo.". Proof. reflexivity. Qed.
Example ex_fmt : format_0d 4 7 = "0007". Proof. vm_compute. reflexivity. Qed.
Example ex_fmt2 : format_0d 4 (-5) = "-005". Proof. vm_compute. reflexivity. Qed.
Example ex_fmt3 : format_0d 4 12345 = "12345". Proof. vm_compute. reflexivity. Qed.
Example ex_div : mkPath false ["out"] // "2024/03/05" // "a.jpg" = mkPath false ["out";"2024";"03";"05";"a.jpg"].
Proof. vm_compute. reflexivity. Qed.

Example ex_strftime :
  strftime env_birth_zero (mkDatetime 2024 3 5 10 0 1 250) "%Y-%m-%d_%H-%M-%S"
  = "2024-03-05_10-00-01".
Proof. vm_compute. reflexivity. Qed.

Example ex_strftime_999 :
  strftime env_birth_zero (mkDatetime 999 1 2 3 4 5 0) "%Y-%m-%d_%H-%M-%S"
  = "999-01-02_03-04-05"
  ∧ strftime env_padded_year (mkDatetime 999 1 2 3 4 5 0) "%Y-%m-%d_%H-%M-%S"
    = "0999-01-02_03-04-05".
Proof. vm_compute. done. Qed.

Example ex_name_1 :
  try_parse_from_name "IMG_20210102_153045.jpg" = Returned (Some (mkDatetime 2021 1 2 15 30 45 0)).
Proof. vm_compute. reflexivity. Qed.

Example ex_name_2 :
  try_parse_from_name "2021-01-02 15.30.45.png" = Returned (Some (mkDatetime 2021 1 2 15 30 45 0)).
Proof. vm_compute. reflexivity. Qed.

Example ex_name_3 : try_parse_from_name "IMG_20210132_153045.jpg" = Returned None.
Proof. vm_compute. reflexivity. Qed.

Example ex_name_4 : try_parse_from_name "IMG_20210200_153045.jpg" = Returned None.
Proof. vm_compute. reflexivity. Qed.

Example ex_name_5 : try_parse_from_name "holiday.jpg" = Returned None.
Proof. vm_compute. reflexivity. Qed.

(** ** Strings *)

#[local] Arguments String.append _ _ : simpl nomatch.

Section strings.
Implicit Types (s t u : string) (c : ascii).

Lemma str_app_assoc s t u : (s +:+ t) +:+ u = s +:+ (t +:+ u).
Proof. induction s as [|a s IH]; simpl; [done | by rewrite IH]. Qed.

Lemma str_app_nil_r s : s +:+ "" = s.
Proof. induction s as [|a s IH]; simpl; [done | by rewrite IH]. Qed.

Lemma str_app_length s t :
  String.length (s +:+ t) = (String.length s + String.length t)%nat.
Proof. induction s as [|a s IH]; simpl; [done | by rewrite IH]. Qed.

Lemma char_eqb_eq a b : char_eqb a b = true ↔ a = b.
Proof. apply Ascii.eqb_eq. Qed.

Lemma char_eqb_neq a b : char_eqb a b = false ↔ a ≠ b.
Proof. apply Ascii.eqb_neq. Qed.

Lemma contains_app c s t : contains c (s +:+ t) = contains c s || contains c t.
Proof.
  induction s as [|a s IH]; simpl; [done|].
  by rewrite IH, orb_assoc.
Qed.

(** Two texts cut at their first [c] agree piece by piece. *)
Lemma split_at_sep c s s' t t' :
  contains c s = false → contains c s' = false →
  s +:+ String c t = s' +:+ String c t' → s = s' ∧ t = t'.
Proof.
  revert s'. induction s as [|a s IH]; intros [|a' s']; simpl;
    intros Hs Hs' Heq.
  - by inversion Heq.
  - inversion Heq; subst. apply orb_false_elim in Hs' as [Hc _].
    apply char_eqb_neq in Hc. done.
  - inversion Heq; subst. apply orb_false_elim in Hs as [Hc _].
    apply char_eqb_neq in Hc. done.
  - inversion Heq; subst.
    apply orb_false_elim in Hs as [_ Hs].
    apply orb_false_elim in Hs' as [_ Hs'].
    destruct (IH s' Hs Hs') as [-> ->]; done.
Qed.

Lemma rfind_lower c s : -1 ≤ rfind c s.
Proof.
  induction s as [|a s IH]; simpl; [lia|].
  destruct (0 <=? rfind c s) eqn:E; [lia|].
  destruct (char_eqb a c); lia.
Qed.

Lemma rfind_upper c s : rfind c s < Z.of_nat (String.length s).
Proof.
  induction s as [|a s IH]; simpl String.length; simpl rfind; [lia|].
  destruct (0 <=? rfind c s) eqn:E; [lia|].
  destruct (char_eqb a c); lia.
Qed.

Lemma rfind_none c s : contains c s = false → rfind c s = -1.
Proof.
  induction s as [|a s IH]; simpl; [done|].
  intros [Ha Hs]%orb_false_elim. rewrite (IH Hs), Ha. done.
Qed.

Lemma rfind_some c s : contains c s = true → 0 ≤ rfind c s.
Proof.
  induction s as [|a s IH]; simpl; [done|].
  destruct (0 <=? rfind c s) eqn:E; [lia|].
  intros [Ha|Hs]%orb_true_iff; [by rewrite Ha|].
  apply IH in Hs. lia.
Qed.

(** The last [c] of [s +:+ t] is the last [c] of [t], if [t] has one. *)
Lemma rfind_app_r c s t :
  contains c t = true →
  rfind c (s +:+ t) = Z.of_nat (String.length s) + rfind c t.
Proof.
  intros Ht. induction s as [|a s IH]; simpl String.length; simpl rfind.
  - simpl. lia.
  - simpl. rewrite IH. pose proof (rfind_some c t Ht).
    destruct (0 <=? _) eqn:E; lia.
Qed.

Lemma rfind_app_l c s t :
  contains c t = false → rfind c (s +:+ t) = rfind c s.
Proof.
  intros Ht. induction s as [|a s IH]; simpl.
  - by apply rfind_none.
  - by rewrite IH.
Qed.

Lemma str_take_app s t : str_take (String.length s) (s +:+ t) = s.
Proof. induction s as [|a s IH]; simpl; [by destruct t | by rewrite IH]. Qed.

Lemma str_drop_app s t : str_drop (String.length s) (s +:+ t) = t.
Proof. induction s as [|a s IH]; simpl; done. Qed.

Lemma str_eqb_eq s t : str_eqb s t = true ↔ s = t.
Proof. unfold str_eqb. by rewrite bool_decide_eq_true. Qed.

Lemma str_eqb_neq s t : str_eqb s t = false ↔ s ≠ t.
Proof. unfold str_eqb. by rewrite bool_decide_eq_false. Qed.
End strings.

Lemma plain_ext_OUTPUT_FORMAT f : plain_ext (OUTPUT_FORMAT_TO_EXT f).
Proof. destruct f; (split; [eexists; (split; [reflexivity|]); done | done]). Qed.

Section suffix_stem.
Variables (s ext : string).
Hypothesis Hs : s ≠ "".
Hypothesis Hext : dot_ext ext.

Lemma rfind_dot_ext :
  rfind "." (s +:+ ext) = Z.of_nat (String.length s)
  ∧ splits_at_dot (s +:+ ext) = true.
Proof using Hs Hext.
  destruct Hext as (e & -> & He & Hdot).
  assert (rfind "." (s +:+ String "." e) = Z.of_nat (String.length s)) as Hr.
  { rewrite rfind_app_r by done. simpl. rewrite (rfind_none _ _ Hdot). simpl. lia. }
  split; [done|]. unfold splits_at_dot. rewrite Hr, str_app_length.
  destruct s; [done|]. destruct e; [done|]. simpl String.length.
  apply andb_true_intro; split; apply Z.ltb_lt; lia.
Qed.

Lemma name_suffix_app : name_suffix (s +:+ ext) = ext.
Proof using Hs Hext.
  unfold name_suffix. destruct rfind_dot_ext as [-> ->].
  by rewrite Nat2Z.id, str_drop_app.
Qed.

Lemma name_stem_app : name_stem (s +:+ ext) = s.
Proof using Hs Hext.
  unfold name_stem. destruct rfind_dot_ext as [-> ->].
  by rewrite Nat2Z.id, str_take_app.
Qed.
End suffix_stem.

(** ** Decimal numerals *)

Lemma str_forall_app f s t :
  str_forall f (s +:+ t) = str_forall f s && str_forall f t.
Proof. induction s as [|a s IH]; simpl; [done | by rewrite IH, andb_assoc]. Qed.

Lemma str_forall_contains f c s :
  str_forall f s = true → f c = false → contains c s = false.
Proof.
  intros Hs Hc. induction s as [|a s IH]; simpl in *; [done|].
  apply andb_prop in Hs as [Ha Hs]. rewrite (IH Hs), orb_false_r.
  apply char_eqb_neq. intros ->. congruence.
Qed.

Lemma pretty_N_char_digit d : is_digit (pretty_N_char d) = true.
Proof. unfold pretty_N_char. by repeat case_match. Qed.

Lemma pretty_N_go_digits x s :
  str_forall is_digit s = true → str_forall is_digit (pretty_N_go x s) = true.
Proof.
  revert s. induction (N.lt_wf_0 x) as [x _ IH]; intros s Hs.
  destruct (decide (x = 0%N)) as [->|Hx]; [by rewrite pretty_N_go_0|].
  rewrite pretty_N_go_step by lia.
  apply IH; [apply N.div_lt; lia|].
  simpl. by rewrite pretty_N_char_digit.
Qed.

Lemma pretty_N_digits (x : N) : str_forall is_digit (pretty x) = true.
Proof.
  unfold pretty, pretty_N. case_decide; [done|]. by apply pretty_N_go_digits.
Qed.

(** The numeral of a positive number starts with a digit that is not 0. *)
Lemma pretty_N_go_head x s :
  (0 < x)%N → ∃ c t, pretty_N_go x s = String c t ∧ c ≠ "0"%char.
Proof.
  revert s. induction (N.lt_wf_0 x) as [x _ IH]; intros s Hx.
  rewrite pretty_N_go_step by done.
  destruct (decide (x `div` 10 = 0)%N) as [Hd|Hd].
  - rewrite Hd, pretty_N_go_0. eexists _, _; split; [done|].
    assert (x < 10)%N by (apply N.div_small_iff in Hd; lia).
    rewrite N.mod_small by done.
    assert (x = 1 ∨ x = 2 ∨ x = 3 ∨ x = 4 ∨ x = 5 ∨ x = 6
            ∨ x = 7 ∨ x = 8 ∨ x = 9)%N as Hcases by lia.
    repeat (destruct Hcases as [->|Hcases]; [done|]). by subst.
  - apply IH; [apply N.div_lt; lia | by apply N.neq_0_lt_0].
Qed.

Lemma pretty_N_head (x : N) :
  x ≠ 0%N → ∃ c t, pretty x = String c t ∧ c ≠ "0"%char.
Proof.
  intros Hx. unfold pretty, pretty_N. rewrite decide_False by done.
  apply pretty_N_go_head. lia.
Qed.

Lemma pretty_N_nonempty (x : N) : pretty x ≠ "".
Proof.
  destruct (decide (x = 0%N)) as [->|Hx]; [done|].
  destruct (pretty_N_head x Hx) as (c & t & -> & _). done.
Qed.

Lemma drop_zeros_zeros n s : drop_zeros (zeros n +:+ s) = drop_zeros s.
Proof. induction n as [|n IH]; simpl; done. Qed.

Lemma drop_zeros_pretty (x : N) :
  drop_zeros (pretty x) = if decide (x = 0%N) then "" else pretty x.
Proof.
  case_decide as Hx; [by subst|].
  destruct (pretty_N_head x Hx) as (c & t & -> & Hc).
  simpl. apply char_eqb_neq in Hc. by rewrite Hc.
Qed.

Lemma zfill_inj w (x y : N) : zfill w (pretty x) = zfill w (pretty y) → x = y.
Proof.
  unfold zfill. intros Heq. apply (f_equal drop_zeros) in Heq.
  rewrite !drop_zeros_zeros, !drop_zeros_pretty in Heq.
  repeat case_decide; subst; try done.
  - by destruct (pretty_N_nonempty y).
  - by destruct (pretty_N_nonempty x).
  - by apply (inj pretty).
Qed.

Lemma zeros_digits n : str_forall is_digit (zeros n) = true.
Proof. induction n; simpl; done. Qed.

Lemma zfill_digits w (x : N) : str_forall is_digit (zfill w (pretty x)) = true.
Proof.
  unfold zfill. by rewrite str_forall_app, zeros_digits, pretty_N_digits.
Qed.

Lemma zfill_nonempty w (x : N) : zfill w (pretty x) ≠ "".
Proof.
  unfold zfill. intros H. apply (f_equal String.length) in H.
  rewrite str_app_length in H. simpl in H.
  pose proof (pretty_N_nonempty x). destruct (pretty x); [done | simpl in H; lia].
Qed.

(** [format_0d] of a number that is not negative: digits only. *)
Lemma format_0d_digits w n :
  0 ≤ n → str_forall is_digit (format_0d w n) = true.
Proof.
  intros Hn. unfold format_0d.
  destruct (n <? 0) eqn:E; [apply Z.ltb_lt in E; lia|]. apply zfill_digits.
Qed.

Lemma format_0d_nonempty w n : format_0d w n ≠ "".
Proof.
  unfold format_0d. destruct (n <? 0); [done | apply zfill_nonempty].
Qed.

(** No character other than a digit or the sign occurs in a formatted
    number. *)
Lemma format_0d_contains w n c :
  is_digit c = false → c ≠ "-"%char → contains c (format_0d w n) = false.
Proof.
  intros Hc Hm. unfold format_0d. destruct (n <? 0).
  - cbn [contains]. apply orb_false_intro; [by apply char_eqb_neq|].
    eapply str_forall_contains; [apply zfill_digits | done].
  - eapply str_forall_contains; [apply zfill_digits | done].
Qed.

Lemma format_0d_contains_nonneg w n c :
  0 ≤ n → is_digit c = false → contains c (format_0d w n) = false.
Proof.
  intros Hn Hc. eapply str_forall_contains; [by apply format_0d_digits | done].
Qed.

Lemma format_0d_inj w n m : format_0d w n = format_0d w m → n = m.
Proof.
  unfold format_0d. intros Heq.
  destruct (n <? 0) eqn:En, (m <? 0) eqn:Em;
    try apply Z.ltb_lt in En; try apply Z.ltb_lt in Em;
    try apply Z.ltb_ge in En; try apply Z.ltb_ge in Em.
  - inversion Heq as [Hz]. apply zfill_inj in Hz. lia.
  - pose proof (zfill_digits w (Z.abs_N m)) as Hd. rewrite <- Heq in Hd. done.
  - pose proof (zfill_digits w (Z.abs_N n)) as Hd. rewrite Heq in Hd. done.
  - apply zfill_inj in Heq. lia.
Qed.

(** *** Numbers of four digits and more *)

Lemma pretty_N_go_length_ge x s :
  (String.length s ≤ String.length (pretty_N_go x s))%nat.
Proof.
  revert s. induction (N.lt_wf_0 x) as [x _ IH]; intros s.
  destruct (decide (x = 0%N)) as [->|Hx]; [by rewrite pretty_N_go_0|].
  rewrite pretty_N_go_step by lia.
  etrans; [|apply IH; apply N.div_lt; lia]. cbn [String.length]. lia.
Qed.

Lemma pretty_N_go_length (k : nat) x s :
  (10 ^ N.of_nat k ≤ x)%N →
  (String.length s + k < String.length (pretty_N_go x s))%nat.
Proof.
  revert x s. induction k as [|k IH]; intros x s Hx.
  - change (10 ^ N.of_nat 0)%N with 1%N in Hx.
    rewrite pretty_N_go_step by lia.
    eapply Nat.lt_le_trans; [|apply pretty_N_go_length_ge]. cbn [String.length]. lia.
  - assert (0 < 10 ^ N.of_nat k)%N by (apply N.neq_0_lt_0, N.pow_nonzero; lia).
    rewrite Nat2N.inj_succ, N.pow_succ_r' in Hx.
    rewrite pretty_N_go_step by lia.
    eapply Nat.le_lt_trans; [|apply (IH (x `div` 10)%N)].
    + cbn [String.length]. lia.
    + apply N.div_le_lower_bound; lia.
Qed.

Lemma pretty_N_four_digits (x : N) : (1000 ≤ x)%N → (4 ≤ String.length (pretty x))%nat.
Proof.
  intros Hx. unfold pretty, pretty_N. rewrite decide_False by lia.
  pose proof (pretty_N_go_length 3 x "" Hx) as H. cbn [String.length] in H. lia.
Qed.

(** From 1000 on a number has its four digits without any filling. *)
Lemma format_0d_four_digits w n :
  (w ≤ 4)%nat → 1000 ≤ n → format_0d w n = format_0d 4 n.
Proof.
  intros Hw Hn. unfold format_0d. destruct (n <? 0) eqn:E; [apply Z.ltb_lt in E; lia|].
  unfold zfill.
  assert (4 ≤ String.length (pretty (Z.abs_N n)))%nat as Hlen
    by (apply pretty_N_four_digits; lia).
  by replace (w - _)%nat with 0%nat by lia; replace (4 - _)%nat with 0%nat by lia.
Qed.

(** Filling to one digit fills nothing: [%d]. *)
Lemma format_0d_1 n : format_0d 1 n = str_of_int n.
Proof.
  unfold format_0d, str_of_int, zfill.
  pose proof (pretty_N_nonempty (Z.abs_N n)) as Hne.
  destruct n as [|p|p]; cbn [Z.ltb Z.compare]; [done| |done].
  change (pretty (Z.pos p)) with (pretty (Z.abs_N (Z.pos p))).
  destruct (pretty (Z.abs_N (Z.pos p))) as [|c s]; [done|].
  cbn [String.length]. by replace (1 - S _)%nat with 0%nat by lia.
Qed.

(** ** The order of datetimes *)

Lemma tuple_cmp_refl a : tuple_cmp a a = Eq.
Proof. induction a as [|x a IH]; simpl; [done|]. by rewrite Z.compare_refl. Qed.

Lemma tuple_cmp_eq a b : tuple_cmp a b = Eq → a = b.
Proof.
  revert b. induction a as [|x a IH]; intros [|y b]; simpl; try done.
  destruct (x ?= y) eqn:E; try done.
  apply Z.compare_eq in E. intros H%IH. by subst.
Qed.

Lemma tuple_cmp_antisym a b : tuple_cmp b a = CompOpp (tuple_cmp a b).
Proof.
  revert b. induction a as [|x a IH]; intros [|y b]; simpl; try done.
  rewrite (Z.compare_antisym x y). destruct (x ?= y); simpl; auto.
Qed.

Lemma tuple_cmp_trans a b c :
  tuple_cmp a b = Lt → tuple_cmp b c = Lt → tuple_cmp a c = Lt.
Proof.
  revert b c. induction a as [|x a IH]; intros [|y b] [|z c]; simpl; try done.
  destruct (x ?= y) eqn:Exy; try done.
  - apply Z.compare_eq in Exy. subst y.
    destruct (x ?= z); try done. apply IH.
  - intros _. destruct (y ?= z) eqn:Eyz; try done.
    + apply Z.compare_eq in Eyz. subst z. by rewrite Exy.
    + intros _. rewrite Z.compare_lt_iff in Exy, Eyz.
      assert (x < z) as ->%Z.compare_lt_iff by lia. done.
Qed.

Lemma dt_tuple_inj a b : dt_tuple a = dt_tuple b → a = b.
Proof. destruct a, b. unfold dt_tuple; simpl. by intros [= -> -> -> -> -> -> ->]. Qed.

Lemma dt_cmp_refl a : dt_cmp a a = Eq.
Proof. apply tuple_cmp_refl. Qed.

Lemma dt_cmp_eq a b : dt_cmp a b = Eq ↔ a = b.
Proof.
  split; [|intros ->; apply dt_cmp_refl].
  intros H. by apply dt_tuple_inj, tuple_cmp_eq.
Qed.

Lemma dt_cmp_antisym a b : dt_cmp b a = CompOpp (dt_cmp a b).
Proof. apply tuple_cmp_antisym. Qed.

Lemma dt_lt_irrefl a : ¬ dt_lt a a.
Proof. unfold dt_lt. by rewrite dt_cmp_refl. Qed.

Lemma dt_lt_trans a b c : dt_lt a b → dt_lt b c → dt_lt a c.
Proof. apply tuple_cmp_trans. Qed.

Lemma dt_lt_asym a b : dt_lt a b → ¬ dt_lt b a.
Proof. intros H1 H2. by apply (dt_lt_irrefl a), (dt_lt_trans a b a). Qed.

Lemma dt_le_alt a b : dt_le a b ↔ dt_lt a b ∨ a = b.
Proof.
  unfold dt_le, dt_lt. rewrite <- dt_cmp_eq. destruct (dt_cmp a b); intuition congruence.
Qed.

Lemma dt_le_antisym a b : dt_le a b → dt_le b a → a = b.
Proof.
  rewrite !dt_le_alt. intros [H1|H1] [H2|H2]; try done.
  by destruct (dt_lt_asym a b).
Qed.

Lemma dt_le_trans a b c : dt_le a b → dt_le b c → dt_le a c.
Proof.
  rewrite !dt_le_alt. intros [H1| ->] [H2| ->]; eauto using dt_lt_trans.
Qed.

Lemma dt_total a b : dt_lt a b ∨ a = b ∨ dt_lt b a.
Proof.
  unfold dt_lt. rewrite (dt_cmp_antisym a b), <- dt_cmp_eq.
  destruct (dt_cmp a b); simpl; auto.
Qed.

Lemma dt_ltb_lt a b : dt_ltb a b = true ↔ dt_lt a b.
Proof. unfold dt_ltb, dt_lt. destruct (dt_cmp a b); intuition congruence. Qed.

Lemma dt_eqb_eq a b : dt_eqb a b = true ↔ a = b.
Proof. unfold dt_eqb. by rewrite bool_decide_eq_true. Qed.

(** Dropping the microseconds keeps the order. *)
Lemma replace_microsecond_0_mono a b :
  dt_le a b → dt_le (replace_microsecond_0 a) (replace_microsecond_0 b).
Proof.
  unfold dt_le, dt_cmp, replace_microsecond_0, dt_tuple. destruct a, b; simpl.
  repeat (match goal with
          | |- context [?x ?= ?y] =>
              lazymatch x with
              | 0 => fail
              | _ => destruct (x ?= y); try done
              end
          end).
Qed.

(** ** The order of sort keys *)

Lemma str_ltb_leb s t : String.ltb s t = negb (String.leb t s).
Proof.
  unfold String.ltb, String.leb. rewrite (String.compare_antisym s t).
  by destruct (String.compare t s).
Qed.

Lemma key_ltb_false a b : key_ltb b a = false ↔ key_le a b.
Proof.
  unfold key_ltb, key_le. destruct (dt_eqb b.1 a.1) eqn:E.
  - apply dt_eqb_eq in E. rewrite str_ltb_leb, negb_false_iff.
    unfold String.le. split; [intros H; right; split; [done | by rewrite H]|].
    intros [H|[_ H]]; [|by destruct (String.leb a.2 b.2)].
    rewrite E in H. by destruct (dt_lt_irrefl a.1).
  - assert (b.1 ≠ a.1) as Hne by (by intros ?%dt_eqb_eq; congruence).
    rewrite <- not_true_iff_false, dt_ltb_lt. split.
    + intros H. destruct (dt_total a.1 b.1) as [?|[?|?]]; [by left|done|done].
    + intros [H|[H _]]; [by apply dt_lt_asym | done].
Qed.

Lemma key_ltb_true a b : key_ltb a b = true → key_le a b.
Proof.
  unfold key_ltb, key_le. destruct (dt_eqb a.1 b.1) eqn:E.
  - apply dt_eqb_eq in E. intros H. right. split; [done|].
    unfold String.le. unfold String.ltb in H. unfold String.leb.
    by destruct (String.compare a.2 b.2).
  - rewrite dt_ltb_lt. by left.
Qed.

Global Instance key_le_trans : Transitive key_le.
Proof.
  intros a b c [H1|[H1 H1']] [H2|[H2 H2']].
  - left. by eapply dt_lt_trans.
  - left. by rewrite <- H2.
  - left. by rewrite H1.
  - right. split; [congruence|]. by etrans.
Qed.

Global Instance item_le_trans : Transitive item_le.
Proof. intros x y z. unfold item_le. apply key_le_trans. Qed.

Lemma key_le_dt a b : key_le a b → dt_le a.1 b.1.
Proof. rewrite dt_le_alt. intros [H|[H _]]; auto. Qed.

(** ** Paths *)

Lemma rev_app_app s acc t : String.rev_app s acc +:+ t = String.rev_app s (acc +:+ t).
Proof. revert acc. induction s as [|a s IH]; intros acc; simpl; [done|]. by rewrite IH. Qed.

Lemma split_slash_plain cur s :
  contains "/" s = false → split_slash cur s = [String.rev cur +:+ s].
Proof.
  revert cur. induction s as [|a s IH]; intros cur; cbn [contains split_slash].
  - by rewrite str_app_nil_r.
  - intros [Ha Hs]%orb_false_elim. rewrite Ha, (IH _ Hs).
    unfold String.rev. cbn [String.rev_app]. by rewrite !rev_app_app.
Qed.

Lemma split_slash_sep cur s t :
  contains "/" s = false →
  split_slash cur (s +:+ String "/" t) = (String.rev cur +:+ s) :: split_slash "" t.
Proof.
  revert cur. induction s as [|a s IH]; intros cur; cbn [contains split_slash].
  - intros _. simpl. by rewrite str_app_nil_r.
  - intros [Ha Hs]%orb_false_elim. simpl. cbn [split_slash]. rewrite Ha, (IH _ Hs).
    unfold String.rev. cbn [String.rev_app]. by rewrite !rev_app_app.
Qed.

Lemma contains_not_starts_with_slash s :
  contains "/" s = false → starts_with_slash s = false.
Proof. destruct s; cbn [contains starts_with_slash]; [done|]. by intros [? _]%orb_false_elim. Qed.

(** Joining a single plain component. *)
Lemma truediv_plain p b :
  contains "/" b = false → b ≠ "" → b ≠ "." →
  p // b = mkPath (absolute p) (parts p ++ [b]).
Proof.
  intros Hb H1 H2. unfold truediv, segments.
  rewrite contains_not_starts_with_slash, split_slash_plain by done.
  unfold String.rev; cbn [String.rev_app]. simpl String.append.
  rewrite filter_cons_True by done. done.
Qed.

Lemma name_snoc a l b : name (mkPath a (l ++ [b])) = b.
Proof. unfold name; simpl. by rewrite last_last. Qed.

Lemma parent_snoc a l b : parent (mkPath a (l ++ [b])) = mkPath a l.
Proof. unfold parent; simpl. by rewrite removelast_last. Qed.


Lemma with_name_returned p n r :
  with_name p n = Returned r → name p ≠ "" ∧ valid_name n = true ∧ r = sibling p n.
Proof.
  unfold with_name. destruct (str_eqb (name p) "") eqn:E; [done|].
  apply str_eqb_neq in E. destruct (valid_name n); simpl; [|done].
  by intros [= <-].
Qed.

Lemma with_name_valid p n :
  name p ≠ "" → valid_name n = true → with_name p n = Returned (sibling p n).
Proof.
  intros Hp Hn. unfold with_name. apply str_eqb_neq in Hp. by rewrite Hp, Hn.
Qed.

Lemma name_sibling p n : name (sibling p n) = n.
Proof. apply name_snoc. Qed.

Lemma parent_sibling p n : parent (sibling p n) = parent p.
Proof. unfold parent, sibling; simpl. by rewrite removelast_last. Qed.

Lemma path_exists_true fs p : path_exists fs p = true ↔ p ∈ fs.
Proof. unfold path_exists. by rewrite bool_decide_eq_true. Qed.

Lemma path_exists_false fs p : path_exists fs p = false ↔ p ∉ fs.
Proof. unfold path_exists. by rewrite bool_decide_eq_false. Qed.

(** ** Formatting of target names *)

Lemma format_0d_plain w n :
  contains "/" (format_0d w n) = false ∧ format_0d w n ≠ "" ∧ format_0d w n ≠ ".".
Proof.
  split_and!.
  - by apply format_0d_contains.
  - apply format_0d_nonempty.
  - intros H. pose proof (format_0d_contains w n "." eq_refl) as Hc.
    rewrite H in Hc. by specialize (Hc ltac:(done)).
Qed.

Lemma strftime_stamp env dt : strftime env dt "%Y-%m-%d_%H-%M-%S" = stamp env dt.
Proof. unfold stamp. cbn. by rewrite str_app_nil_r. Qed.

Lemma strftime_day env dt :
  strftime env dt "%Y/%m/%d"
  = format_0d (year_width env) (year dt) +:+ "/" +:+ format_0d 2 (month dt) +:+ "/"
    +:+ format_0d 2 (day dt).
Proof. cbn. by rewrite str_app_nil_r. Qed.

Lemma strftime_month env dt :
  strftime env dt "%Y/%m"
  = format_0d (year_width env) (year dt) +:+ "/" +:+ format_0d 2 (month dt).
Proof. cbn. by rewrite str_app_nil_r. Qed.

Lemma strftime_year env dt : strftime env dt "%Y" = format_0d (year_width env) (year dt).
Proof. cbn. by rewrite str_app_nil_r. Qed.

Ltac contains_false :=
  rewrite ?contains_app; cbn [contains String.append];
  rewrite ?contains_app, ?format_0d_contains by done;
  repeat (apply orb_false_intro; try done).

Lemma stamp_no_slash env dt : contains "/" (stamp env dt) = false.
Proof. unfold stamp. contains_false. Qed.

Lemma base_stem_no_slash env dt idx : contains "/" (base_stem env dt idx) = false.
Proof. unfold base_stem. rewrite contains_app, stamp_no_slash. contains_false. Qed.

Lemma base_stem_nonempty env dt idx : base_stem env dt idx ≠ "".
Proof.
  unfold base_stem, stamp. pose proof (format_0d_nonempty (year_width env) (year dt)).
  destruct (format_0d (year_width env) (year dt)); done.
Qed.

Lemma base_name_eq env dt idx ext :
  strftime env dt "%Y-%m-%d_%H-%M-%S" +:+ ("_" +:+ format_0d 4 idx) +:+ ext
  = base_stem env dt idx +:+ ext.
Proof. rewrite strftime_stamp. unfold base_stem. by rewrite !str_app_assoc. Qed.

Section base_name.
Variables (env : Env) (dt : datetime) (idx : Z) (ext : string).
Hypothesis Hext : plain_ext ext.

Lemma base_name_plain :
  contains "/" (base_stem env dt idx +:+ ext) = false
  ∧ base_stem env dt idx +:+ ext ≠ ""
  ∧ base_stem env dt idx +:+ ext ≠ ".".
Proof using Hext.
  destruct Hext as [Hd Hsl]. destruct Hd as (e & He' & He & _). split_and!.
  - by rewrite contains_app, base_stem_no_slash, Hsl.
  - pose proof (base_stem_nonempty env dt idx). by destruct (base_stem env dt idx).
  - pose proof (base_stem_nonempty env dt idx) as Hb. rewrite He'.
    destruct (base_stem env dt idx) as [|a [|b s]]; [done|..]; simpl; congruence.
Qed.

Lemma truediv_base_name p :
  p // (base_stem env dt idx +:+ ext)
  = mkPath (absolute p) (parts p ++ [base_stem env dt idx +:+ ext]).
Proof using Hext. destruct base_name_plain as (?&?&?). by apply truediv_plain. Qed.

Lemma base_name_suffix : name_suffix (base_stem env dt idx +:+ ext) = ext.
Proof using Hext. apply name_suffix_app; [apply base_stem_nonempty | apply Hext]. Qed.

Lemma base_name_stem : name_stem (base_stem env dt idx +:+ ext) = base_stem env dt idx.
Proof using Hext. apply name_stem_app; [apply base_stem_nonempty | apply Hext]. Qed.
End base_name.

Lemma starts_with_slash_app s t :
  s ≠ "" → starts_with_slash (s +:+ t) = starts_with_slash s.
Proof. by destruct s. Qed.

Lemma format_0d_not_starts_with_slash w n t :
  starts_with_slash (format_0d w n +:+ t) = false.
Proof.
  destruct (format_0d_plain w n) as (H1 & H2 & _).
  rewrite starts_with_slash_app by done. by apply contains_not_starts_with_slash.
Qed.

Lemma truediv_dirs_day env p dt :
  p // strftime env dt "%Y/%m/%d"
  = mkPath (absolute p)
      (parts p ++ [format_0d (year_width env) (year dt); format_0d 2 (month dt); format_0d 2 (day dt)]).
Proof.
  rewrite strftime_day. unfold truediv, segments.
  destruct (format_0d_plain (year_width env) (year dt)) as (Hy1 & Hy2 & Hy3).
  destruct (format_0d_plain 2 (month dt)) as (Hm1 & Hm2 & Hm3).
  destruct (format_0d_plain 2 (day dt)) as (Hd1 & Hd2 & Hd3).
  rewrite format_0d_not_starts_with_slash.
  simpl String.append.
  rewrite !split_slash_sep, split_slash_plain by done.
  unfold String.rev; cbn [String.rev_app]. simpl String.append.
  by rewrite !filter_cons_True by done.
Qed.

Lemma truediv_dirs_month env p dt :
  p // strftime env dt "%Y/%m"
  = mkPath (absolute p) (parts p ++ [format_0d (year_width env) (year dt); format_0d 2 (month dt)]).
Proof.
  rewrite strftime_month. unfold truediv, segments.
  destruct (format_0d_plain (year_width env) (year dt)) as (Hy1 & Hy2 & Hy3).
  destruct (format_0d_plain 2 (month dt)) as (Hm1 & Hm2 & Hm3).
  rewrite format_0d_not_starts_with_slash.
  simpl String.append.
  rewrite !split_slash_sep, split_slash_plain by done.
  unfold String.rev; cbn [String.rev_app]. simpl String.append.
  by rewrite !filter_cons_True by done.
Qed.

Lemma truediv_dirs_year env p dt :
  p // strftime env dt "%Y" = mkPath (absolute p) (parts p ++ [format_0d (year_width env) (year dt)]).
Proof.
  rewrite strftime_year.
  destruct (format_0d_plain (year_width env) (year dt)) as (Hy1 & Hy2 & Hy3). by apply truediv_plain.
Qed.

(** The target path, component by component. *)
Lemma build_target_path_parts env output_dir dt idx subfolders ext :
  plain_ext ext →
  build_target_path env output_dir dt idx subfolders ext
  = mkPath (absolute output_dir)
      (parts output_dir ++ layout_dirs env subfolders dt
       ++ [base_stem env dt idx +:+ ext]).
Proof.
  intros Hext. unfold build_target_path, layout_dirs. rewrite base_name_eq.
  destruct (str_eqb subfolders "none") eqn:E0.
  { apply str_eqb_eq in E0. subst. simpl. by rewrite truediv_base_name. }
  destruct (str_eqb subfolders "day").
  { rewrite truediv_dirs_day, truediv_base_name by done. simpl.
    by rewrite <- app_assoc. }
  destruct (str_eqb subfolders "month").
  { rewrite truediv_dirs_month, truediv_base_name by done. simpl.
    by rewrite <- app_assoc. }
  destruct (str_eqb subfolders "year").
  { rewrite truediv_dirs_year, truediv_base_name by done. simpl.
    by rewrite <- app_assoc. }
  by rewrite truediv_base_name.
Qed.

Lemma build_target_path_name env output_dir dt idx subfolders ext :
  plain_ext ext →
  name (build_target_path env output_dir dt idx subfolders ext)
  = base_stem env dt idx +:+ ext.
Proof.
  intros Hext. rewrite build_target_path_parts by done.
  by rewrite app_assoc, name_snoc.
Qed.

Lemma year_width_le env : (year_width env ≤ 4)%nat.
Proof. unfold year_width. destruct (pads_year env); lia. Qed.

Lemma four_digit_year_text env dt :
  four_digit_year env dt → format_0d (year_width env) (year dt) = format_0d 4 (year dt).
Proof.
  intros [Hpads|Hy].
  - unfold year_width. by rewrite Hpads.
  - apply format_0d_four_digits; [apply year_width_le | done].
Qed.

(** C7.  The target path is the root, then the directories of the layout
    policy (year, month and day for day; year and month for month; the
    year for year; none for none), then the base name
    [{timestamp:%Y-%m-%d_%H-%M-%S}_{sequence:04d}{extension}]; a policy that
    is none of the four gives the flat layout.  The year is written as the
    [%Y] of [strftime] writes it: with four digits from the year 1000 on,
    and before that where the C library fills it with zeros. *)
Theorem build_target_path_layout env output_dir dt idx fmt :
  let ext := OUTPUT_FORMAT_TO_EXT fmt in
  let Y := format_0d (year_width env) (year dt) in
  let m := format_0d 2 (month dt) in
  let d := format_0d 2 (day dt) in
  let base :=
    Y +:+ "-" +:+ m +:+ "-" +:+ d +:+ "_" +:+ format_0d 2 (hour dt) +:+ "-" +:+
    format_0d 2 (minute dt) +:+ "-" +:+ format_0d 2 (second dt) +:+ "_" +:+
    format_0d 4 idx +:+ ext in
  let under dirs := mkPath (absolute output_dir) (parts output_dir ++ dirs ++ [base]) in
  build_target_path env output_dir dt idx "none" ext = under []
  ∧ build_target_path env output_dir dt idx "day" ext = under [Y; m; d]
  ∧ build_target_path env output_dir dt idx "month" ext = under [Y; m]
  ∧ build_target_path env output_dir dt idx "year" ext = under [Y]
  ∧ (∀ subfolders,
       subfolders ∉ ["none"; "day"; "month"; "year"] →
       build_target_path env output_dir dt idx subfolders ext = under [])
  ∧ (pads_year env = true ∨ 1000 ≤ year dt → Y = format_0d 4 (year dt))
  ∧ (pads_year env = false → Y = str_of_int (year dt)).
Proof.
  intros ext Y m d base under.
  assert (base = base_stem env dt idx +:+ ext) as Hbase.
  { unfold base, base_stem, stamp, Y, m, d. by rewrite !str_app_assoc. }
  pose proof (plain_ext_OUTPUT_FORMAT fmt) as Hext. fold ext in Hext.
  unfold under. rewrite Hbase.
  split_and!; try (by rewrite build_target_path_parts by done).
  - intros subfolders Hs. rewrite build_target_path_parts by done.
    unfold layout_dirs.
    assert (∀ t, t ∈ ["none"; "day"; "month"; "year"] → str_eqb subfolders t = false)
      as Hne.
    { intros t Ht. apply str_eqb_neq. by intros ->. }
    rewrite !Hne by set_solver. done.
  - apply four_digit_year_text.
  - intros Hpads. unfold Y, year_width. rewrite Hpads. apply format_0d_1.
Qed.

Lemma build_target_path_layout_witness :
  ("weekly" ∉ ["none"; "day"; "month"; "year"])
  ∧ build_target_path env_birth_zero (mkPath false ["out"])
      (mkDatetime 2024 3 5 10 0 0 0) 1 "weekly" ".jpg"
    = mkPath false ["out"; "2024-03-05_10-00-00_0001.jpg"]
  ∧ build_target_path env_birth_zero (mkPath false ["out"])
      (mkDatetime 999 3 5 10 0 0 0) 12 "month" ".jpg"
    = mkPath false ["out"; "999"; "03"; "999-03-05_10-00-00_0012.jpg"]
  ∧ build_target_path env_padded_year (mkPath false ["out"])
      (mkDatetime 999 3 5 10 0 0 0) 12 "month" ".jpg"
    = mkPath false ["out"; "0999"; "03"; "0999-03-05_10-00-00_0012.jpg"].
Proof.
  assert ("weekly" ∉ ["none"; "day"; "month"; "year"]) as Hout.
  { intros H. repeat (apply elem_of_cons in H as [H|H]; [discriminate|]).
    by apply elem_of_nil in H. }
  split; [exact Hout|].
  pose proof (build_target_path_layout env_birth_zero (mkPath false ["out"])
                (mkDatetime 2024 3 5 10 0 0 0) 1 jpeg) as (_ & _ & _ & _ & Hflat & _).
  split; [exact (Hflat "weekly" Hout)|].
  pose proof (build_target_path_layout env_birth_zero (mkPath false ["out"])
                (mkDatetime 999 3 5 10 0 0 0) 12 jpeg) as (_ & _ & Hplain & _).
  pose proof (build_target_path_layout env_padded_year (mkPath false ["out"])
                (mkDatetime 999 3 5 10 0 0 0) 12 jpeg) as (_ & _ & Hpadded & _).
  split; [exact Hplain | exact Hpadded].
Defined.

(** ** The uniqueness allocator *)

Lemma str_app_inv_tail s t u : s +:+ u = t +:+ u → s = t.
Proof.
  revert t. induction s as [|a s IH]; intros [|b t]; simpl; intros H; try done.
  - apply (f_equal String.length) in H. simpl in H. rewrite str_app_length in H. lia.
  - apply (f_equal String.length) in H. simpl in H. rewrite str_app_length in H. lia.
  - inversion H; subst. f_equal. by apply IH.
Qed.

Lemma pretty_Z_contains (k : Z) c :
  is_digit c = false → c ≠ "-"%char → contains c (pretty k) = false.
Proof.
  intros Hc Hm. destruct k as [|p|p]; unfold pretty, pretty_Z.
  - by eapply (str_forall_contains is_digit).
  - eapply str_forall_contains; [apply (pretty_N_digits (N.pos p)) | done].
  - cbn [String.append contains]. apply orb_false_intro; [by apply char_eqb_neq|].
    eapply str_forall_contains; [apply (pretty_N_digits (N.pos p)) | done].
Qed.

Lemma str_of_int_contains k c :
  is_digit c = false → c ≠ "-"%char → contains c (str_of_int k) = false.
Proof. apply pretty_Z_contains. Qed.

Lemma candidate_name_inj stem ext j k :
  candidate_name stem ext j = candidate_name stem ext k → j = k.
Proof.
  unfold candidate_name. intros H. apply (inj (String.append stem)) in H.
  simpl in H. inversion H as [H']. apply str_app_inv_tail in H'.
  by apply (inj pretty) in H'.
Qed.

Lemma sibling_inj p n m : sibling p n = sibling p m → n = m.
Proof. unfold sibling. intros [= H]. by apply app_inj_tail in H as [_ ?]. Qed.

Lemma candidate_name_valid stem ext k :
  contains "/" stem = false → contains "/" ext = false →
  valid_name (candidate_name stem ext k) = true.
Proof.
  intros Hs He. unfold valid_name, candidate_name.
  assert (contains "_" (stem +:+ "__" +:+ str_of_int k +:+ ext) = true) as Hu.
  { rewrite contains_app. cbn [String.append contains]. by rewrite orb_true_r. }
  repeat (apply andb_true_intro; split); apply negb_true_iff.
  - apply str_eqb_neq. intros H. by rewrite H in Hu.
  - rewrite contains_app, Hs. cbn [String.append contains].
    by rewrite contains_app, str_of_int_contains, He.
  - apply str_eqb_neq. intros H. by rewrite H in Hu.
Qed.

Section ensure_unique_loop.
Variables (fs : FileStore) (path : Path) (stem ext : string).
Hypothesis Hname : name path ≠ "".
Hypothesis Hvalid : ∀ k, valid_name (candidate_name stem ext k) = true.

Let cand (k : Z) : Path := sibling path (candidate_name stem ext k).

(** The loop stops at the first counter whose candidate does not exist.
    [X] are candidates already seen to exist. *)
Lemma ensure_unique_loop_spec steps c (X : gset Path) :
  X ⊆ fs → (∀ j, c ≤ j → cand j ∉ X) → (size fs - size X < steps)%nat →
  ∃ k, c ≤ k
       ∧ ensure_unique_loop steps fs path stem ext c = Returned (cand k)
       ∧ (cand k ∉ fs)
       ∧ ∀ j, c ≤ j < k → cand j ∈ fs.
Proof using Hname Hvalid.
  revert c X. induction steps as [|steps IH]; intros c X HX Hfresh Hsize; [lia|].
  cbn [ensure_unique_loop]. rewrite with_name_valid by done. cbn.
  destruct (path_exists fs (cand c)) eqn:E; fold (cand c) in E |- *; rewrite E.
  - apply path_exists_true in E.
    destruct (IH (c + 1) ({[cand c]} ∪ X)) as (k & Hk & Hrun & Hfree & Hbelow).
    + apply union_subseteq; split; [by apply singleton_subseteq_l | done].
    + intros j Hj [Heq%elem_of_singleton|Hin]%elem_of_union.
      * apply sibling_inj, candidate_name_inj in Heq. lia.
      * apply (Hfresh j); [lia | done].
    + assert (size ({[cand c]} ∪ X) = S (size X)) as Hs.
      { rewrite size_union, size_singleton; [done|].
        apply disjoint_singleton_l, Hfresh. lia. }
      assert (size ({[cand c]} ∪ X) ≤ size fs)%nat.
      { apply subseteq_size, union_subseteq.
        split; [by apply singleton_subseteq_l | done]. }
      lia.
    + exists k. split_and!; [lia | done | done |].
      intros j Hj. destruct (decide (j = c)) as [->|Hne]; [done|].
      apply Hbelow. lia.
  - apply path_exists_false in E. exists c. split_and!; [lia | done | done |].
    intros j Hj. lia.
Qed.
End ensure_unique_loop.

(** Whatever the loop returns is a candidate that does not exist. *)
Lemma ensure_unique_loop_returned steps fs path stem ext c r :
  ensure_unique_loop steps fs path stem ext c = Returned r →
  ∃ k, c ≤ k ∧ r = sibling path (candidate_name stem ext k) ∧ r ∉ fs.
Proof.
  revert c. induction steps as [|steps IH]; intros c; cbn [ensure_unique_loop]; [done|].
  destruct (with_name path (candidate_name stem ext c)) as [q| |] eqn:Hw; cbn; try done.
  apply with_name_returned in Hw as (_ & _ & ->).
  destruct (path_exists fs _) eqn:E; cbn.
  - intros (k & Hk & Hr & Hf)%IH. exists k. split_and!; [lia | done | done].
  - intros [= <-]. apply path_exists_false in E. exists c. split_and!; [lia | done | done].
Qed.

Lemma ensure_unique_returned fs p r :
  ensure_unique fs p = Returned r →
  (r = p ∧ (p ∉ fs))
  ∨ (p ∈ fs ∧ (r ∉ fs)
     ∧ ∃ k, 1 ≤ k ∧ r = sibling p (candidate_name (stem p) (suffix p) k)).
Proof.
  unfold ensure_unique. destruct (path_exists fs p) eqn:E; cbn [negb].
  - apply path_exists_true in E.
    intros (k & Hk & Hr & Hf)%ensure_unique_loop_returned. right. eauto.
  - apply path_exists_false in E. intros [= <-]. by left.
Qed.

Lemma ensure_unique_spec fs p :
  name p ≠ "" →
  (∀ k, valid_name (candidate_name (stem p) (suffix p) k) = true) →
  let cand k := sibling p (candidate_name (stem p) (suffix p) k) in
  ((p ∉ fs) ∧ ensure_unique fs p = Returned p)
  ∨ (p ∈ fs ∧ ∃ k, 1 ≤ k ∧ ensure_unique fs p = Returned (cand k)
                  ∧ (cand k ∉ fs) ∧ ∀ j, 1 ≤ j < k → cand j ∈ fs).
Proof.
  intros Hname Hvalid cand. unfold ensure_unique.
  destruct (path_exists fs p) eqn:E; cbn [negb].
  - apply path_exists_true in E. right. split; [done|].
    apply (ensure_unique_loop_spec fs p (stem p) (suffix p) Hname Hvalid _ 1 ∅).
    + set_solver.
    + set_solver.
    + rewrite size_empty. lia.
  - apply path_exists_false in E. by left.
Qed.

Lemma target_stem_suffix env output_dir dt idx subfolders ext :
  plain_ext ext →
  let path := build_target_path env output_dir dt idx subfolders ext in
  name path ≠ "" ∧ stem path = base_stem env dt idx ∧ suffix path = ext.
Proof.
  intros Hext path. unfold stem, suffix, path.
  rewrite build_target_path_name by done.
  rewrite base_name_suffix, base_name_stem by done.
  destruct (base_name_plain env dt idx ext Hext) as (_ & ? & _). done.
Qed.


Lemma target_candidate_valid env output_dir dt idx subfolders ext k :
  plain_ext ext →
  let path := build_target_path env output_dir dt idx subfolders ext in
  valid_name (candidate_name (stem path) (suffix path) k) = true.
Proof.
  intros Hext path. subst path.
  destruct (target_stem_suffix env output_dir dt idx subfolders ext Hext) as (_ & -> & ->).
  apply candidate_name_valid; [apply base_stem_no_slash | apply Hext].
Qed.



(** ** The allocator rewrites the stem only *)

Lemma rfind_split c s :
  0 ≤ rfind c s →
  ∃ t, s = str_take (Z.to_nat (rfind c s)) s +:+ String c t ∧ contains c t = false
       ∧ str_drop (Z.to_nat (rfind c s)) s = String c t.
Proof.
  induction s as [|a s IH]; cbn [rfind]; [lia|].
  destruct (0 <=? rfind c s) eqn:E.
  - apply Z.leb_le in E. intros _. destruct (IH E) as (t & Hs & Ht & Hd).
    exists t. replace (Z.to_nat (rfind c s + 1)) with (S (Z.to_nat (rfind c s))) by lia.
    cbn [str_take str_drop String.append]. by rewrite <- Hs.
  - apply Z.leb_gt in E. destruct (char_eqb a c) eqn:Ea; [|lia].
    apply char_eqb_eq in Ea. subst a. intros _. exists s. split_and!; [done| |done].
    destruct (contains c s) eqn:Hc; [|done]. apply rfind_some in Hc. lia.
Qed.

Lemma rfind_last c s :
  s ≠ "" → rfind c s = Z.of_nat (String.length s) - 1 → ends_with c s = true.
Proof.
  induction s as [|a s IH]; [done|]. intros _. cbn [rfind String.length ends_with].
  destruct s as [|b s]; [cbn; by destruct (char_eqb a c)|].
  pose proof (rfind_upper c (String b s)) as Hup.
  destruct (0 <=? rfind c (String b s)) eqn:E.
  - intros Heq. apply IH; [done|]. cbn [String.length] in *. lia.
  - apply Z.leb_gt in E. cbn [String.length]. destruct (char_eqb a c); lia.
Qed.

Lemma str_take_length n s :
  (n ≤ String.length s)%nat → String.length (str_take n s) = n.
Proof.
  revert s. induction n as [|n IH]; intros [|a s]; cbn [str_take String.length];
    try done; try lia.
  intros H. rewrite IH; lia.
Qed.

Lemma splits_at_dot_ext nm :
  splits_at_dot nm = true →
  name_stem nm ≠ "" ∧ dot_ext (name_suffix nm) ∧ nm = name_stem nm +:+ name_suffix nm.
Proof.
  intros Hsp. unfold name_stem, name_suffix. rewrite Hsp.
  unfold splits_at_dot in Hsp. apply andb_prop in Hsp as [H1%Z.ltb_lt H2%Z.ltb_lt].
  destruct (rfind_split "." nm) as (t & Hnm & Ht & Hd); [lia|].
  rewrite Hd. split_and!.
  - destruct nm; [done|]. destruct (Z.to_nat (rfind "." _)) eqn:En; [lia | done].
  - exists t. split_and!; [done | | done]. intros ->.
    apply (f_equal String.length) in Hnm. rewrite str_app_length in Hnm.
    rewrite str_take_length in Hnm by lia.
    cbn [String.length] in Hnm. lia.
  - done.
Qed.

(** The suffix and the stem of the name the allocator builds. *)
Lemma candidate_name_suffix_stem nm k :
  ends_with "." nm = false →
  let cand := candidate_name (name_stem nm) (name_suffix nm) k in
  name_suffix cand = name_suffix nm
  ∧ name_stem cand = name_stem nm +:+ "__" +:+ str_of_int k.
Proof.
  intros Hend cand. unfold cand, candidate_name.
  destruct (splits_at_dot nm) eqn:Hsp.
  - destruct (splits_at_dot_ext nm Hsp) as (Hst & Hext & _).
    replace (name_stem nm +:+ "__" +:+ str_of_int k +:+ name_suffix nm)
      with ((name_stem nm +:+ "__" +:+ str_of_int k) +:+ name_suffix nm)
      by (by rewrite !str_app_assoc).
    assert (name_stem nm +:+ "__" +:+ str_of_int k ≠ "") by (by destruct (name_stem nm)).
    by rewrite name_suffix_app, name_stem_app.
  - assert (name_stem nm = nm) as -> by (unfold name_stem; by rewrite Hsp).
    assert (name_suffix nm = "") as -> by (unfold name_suffix; by rewrite Hsp).
    rewrite str_app_nil_r.
    assert (splits_at_dot (nm +:+ "__" +:+ str_of_int k) = false) as Hsp'.
    { unfold splits_at_dot in *. rewrite rfind_app_l.
      2:{ cbn [String.append contains]. by rewrite str_of_int_contains. }
      rewrite str_app_length.
      apply andb_false_iff in Hsp as [H|H]; [by rewrite H|].
      destruct (0 <? rfind "." nm) eqn:E; [|done]. apply Z.ltb_lt in E.
      apply Z.ltb_ge in H. pose proof (rfind_upper "." nm).
      rewrite rfind_last in Hend; [done | by destruct nm | lia]. }
    unfold name_suffix, name_stem. by rewrite Hsp'.
Qed.

(** C10, as amended.  For a path whose name does not end in a dot, the path
    the allocator returns has the same parent directory and the same
    extension, and its stem is the stem of the input, as it is or followed
    by [__N].  *)
Theorem ensure_unique_rewrites_stem_only (fs : FileStore) p r :
  ends_with "." (name p) = false →
  ensure_unique fs p = Returned r →
  parent r = parent p
  ∧ suffix r = suffix p
  ∧ (stem r = stem p ∨ ∃ n, 1 ≤ n ∧ stem r = stem p +:+ "__" +:+ str_of_int n).
Proof.
  intros Hend [[-> _]|(_ & _ & k & Hk & ->)]%ensure_unique_returned.
  - split_and!; [done | done | by left].
  - destruct (candidate_name_suffix_stem (name p) k Hend) as [Hsuf Hstem].
    unfold suffix, stem. rewrite name_sibling, parent_sibling.
    split_and!; [done | done |]. right. by exists k.
Qed.

Lemma ensure_unique_rewrites_stem_only_witness :
  let p := mkPath false ["out"; "a.jpg"] in
  let r := mkPath false ["out"; "a__1.jpg"] in
  ends_with "." (name p) = false
  ∧ ensure_unique {[ p ]} p = Returned r
  ∧ parent r = parent p
  ∧ suffix r = suffix p.
Proof.
  intros p r.
  assert (ends_with "." (name p) = false) as Hend by reflexivity.
  assert (ensure_unique {[ p ]} p = Returned r) as Hrun by (vm_compute; reflexivity).
  destruct (ensure_unique_rewrites_stem_only {[ p ]} p r Hend Hrun) as (Hp & Hs & _).
  split_and!; [exact Hend | exact Hrun | exact Hp | exact Hs].
Defined.

(** C10, as the claim has it, fails for a name that ends in a dot: the
    suffix of [foo.] is empty, the path returned for it is [foo.__1], and
    the suffix of that is [.__1]. *)
Lemma ensure_unique_changes_suffix_of_dotted_name :
  ¬ (∀ (fs : FileStore) p r,
       ensure_unique fs p = Returned r →
       parent r = parent p
       ∧ suffix r = suffix p
       ∧ (stem r = stem p ∨ ∃ n, 1 ≤ n ∧ stem r = stem p +:+ "__" +:+ str_of_int n)).
Proof.
  intros H.
  destruct (H {[ mkPath false ["foo."] ]} (mkPath false ["foo."])
              (mkPath false ["foo.__1"])) as (_ & Hs & _).
  - vm_compute. reflexivity.
  - vm_compute in Hs. discriminate Hs.
Qed.

(** ** The loop of the allocator finishes *)

Lemma candidate_name_valid_any stem ext j k :
  valid_name (candidate_name stem ext j) = valid_name (candidate_name stem ext k).
Proof.
  assert (∀ i, valid_name (candidate_name stem ext i)
               = negb (contains "/" stem) && negb (contains "/" ext)) as H.
  { intros i. destruct (contains "/" stem) eqn:Hs, (contains "/" ext) eqn:He; cbn.
    - unfold valid_name, candidate_name. rewrite contains_app, Hs. cbn.
      by rewrite andb_false_r.
    - unfold valid_name, candidate_name. rewrite contains_app, Hs. cbn.
      by rewrite andb_false_r.
    - unfold valid_name, candidate_name. rewrite contains_app, Hs.
      cbn [String.append contains]. rewrite contains_app, He, orb_true_r. cbn.
      by rewrite andb_false_r.
    - by apply candidate_name_valid. }
  by rewrite !H.
Qed.

(** [ensure_unique] returns or raises: the rounds it is given are enough. *)
Lemma ensure_unique_finishes (fs : FileStore) p : ensure_unique fs p ≠ Unfinished.
Proof.
  destruct (decide (name p = "")) as [Hname|Hname].
  { unfold ensure_unique. destruct (path_exists fs p); cbn [negb]; [|done].
    cbn [ensure_unique_loop]. unfold with_name.
    apply str_eqb_eq in Hname. by rewrite Hname. }
  destruct (valid_name (candidate_name (stem p) (suffix p) 1)) eqn:Hvalid.
  - destruct (ensure_unique_spec fs p Hname) as [[_ ->]|[_ (k & _ & -> & _)]]; try done.
    intros k. by rewrite (candidate_name_valid_any _ _ k 1).
  - unfold ensure_unique. destruct (path_exists fs p); cbn [negb]; [|done].
    cbn [ensure_unique_loop]. unfold with_name.
    apply str_eqb_neq in Hname. by rewrite Hname, Hvalid.
Qed.

(** ** The capture-time resolver *)

Lemma int_digits_finishes acc s : int_digits acc s ≠ Unfinished.
Proof.
  revert acc. induction s as [|c s IH]; intros acc; cbn [int_digits]; [done|].
  destruct (is_digit c); [apply IH | done].
Qed.

Lemma group_int_finishes m g : group_int m g ≠ Unfinished.
Proof.
  unfold group_int, int_of_str. destruct (group m g) as [[|c s]|]; try done.
  apply int_digits_finishes.
Qed.

Lemma datetime_new_finishes y mo d h mi s : datetime_new y mo d h mi s ≠ Unfinished.
Proof. unfold datetime_new. by destruct (valid_fields _ _ _ _ _ _ _). Qed.

Lemma datetime_new_valid y mo d h mi s dt :
  datetime_new y mo d h mi s = Returned dt → valid_datetime dt.
Proof.
  unfold datetime_new. destruct (valid_fields y mo d h mi s 0) eqn:E; [|done].
  by intros [= <-].
Qed.

Lemma bind_finishes {A B} (m : outcome A) (k : A → outcome B) :
  m ≠ Unfinished → (∀ a, k a ≠ Unfinished) → m ≫= k ≠ Unfinished.
Proof. destruct m; cbn; auto. Qed.

Lemma datetime_of_match_finishes m : datetime_of_match m ≠ Unfinished.
Proof.
  unfold datetime_of_match.
  repeat (apply bind_finishes; [apply group_int_finishes | intros ?]).
  apply datetime_new_finishes.
Qed.

Lemma datetime_of_match_valid m dt :
  datetime_of_match m = Returned dt → valid_datetime dt.
Proof.
  unfold datetime_of_match.
  repeat (match goal with
          | |- context [group_int m ?g] => destruct (group_int m g); cbn; try done
          end).
  apply datetime_new_valid.
Qed.

(** What the loop over the patterns does at a pattern: a match with
    calendar values gives the result, a match without is dropped and the
    loop goes on, as it does without a match. *)
Lemma try_parse_from_name_in_cons pattern rest nm :
  try_parse_from_name_in (pattern :: rest) nm
  = match re_search pattern nm with
    | Some m =>
        match datetime_of_match m with
        | Returned dt => Returned (Some dt)
        | _ => try_parse_from_name_in rest nm
        end
    | None => try_parse_from_name_in rest nm
    end.
Proof.
  cbn [try_parse_from_name_in]. destruct (re_search pattern nm) as [m|]; [|done].
  pose proof (datetime_of_match_finishes m).
  by destruct (datetime_of_match m).
Qed.

Lemma try_parse_from_name_eq nm :
  try_parse_from_name nm = Returned (name_timestamp nm).
Proof.
  unfold try_parse_from_name, DATETIME_NAME_PATTERNS, name_timestamp.
  rewrite try_parse_from_name_in_cons. cbn [try_parse_from_name_in].
  destruct (re_search name_pattern nm) as [m|]; [|done].
  by destruct (datetime_of_match m).
Qed.

Lemma get_exif_datetime_eq env img :
  get_exif_datetime env img
  = Returned (match getexif img with
              | inr items => first_exif_datetime env items EXIF_KEYS
              | inl _ => None
              end).
Proof.
  unfold get_exif_datetime. destruct (getexif img) as [e|[|item items]]; done.
Qed.

Lemma exif_step_eq env path :
  exif_step env path
  = Returned (first_exif_datetime env (exif_items env path) EXIF_KEYS).
Proof.
  unfold exif_step, exif_items. destruct (Image_open env path) as [e|img]; cbn; [done|].
  rewrite get_exif_datetime_eq. by destruct (getexif img).
Qed.

Lemma get_file_times_eq env path : get_file_times env path = file_time env path.
Proof.
  unfold get_file_times, file_time, birth_or_mtime, float_truth.
  destruct (path_stat env path) as [e|st]; cbn [call mbind outcome_bind]; [done|].
  destruct (st_birthtime st) as [b|]; [|done].
  by destruct (PrimFloat.eqb b 0).
Qed.

(** The resolver is the fallback chain. *)
Lemma determine_capture_datetime_chain env path :
  determine_capture_datetime env path
  = resolve_by_priority env path (file_time env path).
Proof.
  unfold determine_capture_datetime, resolve_by_priority, metadata_timestamps,
    exif_timestamp.
  rewrite exif_step_eq. cbn [mbind outcome_bind EXIF_KEYS first_exif_datetime first_of].
  destruct (parse_exif_value env (exif_get env (exif_items env path) "DateTimeOriginal"));
    [done|].
  destruct (parse_exif_value env (exif_get env (exif_items env path) "DateTime"));
    [done|].
  destruct (parse_exif_value env (exif_get env (exif_items env path) "DateTimeDigitized"));
    [done|].
  rewrite try_parse_from_name_eq. cbn [mbind outcome_bind].
  destruct (name_timestamp (name path)); [done|].
  apply get_file_times_eq.
Qed.

Lemma first_of_returned sources fallback :
  (∃ dt, Some dt ∈ sources) → ∃ dt, first_of sources fallback = Returned dt.
Proof.
  intros (dt & Hin). induction sources as [|[d|] sources IH]; cbn [first_of].
  - by apply elem_of_nil in Hin.
  - eauto.
  - apply IH. by apply elem_of_cons in Hin as [?|?].
Qed.

Lemma first_of_raised sources fallback e :
  first_of sources fallback = Raised e ↔
  (∀ dt, Some dt ∉ sources) ∧ fallback = Raised e.
Proof.
  induction sources as [|[d|] sources IH]; cbn [first_of].
  - split; [intros ->; split; [intros dt Hin; by apply elem_of_nil in Hin | done]|].
    by intros [_ ->].
  - split; [done|]. intros [Hno _]. destruct (Hno d). by left.
  - rewrite IH. split; intros [Hno Hf]; (split; [|done]); intros dt Hin.
    + apply elem_of_cons in Hin as [?|?]; [done|]. by apply (Hno dt).
    + apply (Hno dt). by right.
Qed.




(** When the resolver raises, it is the file-system step that raises. *)
Lemma determine_capture_datetime_raised env path e :
  determine_capture_datetime env path = Raised e → get_file_times env path = Raised e.
Proof.
  rewrite determine_capture_datetime_chain, get_file_times_eq.
  unfold resolve_by_priority. by intros [_ ?]%first_of_raised.
Qed.

(** The timestamp [main] has for a file is what the resolver returns. *)
Lemma determine_capture_datetime_resolved env path :
  resolves env path →
  determine_capture_datetime env path = Returned (resolved env path).
Proof. intros [dt Hdt]. unfold resolved. by rewrite Hdt. Qed.

Lemma resolved_eq env path dt :
  determine_capture_datetime env path = Returned dt → resolved env path = dt.
Proof. intros Hdt. unfold resolved. by rewrite Hdt. Qed.

(** C4, as amended.  The resolver takes the first of the EXIF tags
    DateTimeOriginal, DateTime, DateTimeDigitized that has a value that
    parses, else the date and time in the file name, else the file-system
    time: the creation time of the file when there is one other than zero,
    else its modification time.  It returns a timestamp whenever EXIF or
    the file name gives one.  It raises to the caller exactly when they
    give none and the file-system step raises: [stat] does, or
    [fromtimestamp] does for the time taken. *)
Theorem determine_capture_datetime_priority env path :
  let sources :=
    [exif_timestamp env path "DateTimeOriginal";
     exif_timestamp env path "DateTime";
     exif_timestamp env path "DateTimeDigitized";
     name_timestamp (name path)] in
  determine_capture_datetime env path = first_of sources (get_file_times env path)
  ∧ ((∃ dt, Some dt ∈ sources) →
     ∃ dt, determine_capture_datetime env path = Returned dt)
  ∧ (∀ e, determine_capture_datetime env path = Raised e ↔
          (∀ dt, Some dt ∉ sources)
          ∧ (path_stat env path = inl e
             ∨ ∃ stat, path_stat env path = inr stat
                       ∧ fromtimestamp env (birth_or_mtime stat) = inl e))
  ∧ (∀ stat dt,
       (∀ dt', Some dt' ∉ sources) → path_stat env path = inr stat →
       fromtimestamp env (birth_or_mtime stat) = inr dt →
       determine_capture_datetime env path = Returned dt)
  ∧ (∀ stat,
       birth_or_mtime stat
       = match st_birthtime stat with
         | Some b => if PrimFloat.eqb b 0 then st_mtime stat else b
         | None => st_mtime stat
         end).
Proof.
  intros sources.
  assert (determine_capture_datetime env path
          = first_of sources (get_file_times env path)) as Hchain
    by (rewrite get_file_times_eq; apply determine_capture_datetime_chain).
  assert (∀ stat,
            birth_or_mtime stat
            = match st_birthtime stat with
              | Some b => if PrimFloat.eqb b 0 then st_mtime stat else b
              | None => st_mtime stat
              end) as Hbirth.
  { intros stat. unfold birth_or_mtime, float_truth.
    destruct (st_birthtime stat) as [b|]; [|done]. by destruct (PrimFloat.eqb b 0). }
  assert (∀ stat, path_stat env path = inr stat →
                  get_file_times env path
                  = call (fromtimestamp env (birth_or_mtime stat))) as Hfile.
  { intros stat Hstat. unfold get_file_times. by rewrite Hstat. }
  split_and!; [done| | | |done].
  - rewrite Hchain. apply first_of_returned.
  - intros e. rewrite Hchain, first_of_raised. split; intros [Hno Hraise]; (split; [done|]).
    + destruct (path_stat env path) as [e'|stat] eqn:Hstat.
      * left. unfold get_file_times in Hraise. rewrite Hstat in Hraise. cbn in Hraise.
        congruence.
      * right. exists stat. split; [done|]. rewrite (Hfile stat) in Hraise by done.
        destruct (fromtimestamp env (birth_or_mtime stat)); cbn in Hraise; congruence.
    + destruct Hraise as [Hstat|(stat & Hstat & Hts)].
      * unfold get_file_times. by rewrite Hstat.
      * rewrite (Hfile stat) by done. by rewrite Hts.
  - intros stat dt Hno Hstat Hts. rewrite Hchain.
    assert (first_of sources (get_file_times env path) = get_file_times env path) as ->.
    { clear Hchain. generalize (get_file_times env path). intros fallback.
      induction sources as [|[d|] l IH]; cbn [first_of]; [done| |].
      - destruct (Hno d). by left.
      - apply IH. intros dt' Hin. apply (Hno dt'). by right. }
    rewrite (Hfile stat) by done. by rewrite Hts.
Qed.

(** C4, as the claim has it, fails for a file without EXIF and without a
    date in its name whose modification time is beyond the year 9999:
    [fromtimestamp] raises [ValueError], outside every [try], and the
    resolver raises it to the caller. *)
Lemma determine_capture_datetime_raises :
  ¬ (∀ env path, ∃ dt, determine_capture_datetime env path = Returned dt).
Proof.
  intros H.
  destruct (H env_mtime_out_of_range (mkPath false ["holiday.jpg"])) as [dt Hdt].
  vm_compute in Hdt. discriminate Hdt.
Qed.

Example ex_resolver_raises :
  determine_capture_datetime env_mtime_out_of_range (mkPath false ["holiday.jpg"])
  = Raised ValueError.
Proof. vm_compute. reflexivity. Qed.

(** A creation time that is there and reads zero counts as none:
    [birth_ts or stat.st_mtime] then takes the modification time. *)
Lemma determine_capture_datetime_birth_zero :
  ¬ (∀ env path,
       determine_capture_datetime env path
       = resolve_by_priority env path (file_time_when_available env path)).
Proof.
  intros H. specialize (H env_birth_zero (mkPath false ["holiday.jpg"])).
  vm_compute in H. discriminate H.
Qed.

(** A value no format parses is skipped. *)
Lemma parse_exif_value_malformed env v :
  (∀ s fmt, strptime env s fmt = inl ValueError) → parse_exif_value env v = None.
Proof.
  intros Hbad. unfold parse_exif_value.
  destruct v as [[s|s|]|]; cbn [strptime_relaxed]; rewrite ?Hbad; done.
Qed.

(** C5.  The file-name extractor raises nothing; what it returns is a
    calendar date; and a match whose values make no calendar date (a day
    of 00, the 30th of February) is dropped: the extractor returns [None],
    and the resolver goes on to the file-system time. *)
Theorem try_parse_from_name_rejects_invalid nm :
  (∃ r, try_parse_from_name nm = Returned r)
  ∧ (∀ dt, try_parse_from_name nm = Returned (Some dt) → valid_datetime dt)
  ∧ (∀ m, re_search name_pattern nm = Some m →
          (∀ dt, datetime_of_match m ≠ Returned dt) →
          try_parse_from_name nm = Returned None
          ∧ ∀ env path,
              name path = nm → exif_step env path = Returned None →
              determine_capture_datetime env path = get_file_times env path).
Proof.
  rewrite try_parse_from_name_eq. split_and!.
  - eauto.
  - intros dt [= Hdt]. unfold name_timestamp in Hdt.
    destruct (re_search name_pattern nm) as [m|]; [|done].
    destruct (datetime_of_match m) as [dt'| |] eqn:Hm; try done.
    injection Hdt as ->. by apply datetime_of_match_valid in Hm.
  - intros m Hm Hbad.
    assert (name_timestamp nm = None) as Hnone.
    { unfold name_timestamp. rewrite Hm.
      destruct (datetime_of_match m) as [dt| |] eqn:E; [by destruct (Hbad dt)|done..]. }
    split; [by rewrite Hnone|].
    intros env path <- Hexif. unfold determine_capture_datetime.
    rewrite Hexif, try_parse_from_name_eq, Hnone. done.
Qed.

Lemma try_parse_from_name_rejects_invalid_witness :
  let nm := "IMG_20210230_153045.jpg" in
  let m := [("s", "45"); ("min", "30"); ("h", "15"); ("d", "30"); ("m", "02"); ("y", "2021")] in
  re_search name_pattern nm = Some m
  ∧ (∀ dt, datetime_of_match m ≠ Returned dt)
  ∧ try_parse_from_name nm = Returned None.
Proof.
  intros nm m.
  assert (re_search name_pattern nm = Some m) as Hm by (vm_compute; reflexivity).
  assert (∀ dt, datetime_of_match m ≠ Returned dt) as Hbad.
  { intros dt. vm_compute. discriminate. }
  destruct (try_parse_from_name_rejects_invalid nm) as (_ & _ & Hrej).
  destruct (Hrej m Hm Hbad) as [Hnone _].
  split_and!; [exact Hm | exact Hbad | exact Hnone].
Defined.

Example ex_name_day_00 : try_parse_from_name "IMG_20210200_153045.jpg" = Returned None.
Proof. vm_compute. reflexivity. Qed.

Example ex_name_feb_30 : try_parse_from_name "2021-02-30 15.30.45.png" = Returned None.
Proof. vm_compute. reflexivity. Qed.

Example ex_name_leap_day :
  try_parse_from_name "20240229_000000.heic" = Returned (Some (mkDatetime 2024 2 29 0 0 0 0)).
Proof. vm_compute. reflexivity. Qed.

(** ** The first loop *)

(** The [except] around the resolver calls the file-system step again,
    which raises again: the item is made of what the resolver returns. *)
Lemma collect_item_eq env opts path :
  collect_item env opts path
  = (dt ← determine_capture_datetime env path;
     Returned (mkPlanItem path Path_empty dt (negb (copies_unchanged opts path)))).
Proof.
  unfold collect_item, copies_unchanged.
  destruct (determine_capture_datetime env path) as [dt|e|] eqn:Hdt;
    cbn [try_except mbind outcome_bind]; [|by rewrite (determine_capture_datetime_raised _ _ _ Hdt)|done].
  by destruct (copy_unchanged opts && _).
Qed.

Lemma collect_item_resolved env opts path :
  resolves env path → collect_item env opts path = Returned (item_of env opts path).
Proof.
  intros [dt Hdt]. rewrite collect_item_eq, Hdt. cbn [mbind outcome_bind].
  unfold item_of. by rewrite (resolved_eq _ _ _ Hdt).
Qed.

Lemma collect_item_returned env opts path item :
  collect_item env opts path = Returned item →
  resolves env path ∧ item = item_of env opts path.
Proof.
  rewrite collect_item_eq.
  destruct (determine_capture_datetime env path) as [dt| |] eqn:Hdt; try done.
  cbn [mbind outcome_bind]. intros [= <-]. split; [by exists dt|].
  unfold item_of. by rewrite (resolved_eq _ _ _ Hdt).
Qed.

(** The first loop returns when the resolver returns for every file. *)
Lemma collect_eq env opts input_files :
  Forall (resolves env) input_files →
  collect env opts input_files = Returned (item_of env opts <$> input_files).
Proof.
  induction 1 as [|path rest Hpath _ IH]; cbn [collect]; [done|].
  by rewrite collect_item_resolved, IH.
Qed.

Lemma collect_returned env opts input_files items :
  collect env opts input_files = Returned items →
  Forall (resolves env) input_files ∧ items = item_of env opts <$> input_files.
Proof.
  revert items. induction input_files as [|path rest IH]; intros items; cbn [collect].
  - intros [= <-]. by split.
  - destruct (collect_item env opts path) as [item| |] eqn:Hitem; try done.
    cbn [mbind outcome_bind].
    destruct (collect env opts rest) as [items'| |]; try done.
    cbn [mbind outcome_bind]. intros [= <-].
    apply collect_item_returned in Hitem as [Hres ->].
    destruct (IH items' eq_refl) as [Hrest ->]. split; [by constructor | done].
Qed.

(** The first loop raises what the resolver raises for the first file it
    raises on. *)
Lemma collect_raised env opts done_files path rest e :
  Forall (resolves env) done_files →
  determine_capture_datetime env path = Raised e →
  collect env opts (done_files ++ path :: rest) = Raised e.
Proof.
  intros Hdone Hpath. induction Hdone as [|p l Hp _ IH]; cbn [collect app].
  - by rewrite collect_item_eq, Hpath.
  - by rewrite collect_item_resolved, IH.
Qed.

(** ** The sort *)

Lemma sort_insert_perm x l : sort_insert x l ≡ₚ x :: l.
Proof.
  induction l as [|y l IH]; cbn [sort_insert]; [done|].
  destruct (key_ltb _ _); [|done]. rewrite IH. apply Permutation_swap.
Qed.

Lemma plan_sort_perm l : plan_sort l ≡ₚ l.
Proof.
  induction l as [|x l IH]; cbn [plan_sort]; [done|].
  by rewrite sort_insert_perm, IH.
Qed.

Lemma sort_insert_HdRel z x l :
  item_le z x → HdRel item_le z l → HdRel item_le z (sort_insert x l).
Proof.
  intros Hzx Hzl. destruct l as [|y l]; cbn [sort_insert]; [by constructor|].
  inversion Hzl; subst. destruct (key_ltb _ _); by constructor.
Qed.

Lemma sort_insert_sorted x l :
  Sorted item_le l → Sorted item_le (sort_insert x l).
Proof.
  induction 1 as [|y l Hl IH Hy]; cbn [sort_insert].
  { apply Sorted_cons; constructor. }
  destruct (key_ltb (sort_key y) (sort_key x)) eqn:E.
  - constructor; [done|]. apply sort_insert_HdRel; [|done].
    by apply key_ltb_true.
  - apply Sorted_cons; [by apply Sorted_cons|].
    apply HdRel_cons. by apply key_ltb_false.
Qed.

Lemma plan_sort_sorted l : StronglySorted item_le (plan_sort l).
Proof.
  apply Sorted_StronglySorted; [apply _|].
  induction l as [|x l IH]; cbn [plan_sort]; [constructor|].
  by apply sort_insert_sorted.
Qed.

Lemma key_ltb_irrefl k : key_ltb k k = false.
Proof.
  unfold key_ltb, dt_eqb. rewrite bool_decide_eq_true_2 by done.
  rewrite str_ltb_leb. by destruct (String.leb_total k.2 k.2) as [->| ->].
Qed.

(** The sort is stable: the items of one key stay in the order they had. *)
Lemma sort_insert_stable k x l :
  filter (λ y, sort_key y = k) (sort_insert x l)
  = filter (λ y, sort_key y = k) (x :: l).
Proof.
  induction l as [|y l IH]; cbn [sort_insert]; [done|].
  destruct (key_ltb (sort_key y) (sort_key x)) eqn:E; [|done].
  rewrite filter_cons, IH, !filter_cons.
  destruct (decide (sort_key y = k)) as [Hy|Hy], (decide (sort_key x = k)) as [Hx|Hx];
    try done.
  rewrite Hx, Hy, key_ltb_irrefl in E. done.
Qed.

Lemma plan_sort_stable k l :
  filter (λ y, sort_key y = k) (plan_sort l) = filter (λ y, sort_key y = k) l.
Proof.
  induction l as [|x l IH]; cbn [plan_sort]; [done|].
  by rewrite sort_insert_stable, !filter_cons, IH.
Qed.

(** In a sorted plan an earlier item is not after a later one. *)
Lemma sorted_lookup_le (l : list PlanItem) i j x y :
  StronglySorted item_le l → (i < j)%nat →
  l !! i = Some x → l !! j = Some y → item_le x y.
Proof.
  intros Hs. revert i j. induction Hs as [|z l Hs IH Hz]; intros i j Hij Hi Hj; [done|].
  destruct i as [|i], j as [|j]; try lia; cbn in *.
  - injection Hi as ->. rewrite Forall_forall in Hz. apply Hz.
    by eapply list_elem_of_lookup_2.
  - apply (IH i j); [lia | done | done].
Qed.

(** ** The second loop *)

Lemma ensure_unique_target_returns env opts fs x idx :
  ∃ t, ensure_unique fs (target_path env opts x idx) = Returned t.
Proof.
  unfold target_path.
  pose proof (plain_ext_OUTPUT_FORMAT (output_format opts)) as Hext.
  destruct (target_stem_suffix env (output_dir opts) (capture_dt x) idx (subfolders opts)
              _ Hext) as (Hname & _ & _).
  destruct (ensure_unique_spec fs _ Hname) as [[_ Hrun]|[_ (k & _ & Hrun & _)]]; eauto.
  intros k. by apply target_candidate_valid.
Qed.

(** The second loop finishes, and gives each item the path allocated for
    its number. *)
Lemma assign_targets_spec env opts fs st l :
  ∃ l', assign_targets env opts fs st l = Returned l'
        ∧ Forall2 (λ xn y, allocated env opts fs xn.1 xn.2 y) (zip l (seq_numbers st l)) l'.
Proof.
  revert st. induction l as [|x l IH]; intros st; cbn [assign_targets seq_numbers zip zip_with].
  - exists []. split; [done | constructor].
  - destruct (ensure_unique_target_returns env opts fs x (seq_step st x).2) as [t Ht].
    unfold target_path in Ht. rewrite Ht. cbn [mbind outcome_bind].
    destruct (IH (seq_step st x)) as (l' & -> & Hl'). cbn [mbind outcome_bind].
    eexists. split; [done|]. constructor; [|done].
    split; [done|]. done.
Qed.

Lemma seq_numbers_length st l : length (seq_numbers st l) = length l.
Proof.
  revert st. induction l as [|x l IH]; intros st; cbn [seq_numbers length]; [done|].
  by rewrite IH.
Qed.

Lemma seq_numbers_snoc st l x :
  seq_numbers st (l ++ [x]) = seq_numbers st l ++ [(seq_step (seq_after st l) x).2].
Proof.
  revert st. induction l as [|y l IH]; intros st; cbn [seq_numbers app]; [done|].
  by rewrite IH.
Qed.

Lemma seq_numbers_take st l i :
  seq_numbers st (take i l) = take i (seq_numbers st l).
Proof.
  revert st i. induction l as [|y l IH]; intros st [|i]; cbn [seq_numbers take]; try done.
  by rewrite IH.
Qed.

(** The number of the item at [i] is what one round of the loop makes of
    the state the items before it leave. *)
Lemma seq_numbers_lookup st l i x :
  l !! i = Some x →
  seq_numbers st l !! i = Some (seq_step (seq_after st (take i l)) x).2.
Proof.
  intros Hi.
  assert (seq_numbers st (take (S i) l) !! i
          = Some (seq_step (seq_after st (take i l)) x).2) as H.
  { rewrite (take_S_r _ _ _ Hi), seq_numbers_snoc.
    rewrite lookup_app_r; rewrite seq_numbers_length, length_take_le;
      try (apply lookup_lt_Some in Hi; lia).
    by rewrite Nat.sub_diag. }
  rewrite seq_numbers_take in H. by rewrite lookup_take_lt in H by lia.
Qed.

(** The numbering only looks at the timestamps. *)
Lemma seq_step_capture_dt st x y :
  capture_dt x = capture_dt y → seq_step st x = seq_step st y.
Proof. unfold seq_step. by intros ->. Qed.

Lemma seq_numbers_capture_dt st l l' :
  capture_dt <$> l = capture_dt <$> l' → seq_numbers st l = seq_numbers st l'.
Proof.
  revert st l'. induction l as [|x l IH]; intros st [|y l']; try done.
  cbn [fmap list_fmap seq_numbers]. intros [= Hxy Hl].
  rewrite (seq_step_capture_dt st x y Hxy). f_equal. by apply IH.
Qed.

(** *** Seconds in a sorted plan *)

Lemma sorted_seconds_ascend l : StronglySorted item_le l → seconds_ascend l.
Proof.
  intros Hs i j x y Hij Hi Hj. apply replace_microsecond_0_mono.
  apply (key_le_dt (sort_key x) (sort_key y)).
  by apply (sorted_lookup_le l i j).
Qed.

Lemma seconds_ascend_take l i : seconds_ascend l → seconds_ascend (take i l).
Proof.
  intros Hl a b x y Hab Ha Hb.
  apply lookup_take_Some in Ha as [Ha ?], Hb as [Hb ?]. by apply (Hl a b).
Qed.

Lemma seconds_ascend_app_l l k : seconds_ascend (l ++ k) → seconds_ascend l.
Proof.
  intros Hl a b x y Hab Ha Hb.
  apply (Hl a b); [done | by apply lookup_app_l_Some..].
Qed.

Lemma count_second_app s l k :
  count_second s (l ++ k) = count_second s l + count_second s k.
Proof. unfold count_second. rewrite filter_app, length_app. lia. Qed.

Lemma count_second_nonneg s l : 0 ≤ count_second s l.
Proof. unfold count_second. lia. Qed.

Lemma count_second_zero s l :
  (∀ z, z ∈ l → second_of z ≠ s) → count_second s l = 0.
Proof.
  intros H. unfold count_second.
  induction l as [|z l IH]; [done|].
  rewrite filter_cons_False by (apply H; left).
  apply IH. intros z' Hz'. apply H. by right.
Qed.

Lemma count_second_singleton x : count_second (second_of x) [x] = 1.
Proof. unfold count_second. by rewrite filter_cons_True. Qed.

(** After a sorted run of items the loop remembers the second of the last
    one, and how many items of the run were captured in it. *)
Lemma seq_after_sorted l x :
  seconds_ascend (l ++ [x]) →
  seq_after seq_init (l ++ [x])
  = (Some (second_of x), count_second (second_of x) (l ++ [x])).
Proof.
  revert x. induction l as [|y l IH] using rev_ind; intros x Hasc.
  - cbn. by rewrite count_second_singleton.
  - unfold seq_after in *. rewrite foldl_snoc.
    rewrite IH by (by eapply seconds_ascend_app_l).
    unfold seq_step. cbn [fst snd]. fold (second_of x).
    destruct (dt_eqb (second_of x) (second_of y)) eqn:E; cbn [negb].
    + apply dt_eqb_eq in E.
      rewrite (count_second_app _ (l ++ [y]) [x]), count_second_singleton.
      by rewrite E.
    + assert (second_of x ≠ second_of y) as Hne.
      { intros H%dt_eqb_eq. congruence. }
      rewrite (count_second_app _ (l ++ [y]) [x]), count_second_singleton.
      rewrite count_second_zero; [done|].
      intros z [i Hi]%list_elem_of_lookup Hz.
      assert (dt_le (second_of y) (second_of x)) as Hyx.
      { apply (Hasc (length l) (S (length l))); [lia | |].
        - rewrite lookup_app_l by (rewrite length_app; cbn; lia).
          by rewrite lookup_app_r, Nat.sub_diag.
        - rewrite lookup_app_r by (rewrite length_app; cbn; lia).
          rewrite length_app. cbn. by replace (S (length l) - (length l + 1))%nat with O by lia. }
      assert (dt_le (second_of z) (second_of y)) as Hzy.
      { destruct (decide (i = length l)) as [->|Hil].
        - rewrite lookup_app_r, Nat.sub_diag in Hi by lia. injection Hi as ->.
          rewrite dt_le_alt. by right.
        - assert (i < length l)%nat.
          { apply lookup_lt_Some in Hi. rewrite length_app in Hi. cbn in Hi. lia. }
          apply (Hasc i (length l)); [done | |].
          + by rewrite lookup_app_l by (rewrite length_app; cbn; lia).
          + rewrite lookup_app_l by (rewrite length_app; cbn; lia).
            by rewrite lookup_app_r, Nat.sub_diag. }
      apply Hne. rewrite <- Hz in *. by apply dt_le_antisym.
Qed.

(** The number of an item of a sorted plan: one more than the items before
    it that were captured in the same second. *)
Lemma seq_numbers_sorted l i x :
  seconds_ascend l → l !! i = Some x →
  seq_numbers seq_init l !! i
  = Some (1 + count_second (second_of x) (take i l)).
Proof.
  intros Hasc Hi. rewrite (seq_numbers_lookup _ _ _ _ Hi). f_equal.
  destruct (take i l) as [|y k _] eqn:Ek using rev_ind.
  - done.
  - assert (seconds_ascend (k ++ [y] ++ [x])) as Hasc'.
    { rewrite app_assoc, <- Ek, <- (take_S_r _ _ _ Hi). by apply seconds_ascend_take. }
    rewrite seq_after_sorted by (rewrite app_assoc in Hasc'; by eapply seconds_ascend_app_l).
    unfold seq_step. cbn [fst snd]. fold (second_of x).
    destruct (dt_eqb (second_of x) (second_of y)) eqn:E; cbn [negb snd].
    + apply dt_eqb_eq in E. rewrite E. lia.
    + assert (second_of x ≠ second_of y) as Hne.
      { intros H%dt_eqb_eq. congruence. }
      rewrite count_second_zero; [done|].
      intros z [j Hj]%list_elem_of_lookup Hz.
      assert (dt_le (second_of y) (second_of x)) as Hyx.
      { apply (Hasc' (length k) (S (length k))); [lia | |].
        - by rewrite lookup_app_r, Nat.sub_diag.
        - rewrite lookup_app_r by lia.
          by replace (S (length k) - length k)%nat with 1%nat by lia. }
      assert (dt_le (second_of z) (second_of y)) as Hzy.
      { destruct (decide (j = length k)) as [->|Hjk].
        - rewrite lookup_app_r, Nat.sub_diag in Hj by lia. injection Hj as ->.
          rewrite dt_le_alt. by right.
        - assert (j < length k)%nat.
          { apply lookup_lt_Some in Hj. rewrite length_app in Hj. cbn in Hj. lia. }
          apply (Hasc' j (length k)); [done | |].
          + rewrite app_assoc, lookup_app_l by (rewrite length_app; cbn; lia). done.
          + by rewrite lookup_app_r, Nat.sub_diag. }
      apply Hne. rewrite <- Hz in *. by apply dt_le_antisym.
Qed.

(** ** The plan of [main] *)

(** A plan of [main] is the sorted items of the input files, each with its
    target; there is one when there is an input file and the resolver
    returns for every file. *)
Lemma main_planned env opts fs input_files plan :
  main env opts fs input_files = Returned (Planned plan) →
  input_files ≠ []
  ∧ Forall (resolves env) input_files
  ∧ Forall2 (λ xn y, allocated env opts fs xn.1 xn.2 y)
      (zip (sorted_items env opts input_files)
           (seq_numbers seq_init (sorted_items env opts input_files)))
      plan.
Proof.
  unfold main. destruct input_files as [|p rest]; [done|].
  destruct (collect env opts (p :: rest)) as [items| |] eqn:Hc; try done.
  cbn [mbind outcome_bind]. apply collect_returned in Hc as [Hres ->].
  destruct (assign_targets_spec env opts fs seq_init
              (plan_sort (item_of env opts <$> p :: rest))) as (plan' & -> & Hplan).
  cbn [mbind outcome_bind]. by intros [= <-].
Qed.


Section plan_items.
Variables (env : Env) (opts : Options) (fs : FileStore) (input_files : list Path).
Variable plan : list PlanItem.
Hypothesis Hplan :
  Forall2 (λ xn y, allocated env opts fs xn.1 xn.2 y)
    (zip (sorted_items env opts input_files)
         (seq_numbers seq_init (sorted_items env opts input_files)))
    plan.

Lemma plan_length : length plan = length (sorted_items env opts input_files).
Proof using Hplan.
  apply Forall2_length in Hplan. rewrite length_zip_with, seq_numbers_length in Hplan. lia.
Qed.

(** The item at [i] of the plan is the item at [i] of the sorted list, with
    the target allocated for its number. *)
Lemma plan_lookup i y :
  plan !! i = Some y →
  ∃ x n, sorted_items env opts input_files !! i = Some x
         ∧ seq_numbers seq_init (sorted_items env opts input_files) !! i = Some n
         ∧ allocated env opts fs x n y.
Proof using Hplan.
  intros Hy. destruct (Forall2_lookup_r _ _ _ _ _ Hplan Hy) as ([x n] & Hxn & Hal).
  apply lookup_zip_with_Some in Hxn as (x' & n' & [= <- <-] & Hx & Hn).
  by exists x, n.
Qed.

Lemma plan_fields i y :
  plan !! i = Some y →
  ∃ x, sorted_items env opts input_files !! i = Some x
       ∧ source y = source x ∧ capture_dt y = capture_dt x
       ∧ needs_reencode y = needs_reencode x.
Proof using Hplan.
  intros (x & n & Hx & _ & [-> _])%plan_lookup. by exists x.
Qed.

Lemma plan_capture_dt :
  capture_dt <$> plan = capture_dt <$> sorted_items env opts input_files.
Proof using Hplan.
  apply list_eq. intros i. rewrite !list_lookup_fmap.
  destruct (plan !! i) as [y|] eqn:Hy.
  - destruct (plan_fields i y Hy) as (x & Hx & _ & Hd & _).
    rewrite Hx. cbn. by rewrite Hd.
  - apply lookup_ge_None in Hy. rewrite plan_length in Hy.
    apply lookup_ge_None in Hy. by rewrite Hy.
Qed.

Lemma plan_source :
  source <$> plan = source <$> sorted_items env opts input_files.
Proof using Hplan.
  apply list_eq. intros i. rewrite !list_lookup_fmap.
  destruct (plan !! i) as [y|] eqn:Hy.
  - destruct (plan_fields i y Hy) as (x & Hx & Hs & _).
    rewrite Hx. cbn. by rewrite Hs.
  - apply lookup_ge_None in Hy. rewrite plan_length in Hy.
    apply lookup_ge_None in Hy. by rewrite Hy.
Qed.

Lemma plan_item_le i j x y :
  (i < j)%nat → plan !! i = Some x → plan !! j = Some y → item_le x y.
Proof using Hplan.
  intros Hij (x0 & Hx0 & Hsx & Hdx & _)%plan_fields (y0 & Hy0 & Hsy & Hdy & _)%plan_fields.
  pose proof (sorted_lookup_le _ i j x0 y0 (plan_sort_sorted _) Hij Hx0 Hy0) as Hle.
  unfold item_le, sort_key in *. by rewrite Hsx, Hdx, Hsy, Hdy.
Qed.

Lemma plan_seconds_ascend : seconds_ascend plan.
Proof using Hplan.
  intros i j x y Hij Hi Hj. apply replace_microsecond_0_mono.
  apply (key_le_dt (sort_key x) (sort_key y)). by apply (plan_item_le i j).
Qed.

(** The number of the item at [i], and the target it has. *)
Lemma plan_number i y :
  plan !! i = Some y →
  let n := 1 + count_second (second_of y) (take i plan) in
  seq_numbers seq_init plan !! i = Some n
  ∧ ensure_unique fs (target_path env opts y n) = Returned (target y).
Proof using Hplan.
  intros Hy n.
  assert (seq_numbers seq_init plan !! i = Some n) as Hn.
  { by apply seq_numbers_sorted; [apply plan_seconds_ascend|]. }
  split; [done|].
  destruct (plan_lookup i y Hy) as (x & n' & Hx & Hn' & Hy' & Hrun).
  rewrite <- (seq_numbers_capture_dt seq_init plan) in Hn' by apply plan_capture_dt.
  assert (n' = n) as -> by congruence.
  unfold target_path in *. rewrite Hy'. done.
Qed.
End plan_items.

(** C2.  A plan is the input files in the order of (capture timestamp,
    source file name): an item with a smaller timestamp comes before one
    with a greater, and of two items with the same timestamp the one whose
    file name is smaller comes first. *)
Theorem plan_total_order env opts fs input_files plan :
  main env opts fs input_files = Returned (Planned plan) →
  source <$> plan ≡ₚ input_files
  ∧ ∀ i j A B,
      plan !! i = Some A → plan !! j = Some B →
      (dt_lt (capture_dt A) (capture_dt B) → (i < j)%nat)
      ∧ (capture_dt A = capture_dt B →
         str_lt (name (source A)) (name (source B)) → (i < j)%nat).
Proof.
  intros (_ & _ & Hplan)%main_planned. split.
  - rewrite (plan_source env opts fs input_files plan Hplan).
    unfold sorted_items. rewrite plan_sort_perm, <- list_fmap_compose.
    by rewrite list_fmap_id.
  - intros i j A B HA HB. split.
    + intros Hlt. destruct (decide (i < j)%nat) as [|Hge]; [done|]. exfalso.
      destruct (decide (i = j)) as [->|Hij].
      * assert (A = B) as -> by congruence. by apply (dt_lt_irrefl (capture_dt B)).
      * assert (item_le B A) as Hle
          by (apply (plan_item_le env opts fs input_files plan Hplan j i); [lia|done..]).
        apply key_le_dt in Hle. cbn in Hle. apply dt_le_alt in Hle as [Hle|Hle].
        -- by apply (dt_lt_asym _ _ Hlt).
        -- rewrite Hle in Hlt. by apply (dt_lt_irrefl (capture_dt A)).
    + intros Heq Hlt. destruct (decide (i < j)%nat) as [|Hge]; [done|]. exfalso.
      unfold str_lt in Hlt. rewrite str_ltb_leb in Hlt. apply negb_true_iff in Hlt.
      destruct (decide (i = j)) as [->|Hij].
      * assert (A = B) as -> by congruence.
        destruct (String.leb_total (name (source B)) (name (source B))); congruence.
      * assert (item_le B A) as [Hle|[_ Hle]]
          by (apply (plan_item_le env opts fs input_files plan Hplan j i); [lia|done..]).
        -- cbn in Hle. rewrite Heq in Hle. by apply (dt_lt_irrefl (capture_dt B)).
        -- cbn in Hle. unfold String.le in Hle. by rewrite Hlt in Hle.
Qed.

Lemma plan_total_order_witness :
  let a := mkPath false ["in"; "a.jpg"] in
  let b := mkPath false ["in"; "b.jpg"] in
  let c := mkPath false ["in"; "IMG_20240305_100000.jpg"] in
  let opts := mkOptions (mkPath false ["out"]) jpeg "none" true in
  ∃ plan,
    main env_birth_zero opts ∅ [b; c; a] = Returned (Planned plan)
    ∧ source <$> plan = [a; b; c]
    ∧ source <$> plan ≡ₚ [b; c; a].
Proof.
  intros a b c opts. eexists. split; [vm_compute; reflexivity|].
  split; [reflexivity|].
  refine (proj1 (plan_total_order env_birth_zero opts ∅ [b; c; a] _ _)).
  vm_compute. reflexivity.
Defined.

(** ** Sequence numbers *)

(** The number after an item: one more in the same second, 1 in a new
    one. *)
Lemma seq_numbers_adjacent l i x y n :
  seconds_ascend l → l !! i = Some x → l !! S i = Some y →
  seq_numbers seq_init l !! i = Some n →
  seq_numbers seq_init l !! S i
  = Some (if decide (second_of y = second_of x) then n + 1 else 1).
Proof.
  intros Hasc Hx Hy Hn.
  rewrite (seq_numbers_sorted l i x Hasc Hx) in Hn. injection Hn as <-.
  rewrite (seq_numbers_lookup _ _ _ _ Hy). f_equal.
  rewrite (take_S_r _ _ _ Hx).
  rewrite seq_after_sorted
    by (rewrite <- (take_S_r _ _ _ Hx); by apply seconds_ascend_take).
  unfold seq_step. cbn [fst snd]. fold (second_of y).
  rewrite count_second_app, count_second_singleton.
  unfold dt_eqb. destruct (decide (second_of y = second_of x)) as [E|E].
  - rewrite bool_decide_eq_true_2 by done. cbn. lia.
  - by rewrite bool_decide_eq_false_2 by done.
Qed.

(** C3.  In a plan the number of an item is one more than the count of
    the items before it that were captured in the same whole second, so
    the items of a second are numbered 1, 2, 3, ... in plan order: the
    number after an item is its number plus one in the same second and 1 in
    a new one.  The target of the item is the path allocated for this
    number.  The timestamps may have microseconds. *)
Theorem sequence_numbers_contiguous env opts fs input_files plan :
  main env opts fs input_files = Returned (Planned plan) →
  (∀ i x,
     plan !! i = Some x →
     let n := 1 + count_second (second_of x) (take i plan) in
     seq_numbers seq_init plan !! i = Some n
     ∧ ensure_unique fs (target_path env opts x n) = Returned (target x))
  ∧ (∀ i x y n,
       plan !! i = Some x → plan !! S i = Some y →
       seq_numbers seq_init plan !! i = Some n →
       seq_numbers seq_init plan !! S i
       = Some (if decide (second_of y = second_of x) then n + 1 else 1)).
Proof.
  intros (_ & _ & Hplan)%main_planned. split.
  - intros i x Hx. by apply (plan_number env opts fs input_files).
  - intros i x y n Hx Hy Hn. apply seq_numbers_adjacent; try done.
    by apply (plan_seconds_ascend env opts fs input_files).
Qed.

Lemma sequence_numbers_contiguous_witness :
  let files := [mkPath false ["in"; "IMG_20240305_100000.jpg"];
                mkPath false ["in"; "IMG_20240305_100001.jpg"];
                mkPath false ["in"; "2024-03-05 10.00.00.png"]] in
  let opts := mkOptions (mkPath false ["out"]) jpeg "day" true in
  ∃ plan,
    main env_birth_zero opts ∅ files = Returned (Planned plan)
    ∧ seq_numbers seq_init plan = [1; 2; 1]
    ∧ ∀ i x,
        plan !! i = Some x →
        let n := 1 + count_second (second_of x) (take i plan) in
        seq_numbers seq_init plan !! i = Some n
        ∧ ensure_unique ∅ (target_path env_birth_zero opts x n) = Returned (target x).
Proof.
  intros files opts. eexists. split; [vm_compute; reflexivity|].
  split; [vm_compute; reflexivity|].
  refine (proj1 (sequence_numbers_contiguous env_birth_zero opts ∅ files _ _)).
  vm_compute. reflexivity.
Defined.

(** The scenario of the specification: 10:00:00, 10:00:00 and 10:00:01 on
    the 5th of March 2024, by day, as JPEG. *)
Example ex_scenario_day :
  main env_birth_zero (mkOptions (mkPath false ["out"]) jpeg "day" true) ∅
    [mkPath false ["in"; "IMG_20240305_100000.jpg"];
     mkPath false ["in"; "IMG_20240305_100001.jpg"];
     mkPath false ["in"; "2024-03-05 10.00.00.png"]]
  = Returned (Planned
      [mkPlanItem (mkPath false ["in"; "2024-03-05 10.00.00.png"])
         (mkPath false ["out"; "2024"; "03"; "05"; "2024-03-05_10-00-00_0001.jpg"])
         (mkDatetime 2024 3 5 10 0 0 0) true;
       mkPlanItem (mkPath false ["in"; "IMG_20240305_100000.jpg"])
         (mkPath false ["out"; "2024"; "03"; "05"; "2024-03-05_10-00-00_0002.jpg"])
         (mkDatetime 2024 3 5 10 0 0 0) false;
       mkPlanItem (mkPath false ["in"; "IMG_20240305_100001.jpg"])
         (mkPath false ["out"; "2024"; "03"; "05"; "2024-03-05_10-00-01_0001.jpg"])
         (mkDatetime 2024 3 5 10 0 1 0) false]).
Proof. vm_compute. reflexivity. Qed.

(** ** The decision to re-encode *)

(** C6.  An item of a plan is copied ([needs_reencode] false) exactly
    when copy-unchanged is on and the extension of the source, in lower
    case, is the extension of the target format: .jpg for jpeg, .png for
    png, .webp for webp, .tiff for tiff. *)
Theorem needs_reencode_iff env opts fs input_files plan :
  main env opts fs input_files = Returned (Planned plan) →
  (∀ item,
     item ∈ plan →
     needs_reencode item = false
     ↔ copy_unchanged opts = true
       ∧ lower (suffix (source item)) = OUTPUT_FORMAT_TO_EXT (output_format opts))
  ∧ OUTPUT_FORMAT_TO_EXT jpeg = ".jpg"
  ∧ OUTPUT_FORMAT_TO_EXT png = ".png"
  ∧ OUTPUT_FORMAT_TO_EXT webp = ".webp"
  ∧ OUTPUT_FORMAT_TO_EXT tiff = ".tiff".
Proof.
  intros (_ & _ & Hplan)%main_planned. split_and!; try done.
  intros item [i Hi]%list_elem_of_lookup.
  destruct (plan_fields env opts fs input_files plan Hplan i item Hi)
    as (x & Hx & Hs & _ & Hr).
  apply list_elem_of_lookup_2 in Hx. unfold sorted_items in Hx.
  rewrite plan_sort_perm in Hx. apply list_elem_of_fmap in Hx as (path & -> & _).
  rewrite Hr, Hs. cbn. unfold copies_unchanged.
  rewrite negb_false_iff, andb_true_iff, str_eqb_eq. done.
Qed.

Lemma needs_reencode_iff_witness :
  let files := [mkPath false ["in"; "a.JPG"]; mkPath false ["in"; "b.jpeg"]] in
  let opts := mkOptions (mkPath false ["out"]) jpeg "none" true in
  ∃ plan,
    main env_birth_zero opts ∅ files = Returned (Planned plan)
    ∧ needs_reencode <$> plan = [false; true]
    ∧ ∀ item,
        item ∈ plan →
        needs_reencode item = false
        ↔ copy_unchanged opts = true
          ∧ lower (suffix (source item)) = OUTPUT_FORMAT_TO_EXT (output_format opts).
Proof.
  intros files opts. eexists. split; [vm_compute; reflexivity|].
  split; [reflexivity|].
  refine (proj1 (needs_reencode_iff env_birth_zero opts ∅ files _ _)).
  vm_compute. reflexivity.
Defined.

Example ex_reencode_jpg_jpeg :
  negb (copies_unchanged (mkOptions (mkPath false ["out"]) jpeg "none" true)
          (mkPath false ["in"; "a.jpg"])) = false.
Proof. vm_compute. reflexivity. Qed.

Example ex_reencode_jpg_png :
  negb (copies_unchanged (mkOptions (mkPath false ["out"]) png "none" true)
          (mkPath false ["in"; "a.jpg"])) = true.
Proof. vm_compute. reflexivity. Qed.

(** ** Targets do not collide *)

Lemma digits_prefix_unique a b t1 t2 :
  str_forall is_digit a = true → str_forall is_digit b = true →
  no_digit_ahead t1 → no_digit_ahead t2 →
  a +:+ t1 = b +:+ t2 → a = b ∧ t1 = t2.
Proof.
  revert b. induction a as [|c a IH]; intros [|d b] Ha Hb H1 H2 Heq; cbn in *.
  - done.
  - subst t1. cbn in H1. apply andb_prop in Hb as [Hd _]. congruence.
  - subst t2. cbn in H2. apply andb_prop in Ha as [Hc _]. congruence.
  - injection Heq as -> Heq. apply andb_prop in Ha as [_ Ha], Hb as [_ Hb].
    destruct (IH b Ha Hb H1 H2 Heq) as [-> ->]. done.
Qed.

Lemma valid_datetime_nonneg dt :
  valid_datetime dt →
  0 ≤ year dt ∧ 0 ≤ month dt ∧ 0 ≤ day dt ∧ 0 ≤ hour dt ∧ 0 ≤ minute dt ∧ 0 ≤ second dt.
Proof.
  unfold valid_datetime, valid_fields. rewrite !andb_true_iff, !Z.leb_le. lia.
Qed.

(** The stamp of a name tells the second. *)
Lemma stamp_inj env dt1 dt2 r1 r2 :
  valid_datetime dt1 → valid_datetime dt2 →
  stamp env dt1 +:+ String "_" r1 = stamp env dt2 +:+ String "_" r2 →
  replace_microsecond_0 dt1 = replace_microsecond_0 dt2 ∧ r1 = r2.
Proof.
  intros (?&?&?&?&?&?)%valid_datetime_nonneg (?&?&?&?&?&?)%valid_datetime_nonneg.
  unfold stamp. rewrite !str_app_assoc. cbn [String.append]. intros Heq.
  repeat (apply split_at_sep in Heq as [?%format_0d_inj Heq];
          [|by apply format_0d_contains_nonneg..]).
  unfold replace_microsecond_0. destruct dt1, dt2; cbn in *. by subst.
Qed.

(** The base name of a target tells the second and the number. *)
Lemma base_name_inj env dt1 dt2 n1 n2 t1 t2 :
  valid_datetime dt1 → valid_datetime dt2 → 0 ≤ n1 → 0 ≤ n2 →
  no_digit_ahead t1 → no_digit_ahead t2 →
  base_stem env dt1 n1 +:+ t1 = base_stem env dt2 n2 +:+ t2 →
  replace_microsecond_0 dt1 = replace_microsecond_0 dt2 ∧ n1 = n2 ∧ t1 = t2.
Proof.
  intros Hv1 Hv2 Hn1 Hn2 Ht1 Ht2. unfold base_stem.
  rewrite !str_app_assoc. cbn [String.append]. intros H.
  apply stamp_inj in H as [Hsec H]; [|done..].
  apply digits_prefix_unique in H as [H%format_0d_inj Ht];
    [done | by apply format_0d_digits.. | done | done].
Qed.

(** The name of an allocated target: the base name, then the extension or
    [__k] and the extension. *)
Lemma allocated_name env fs output_dir dt idx subfolders ext t :
  plain_ext ext →
  ensure_unique fs (build_target_path env output_dir dt idx subfolders ext) = Returned t →
  ∃ tail, name t = base_stem env dt idx +:+ tail ∧ no_digit_ahead tail.
Proof.
  intros Hext Hrun.
  destruct (target_stem_suffix env output_dir dt idx subfolders ext Hext) as (_ & Hstem & Hsuf).
  assert (no_digit_ahead ext) as Hx by (by destruct Hext as [(e & -> & _) _]).
  apply ensure_unique_returned in Hrun as [[-> _]|(_ & _ & k & _ & ->)].
  - rewrite build_target_path_name by done. by exists ext.
  - rewrite name_sibling. cbv zeta in Hstem, Hsuf. rewrite Hstem, Hsuf.
    unfold candidate_name. by eexists.
Qed.

Lemma parse_exif_value_valid env v dt :
  valid_env env → parse_exif_value env v = Some dt → valid_datetime dt.
Proof.
  intros [Hstrp _]. unfold parse_exif_value.
  destruct v as [[s|s|]|]; try done; cbn [strptime_relaxed];
    repeat (match goal with
            | |- context [strptime env ?a ?b] =>
                let E := fresh "E" in
                destruct (strptime env a b) eqn:E;
                [|intros [= <-]; by eapply Hstrp]
            end); done.
Qed.

Lemma name_timestamp_valid nm dt : name_timestamp nm = Some dt → valid_datetime dt.
Proof.
  unfold name_timestamp. destruct (re_search name_pattern nm) as [m|]; [|done].
  destruct (datetime_of_match m) as [dt'| |] eqn:E; try done.
  intros [= <-]. by eapply datetime_of_match_valid.
Qed.

Lemma determine_capture_datetime_valid env path dt :
  valid_env env → determine_capture_datetime env path = Returned dt → valid_datetime dt.
Proof.
  intros Henv. rewrite determine_capture_datetime_chain.
  unfold resolve_by_priority, metadata_timestamps, exif_timestamp. cbn [first_of].
  repeat (match goal with
          | |- context [parse_exif_value env ?v] =>
              let E := fresh "E" in
              destruct (parse_exif_value env v) eqn:E;
              [intros [= <-]; by eapply parse_exif_value_valid|]
          end).
  destruct (name_timestamp (name path)) eqn:Enm;
    [intros [= <-]; by eapply name_timestamp_valid|].
  unfold file_time. destruct Henv as [_ Hts].
  destruct (path_stat env path) as [e|st]; cbn [call mbind outcome_bind]; [done|].
  destruct (st_birthtime st); [destruct (PrimFloat.eqb _ _)|];
    (destruct (fromtimestamp env _) eqn:Ets; cbn [call]; [done|]);
    intros [= <-]; by eapply Hts.
Qed.

(** The timestamps of the plan are datetimes of Python. *)
Lemma resolved_valid env path : valid_env env → valid_datetime (resolved env path).
Proof.
  intros Henv. unfold resolved.
  destruct (determine_capture_datetime env path) as [dt| |] eqn:Hdt; [|done..].
  by eapply determine_capture_datetime_valid.
Qed.

Lemma sorted_items_valid env opts input_files x :
  valid_env env → x ∈ sorted_items env opts input_files → valid_datetime (capture_dt x).
Proof.
  intros Henv Hx. unfold sorted_items in Hx. rewrite plan_sort_perm in Hx.
  apply list_elem_of_fmap in Hx as (path & -> & _). by apply resolved_valid.
Qed.

(** A later item of the same second has more items of that second before
    it. *)
Lemma count_second_lt (l : list PlanItem) i j x :
  (i < j)%nat → l !! i = Some x →
  count_second (second_of x) (take i l) + 1 ≤ count_second (second_of x) (take j l).
Proof.
  intros Hij Hx.
  rewrite <- (take_drop (S i) (take j l)), take_take, Nat.min_l by lia.
  rewrite (take_S_r _ _ _ Hx), !count_second_app, count_second_singleton.
  pose proof (count_second_nonneg (second_of x) (drop (S i) (take j l))). lia.
Qed.

Section distinct_targets.
Variables (env : Env) (opts : Options) (fs : FileStore) (input_files : list Path).
Variable plan : list PlanItem.
Hypothesis Henv : valid_env env.
Hypothesis Hplan :
  Forall2 (λ xn y, allocated env opts fs xn.1 xn.2 y)
    (zip (sorted_items env opts input_files)
         (seq_numbers seq_init (sorted_items env opts input_files)))
    plan.

Lemma plan_item_valid i x : plan !! i = Some x → valid_datetime (capture_dt x).
Proof using Henv Hplan.
  intros (x0 & Hx0 & _ & -> & _)%(plan_fields env opts fs input_files plan Hplan).
  apply (sorted_items_valid env opts input_files); [done|].
  by eapply list_elem_of_lookup_2.
Qed.

Lemma plan_targets_differ i j x y :
  (i < j)%nat → plan !! i = Some x → plan !! j = Some y → target x ≠ target y.
Proof using Henv Hplan.
  intros Hij Hx Hy Heq.
  destruct (plan_number env opts fs input_files plan Hplan i x Hx) as [_ Hrx].
  destruct (plan_number env opts fs input_files plan Hplan j y Hy) as [_ Hry].
  pose proof (plain_ext_OUTPUT_FORMAT (output_format opts)) as Hext.
  apply allocated_name in Hrx as (t1 & Hn1 & Ht1); [|done].
  apply allocated_name in Hry as (t2 & Hn2 & Ht2); [|done].
  rewrite Heq, Hn2 in Hn1.
  pose proof (count_second_nonneg (second_of x) (take i plan)).
  pose proof (count_second_nonneg (second_of y) (take j plan)).
  apply base_name_inj in Hn1 as (Hsec & Hnum & _);
    [|by eauto using plan_item_valid..|lia|lia|done|done].
  fold (second_of y) in Hsec. fold (second_of x) in Hsec.
  pose proof (count_second_lt plan i j x Hij Hx) as Hlt.
  rewrite Hsec in Hnum. lia.
Qed.
End distinct_targets.

(** C1.  No two items of a plan have the same target: the numbering by
    second keeps the computed paths apart, and the suffixes the allocator
    adds for paths that exist do not bring two of them together. *)
Theorem targets_pairwise_distinct env opts fs input_files plan :
  valid_env env →
  main env opts fs input_files = Returned (Planned plan) →
  ∀ i j x y,
    i ≠ j → plan !! i = Some x → plan !! j = Some y → target x ≠ target y.
Proof.
  intros Henv (_ & _ & Hplan)%main_planned. intros i j x y Hij Hx Hy.
  destruct (decide (i < j)%nat).
  - by apply (plan_targets_differ env opts fs input_files plan Henv Hplan i j).
  - apply not_eq_sym.
    apply (plan_targets_differ env opts fs input_files plan Henv Hplan j i); [lia|done..].
Qed.

Lemma valid_env_birth_zero : valid_env env_birth_zero.
Proof.
  split; [intros s fmt dt; discriminate|].
  intros t dt. cbn. destruct (PrimFloat.eqb t 0); by intros [= <-].
Qed.

Lemma targets_pairwise_distinct_witness :
  let files := [mkPath false ["in"; "IMG_20240305_100000.jpg"];
                mkPath false ["in"; "IMG_20240305_100000_copy.jpg"]] in
  let opts := mkOptions (mkPath false ["out"]) jpeg "none" true in
  let fs : FileStore := {[ mkPath false ["out"; "2024-03-05_10-00-00_0001.jpg"] ]} in
  valid_env env_birth_zero
  ∧ ∃ plan,
      main env_birth_zero opts fs files = Returned (Planned plan)
      ∧ target <$> plan
        = [mkPath false ["out"; "2024-03-05_10-00-00_0001__1.jpg"];
           mkPath false ["out"; "2024-03-05_10-00-00_0002.jpg"]]
      ∧ ∀ i j x y,
          i ≠ j → plan !! i = Some x → plan !! j = Some y → target x ≠ target y.
Proof.
  intros files opts fs. split; [exact valid_env_birth_zero|].
  eexists. split; [vm_compute; reflexivity|]. split; [reflexivity|].
  refine (targets_pairwise_distinct env_birth_zero opts fs files _
            valid_env_birth_zero _).
  vm_compute. reflexivity.
Defined.

(** An existing target moves the first item of the second to [__1]; the
    second item keeps its own number. *)
Example ex_existing_target :
  main env_birth_zero (mkOptions (mkPath false ["out"]) jpeg "none" true)
    {[ mkPath false ["out"; "2024-03-05_10-00-00_0001.jpg"] ]}
    [mkPath false ["in"; "IMG_20240305_100000.jpg"];
     mkPath false ["in"; "IMG_20240305_100000_copy.jpg"]]
  = Returned (Planned
      [mkPlanItem (mkPath false ["in"; "IMG_20240305_100000.jpg"])
         (mkPath false ["out"; "2024-03-05_10-00-00_0001__1.jpg"])
         (mkDatetime 2024 3 5 10 0 0 0) false;
       mkPlanItem (mkPath false ["in"; "IMG_20240305_100000_copy.jpg"])
         (mkPath false ["out"; "2024-03-05_10-00-00_0002.jpg"])
         (mkDatetime 2024 3 5 10 0 0 0) false]).
Proof. vm_compute. reflexivity. Qed.

(** ** Determinism *)

Global Instance key_le_antisym : AntiSymm (=) key_le.
Proof.
  intros [d1 n1] [d2 n2] [H1|[H1 H1']] [H2|[H2 H2']]; cbn in *.
  - by destruct (dt_lt_asym d1 d2).
  - subst. by destruct (dt_lt_irrefl d1).
  - subst. by destruct (dt_lt_irrefl d2).
  - subst. f_equal. by apply (anti_symm String.le).
Qed.

(** Two sorted lists of the same items are the same list, when no two of
    the items have the same key. *)
Lemma plan_sort_unique l1 l2 :
  l1 ≡ₚ l2 →
  (∀ x y, x ∈ l1 → y ∈ l1 → sort_key x = sort_key y → x = y) →
  plan_sort l1 = plan_sort l2.
Proof.
  intros Hperm Hkeys.
  apply (StronglySorted_unique_strong item_le);
    [|apply plan_sort_sorted..|by rewrite !plan_sort_perm].
  intros x y Hx Hy Hxy Hyx. rewrite plan_sort_perm in Hx.
  rewrite plan_sort_perm, <- Hperm in Hy.
  apply Hkeys; [done..|]. by apply (anti_symm key_le).
Qed.

Lemma item_of_agree env1 env2 opts (files : list Path) :
  (∀ p, p ∈ files →
        determine_capture_datetime env1 p = determine_capture_datetime env2 p) →
  item_of env1 opts <$> files = item_of env2 opts <$> files.
Proof.
  intros Hagree. apply list_fmap_ext. intros i p Hp.
  apply list_elem_of_lookup_2, Hagree in Hp.
  unfold item_of, resolved. by rewrite Hp.
Qed.

Lemma collect_agree env1 env2 opts (files : list Path) :
  (∀ p, p ∈ files →
        determine_capture_datetime env1 p = determine_capture_datetime env2 p) →
  collect env1 opts files = collect env2 opts files.
Proof.
  induction files as [|p files IH]; intros Hagree; cbn [collect]; [done|].
  rewrite !collect_item_eq, (Hagree p) by (by left).
  rewrite IH; [done|]. intros q Hq. apply Hagree. by right.
Qed.

(** [strftime] is the same on two platforms that write the year the same
    way. *)
Lemma strftime_agree env1 env2 dt fmt :
  pads_year env1 = pads_year env2 → strftime env1 dt fmt = strftime env2 dt fmt.
Proof.
  intros Hpads.
  assert (∀ c, strftime_directive env1 dt c = strftime_directive env2 dt c) as Hdir.
  { intros c. unfold strftime_directive, year_width. by rewrite Hpads. }
  assert (∀ n fmt', (String.length fmt' ≤ n)%nat →
                    strftime env1 dt fmt' = strftime env2 dt fmt') as Hall.
  { induction n as [|n IH]; intros [|c rest] Hlen; cbn [String.length] in Hlen;
      [done | lia | done |].
    cbn [strftime]. rewrite (IH rest) by lia.
    destruct rest as [|d rest]; [done|].
    cbn [String.length] in Hlen. by rewrite Hdir, (IH rest) by lia. }
  by apply (Hall (String.length fmt)).
Qed.

Lemma build_target_path_agree env1 env2 output_dir dt idx subfolders ext :
  pads_year env1 = pads_year env2 →
  build_target_path env1 output_dir dt idx subfolders ext
  = build_target_path env2 output_dir dt idx subfolders ext.
Proof.
  intros Hpads. unfold build_target_path.
  by rewrite !(strftime_agree env1 env2 dt _ Hpads).
Qed.

Lemma assign_targets_agree env1 env2 opts fs st l :
  pads_year env1 = pads_year env2 →
  assign_targets env1 opts fs st l = assign_targets env2 opts fs st l.
Proof.
  intros Hpads. revert st. induction l as [|x l IH]; intros st; cbn [assign_targets];
    [done|].
  rewrite (build_target_path_agree env1 env2) by done.
  destruct (ensure_unique fs _); cbn [mbind outcome_bind]; [|done..].
  by rewrite IH.
Qed.

(** [main], once the resolver has returned for every file. *)
Lemma main_resolved env opts fs input_files :
  input_files ≠ [] → Forall (resolves env) input_files →
  main env opts fs input_files
  = (plan ← assign_targets env opts fs seq_init (sorted_items env opts input_files);
     Returned (Planned plan)).
Proof.
  intros Hne Hres. unfold main. destruct input_files as [|p rest]; [done|].
  by rewrite collect_eq by done.
Qed.

(** C9, as amended.  Two runs that agree on the files and the order they
    are listed in, on what the resolver gives for each file, on the state
    of the destination and on the way the year is written come to the same
    end: the same plan, item by item, or the same exception.  When the
    files are listed in another order, the second run gives the plan of the
    first as long as no two files have the same timestamp and the same
    name. *)
Theorem planner_deterministic env1 env2 opts (fs1 fs2 : FileStore) files files' :
  pads_year env1 = pads_year env2 →
  (∀ p, p ∈ files →
        determine_capture_datetime env1 p = determine_capture_datetime env2 p) →
  (∀ p, p ∈ fs1 ↔ p ∈ fs2) →
  main env1 opts fs1 files = main env2 opts fs2 files
  ∧ (files ≡ₚ files' →
     (∀ p q, p ∈ files → q ∈ files →
             determine_capture_datetime env1 p = determine_capture_datetime env1 q →
             name p = name q → p = q) →
     ∀ plan,
       main env1 opts fs1 files = Returned (Planned plan) →
       main env2 opts fs2 files' = Returned (Planned plan)).
Proof.
  intros Hpads Hagree Hfs.
  assert (fs1 = fs2) as -> by (by apply set_eq).
  split.
  - unfold main. rewrite (collect_agree env1 env2) by done.
    destruct files as [|p files]; [done|].
    destruct (collect env2 opts (p :: files)); cbn [mbind outcome_bind]; [|done..].
    by rewrite (assign_targets_agree env1 env2).
  - intros Hperm Hkeys plan Hmain.
    destruct (main_planned _ _ _ _ _ Hmain) as (Hne & Hres & _).
    assert (files' ≠ []) as Hne'.
    { intros ->. apply Permutation_nil_r in Hperm. done. }
    assert (Forall (resolves env2) files') as Hres'.
    { rewrite <- Hperm. rewrite Forall_forall in Hres. apply Forall_forall.
      intros p Hp. destruct (Hres p Hp) as [dt Hdt]. exists dt.
      by rewrite <- Hagree. }
    rewrite main_resolved in Hmain by done. rewrite main_resolved by done.
    rewrite <- (assign_targets_agree env1 env2) by done.
    assert (sorted_items env2 opts files' = sorted_items env1 opts files) as ->; [|done].
    unfold sorted_items.
    rewrite <- (item_of_agree env1 env2 opts files')
      by (intros p Hp; apply Hagree; by rewrite Hperm).
    symmetry. apply plan_sort_unique; [by rewrite Hperm|].
    intros x y (p & -> & Hp)%list_elem_of_fmap (q & -> & Hq)%list_elem_of_fmap.
    unfold sort_key, item_of. cbn [capture_dt source]. intros [= Hdt Hname].
    rewrite Forall_forall in Hres.
    rewrite (Hkeys p q); try done.
    by rewrite !determine_capture_datetime_resolved, Hdt by auto.
Qed.

Lemma planner_deterministic_witness :
  let a := mkPath false ["in"; "IMG_20240305_100000.jpg"] in
  let b := mkPath false ["in"; "IMG_20240305_100001.jpg"] in
  let opts := mkOptions (mkPath false ["out"]) jpeg "none" true in
  pads_year env_birth_zero = pads_year env_birth_zero
  ∧ (∀ p, p ∈ [a; b] →
          determine_capture_datetime env_birth_zero p
          = determine_capture_datetime env_birth_zero p)
  ∧ (∀ p : Path, p ∈ (∅ : FileStore) ↔ p ∈ (∅ : FileStore))
  ∧ [a; b] ≡ₚ [b; a]
  ∧ ∃ plan,
      main env_birth_zero opts ∅ [a; b] = Returned (Planned plan)
      ∧ main env_birth_zero opts ∅ [b; a] = Returned (Planned plan).
Proof.
  intros a b opts.
  assert (pads_year env_birth_zero = pads_year env_birth_zero) as Hpads by reflexivity.
  assert (∀ p, p ∈ [a; b] →
               determine_capture_datetime env_birth_zero p
               = determine_capture_datetime env_birth_zero p) as Hagree by done.
  assert (∀ p : Path, p ∈ (∅ : FileStore) ↔ p ∈ (∅ : FileStore)) as Hfs by done.
  assert ([a; b] ≡ₚ [b; a]) as Hperm by apply Permutation_swap.
  assert (∀ p q, p ∈ [a; b] → q ∈ [a; b] →
                 determine_capture_datetime env_birth_zero p
                 = determine_capture_datetime env_birth_zero q →
                 name p = name q → p = q) as Hkeys.
  { intros p q Hp Hq _ Hname.
    apply elem_of_cons in Hp as [->|Hp]; [|apply list_elem_of_singleton in Hp as ->];
      (apply elem_of_cons in Hq as [->|Hq]; [|apply list_elem_of_singleton in Hq as ->]);
      try done; vm_compute in Hname; discriminate Hname. }
  split_and!; [exact Hpads | exact Hagree | exact Hfs | exact Hperm |].
  eexists. split; [vm_compute; reflexivity|].
  refine (proj2 (planner_deterministic env_birth_zero env_birth_zero opts ∅ ∅
                   [a; b] [b; a] Hpads Hagree Hfs) Hperm Hkeys _ _).
  vm_compute. reflexivity.
Defined.

(** C9, as the claim has it, fails for two files of one name and one
    timestamp in two directories: they are numbered in the order they are
    listed in, so the same set of files listed in another order gives
    another plan. *)
Lemma planner_depends_on_listing_order :
  ¬ (∀ env opts (fs : FileStore) files files',
       files ≡ₚ files' → main env opts fs files = main env opts fs files').
Proof.
  intros H.
  specialize (H env_birth_zero (mkOptions (mkPath false ["out"]) jpeg "none" true) ∅
                [mkPath false ["a"; "IMG_20240305_100000.jpg"];
                 mkPath false ["b"; "IMG_20240305_100000.jpg"]]
                [mkPath false ["b"; "IMG_20240305_100000.jpg"];
                 mkPath false ["a"; "IMG_20240305_100000.jpg"]]
                (Permutation_swap _ _ _)).
  vm_compute in H. discriminate H.
Qed.

Example ex_listing_order :
  let a := mkPath false ["a"; "IMG_20240305_100000.jpg"] in
  let b := mkPath false ["b"; "IMG_20240305_100000.jpg"] in
  let opts := mkOptions (mkPath false ["out"]) jpeg "none" true in
  let t1 := mkPath false ["out"; "2024-03-05_10-00-00_0001.jpg"] in
  let t2 := mkPath false ["out"; "2024-03-05_10-00-00_0002.jpg"] in
  let dt := mkDatetime 2024 3 5 10 0 0 0 in
  main env_birth_zero opts ∅ [a; b]
  = Returned (Planned [mkPlanItem a t1 dt false; mkPlanItem b t2 dt false])
  ∧ main env_birth_zero opts ∅ [b; a]
    = Returned (Planned [mkPlanItem b t1 dt false; mkPlanItem a t2 dt false]).
Proof. vm_compute. done. Qed.

(** * More of the planner *)

Ltac in_list := repeat (first [by left | right]).
Ltac not_in_list H :=
  repeat (apply elem_of_cons in H as [H|H]; [discriminate H|]);
  by apply elem_of_nil in H.

(** ** The allocator and the destination *)

(** X1.  The path [ensure_unique] returns does not exist, and for a path
    that does not exist the allocator changes nothing: asked again for its
    own result, it returns it. *)
Theorem ensure_unique_result_fresh (fs : FileStore) p r :
  ensure_unique fs p = Returned r →
  (r ∉ fs) ∧ ensure_unique fs r = Returned r.
Proof.
  intros Hrun.
  assert (r ∉ fs) as Hfresh.
  { apply ensure_unique_returned in Hrun as [[-> ?]|(_ & ? & _)]; done. }
  split; [done|]. unfold ensure_unique.
  apply path_exists_false in Hfresh. by rewrite Hfresh.
Qed.

Lemma ensure_unique_result_fresh_witness :
  let p := mkPath false ["out"; "a.jpg"] in
  let r := mkPath false ["out"; "a__2.jpg"] in
  let fs : FileStore := {[ p; mkPath false ["out"; "a__1.jpg"] ]} in
  ensure_unique fs p = Returned r
  ∧ (r ∉ fs) ∧ ensure_unique fs r = Returned r.
Proof.
  intros p r fs.
  assert (ensure_unique fs p = Returned r) as Hrun by (vm_compute; reflexivity).
  split; [exact Hrun|]. exact (ensure_unique_result_fresh fs p r Hrun).
Defined.

(** X2.  An existing path without a name (the current directory, the root)
    makes the allocator raise [ValueError]: [with_name] refuses it. *)
Theorem ensure_unique_empty_name (fs : FileStore) p :
  name p = "" → p ∈ fs → ensure_unique fs p = Raised ValueError.
Proof.
  intros Hname Hin. unfold ensure_unique.
  apply path_exists_true in Hin. rewrite Hin. cbn [negb ensure_unique_loop].
  unfold with_name. apply str_eqb_eq in Hname. by rewrite Hname.
Qed.

Lemma ensure_unique_empty_name_witness :
  name Path_empty = "" ∧ Path_empty ∈ ({[ Path_empty ]} : FileStore)
  ∧ ensure_unique {[ Path_empty ]} Path_empty = Raised ValueError.
Proof.
  assert (name Path_empty = "") as Hname by reflexivity.
  assert (Path_empty ∈ ({[ Path_empty ]} : FileStore)) as Hin
    by (by apply elem_of_singleton).
  split_and!; [exact Hname | exact Hin |].
  exact (ensure_unique_empty_name {[ Path_empty ]} Path_empty Hname Hin).
Defined.

(** ** Where the targets are *)

Lemma target_path_parts env opts x n :
  target_path env opts x n
  = mkPath (absolute (output_dir opts))
      ((parts (output_dir opts) ++ layout_dirs env (subfolders opts) (capture_dt x))
       ++ [base_stem env (capture_dt x) n +:+ OUTPUT_FORMAT_TO_EXT (output_format opts)]).
Proof.
  unfold target_path.
  rewrite build_target_path_parts by apply plain_ext_OUTPUT_FORMAT.
  by rewrite app_assoc.
Qed.

(** The path allocated for a computed target: next to it, with the same
    extension, and not there yet. *)
Lemma allocated_target env opts (fs : FileStore) x n t :
  ensure_unique fs (target_path env opts x n) = Returned t →
  (t ∉ fs)
  ∧ parent t
    = mkPath (absolute (output_dir opts))
        (parts (output_dir opts) ++ layout_dirs env (subfolders opts) (capture_dt x))
  ∧ suffix t = OUTPUT_FORMAT_TO_EXT (output_format opts).
Proof.
  intros Hrun.
  pose proof (plain_ext_OUTPUT_FORMAT (output_format opts)) as Hext.
  destruct (target_stem_suffix env (output_dir opts) (capture_dt x) n (subfolders opts)
              _ Hext) as (_ & Hstem & Hsuf).
  cbv zeta in Hstem, Hsuf. fold (target_path env opts x n) in Hstem, Hsuf.
  apply ensure_unique_returned in Hrun as [[-> Hout]|(_ & Hout & k & _ & ->)].
  - split_and!; [done | | done]. rewrite target_path_parts. apply parent_snoc.
  - split_and!; [done | |].
    + rewrite parent_sibling, target_path_parts. apply parent_snoc.
    + rewrite Hstem, Hsuf. unfold suffix. rewrite name_sibling. unfold candidate_name.
      replace (base_stem env (capture_dt x) n +:+ "__" +:+ str_of_int k
               +:+ OUTPUT_FORMAT_TO_EXT (output_format opts))
        with ((base_stem env (capture_dt x) n +:+ "__" +:+ str_of_int k)
              +:+ OUTPUT_FORMAT_TO_EXT (output_format opts))
        by (by rewrite !str_app_assoc).
      apply name_suffix_app; [|apply Hext].
      pose proof (base_stem_nonempty env (capture_dt x) n).
      by destruct (base_stem env (capture_dt x) n).
Qed.

(** X3.  Every target of a plan is a path that does not exist when the
    plan is made; it lies in the output directory, under the directories
    of the layout policy for the item's own timestamp; its extension is the
    one of the output format, which the scan accepts as input. *)
Theorem plan_targets_placed env opts (fs : FileStore) input_files plan :
  main env opts fs input_files = Returned (Planned plan) →
  ∀ item,
    item ∈ plan →
    (target item ∉ fs)
    ∧ parent (target item)
      = mkPath (absolute (output_dir opts))
          (parts (output_dir opts)
           ++ layout_dirs env (subfolders opts) (capture_dt item))
    ∧ suffix (target item) = OUTPUT_FORMAT_TO_EXT (output_format opts)
    ∧ lower (suffix (target item)) ∈ SUPPORTED_INPUT_EXTS.
Proof.
  intros (_ & _ & Hplan)%main_planned. intros item [i Hi]%list_elem_of_lookup.
  destruct (plan_number env opts fs input_files plan Hplan i item Hi) as [_ Hrun].
  destruct (allocated_target env opts fs item _ _ Hrun) as (Hfresh & Hparent & Hsuf).
  split_and!; try done. rewrite Hsuf.
  destruct (output_format opts); cbn; in_list.
Qed.

Lemma plan_targets_placed_witness :
  let files := [mkPath false ["in"; "IMG_20240305_100000.jpg"]] in
  let opts := mkOptions (mkPath false ["out"]) webp "month" true in
  let fs : FileStore :=
    {[ mkPath false ["out"; "2024"; "03"; "2024-03-05_10-00-00_0001.webp"] ]} in
  ∃ plan,
    main env_birth_zero opts fs files = Returned (Planned plan)
    ∧ target <$> plan
      = [mkPath false ["out"; "2024"; "03"; "2024-03-05_10-00-00_0001__1.webp"]]
    ∧ ∀ item,
        item ∈ plan →
        (target item ∉ fs)
        ∧ parent (target item)
          = mkPath (absolute (output_dir opts))
              (parts (output_dir opts)
               ++ layout_dirs env_birth_zero (subfolders opts) (capture_dt item))
        ∧ suffix (target item) = OUTPUT_FORMAT_TO_EXT (output_format opts)
        ∧ lower (suffix (target item)) ∈ SUPPORTED_INPUT_EXTS.
Proof.
  intros files opts fs. eexists. split; [vm_compute; reflexivity|].
  split; [reflexivity|].
  refine (plan_targets_placed env_birth_zero opts fs files _ _).
  vm_compute. reflexivity.
Defined.

(** X4.  With an empty destination every target is the computed path
    itself, base name and number, and no [__k] is added. *)
Theorem plan_targets_on_empty_destination env opts input_files plan :
  main env opts ∅ input_files = Returned (Planned plan) →
  ∀ i item,
    plan !! i = Some item →
    target item
    = build_target_path env (output_dir opts) (capture_dt item)
        (1 + count_second (second_of item) (take i plan))
        (subfolders opts) (OUTPUT_FORMAT_TO_EXT (output_format opts)).
Proof.
  intros (_ & _ & Hplan)%main_planned. intros i item Hi.
  destruct (plan_number env opts ∅ input_files plan Hplan i item Hi) as [_ Hrun].
  apply ensure_unique_returned in Hrun as [[-> _]|(Hin & _)]; [done|].
  by apply not_elem_of_empty in Hin.
Qed.

Lemma plan_targets_on_empty_destination_witness :
  let files := [mkPath false ["in"; "IMG_20240305_100000.jpg"];
                mkPath false ["in"; "IMG_20240305_100000.png"]] in
  let opts := mkOptions (mkPath false ["out"]) jpeg "year" false in
  ∃ plan,
    main env_birth_zero opts ∅ files = Returned (Planned plan)
    ∧ target <$> plan
      = [mkPath false ["out"; "2024"; "2024-03-05_10-00-00_0001.jpg"];
         mkPath false ["out"; "2024"; "2024-03-05_10-00-00_0002.jpg"]]
    ∧ ∀ i item,
        plan !! i = Some item →
        target item
        = build_target_path env_birth_zero (output_dir opts) (capture_dt item)
            (1 + count_second (second_of item) (take i plan))
            (subfolders opts) (OUTPUT_FORMAT_TO_EXT (output_format opts)).
Proof.
  intros files opts. eexists. split; [vm_compute; reflexivity|].
  split; [reflexivity|].
  refine (plan_targets_on_empty_destination env_birth_zero opts files _ _).
  vm_compute. reflexivity.
Defined.

(** ** Computed paths and seconds *)

Lemma stamp_second env dt : stamp env (replace_microsecond_0 dt) = stamp env dt.
Proof. reflexivity. Qed.

Lemma layout_dirs_second env sub dt :
  layout_dirs env sub (replace_microsecond_0 dt) = layout_dirs env sub dt.
Proof. reflexivity. Qed.

(** X5.  Two computed target paths are the same path exactly when the two
    timestamps fall in the same whole second and the numbers are equal:
    microseconds never show in a path, and second and number can be read
    off it. *)
Theorem build_target_path_eq_iff env output_dir dt1 dt2 i1 i2 subfolders fmt :
  valid_datetime dt1 → valid_datetime dt2 → 0 ≤ i1 → 0 ≤ i2 →
  build_target_path env output_dir dt1 i1 subfolders (OUTPUT_FORMAT_TO_EXT fmt)
  = build_target_path env output_dir dt2 i2 subfolders (OUTPUT_FORMAT_TO_EXT fmt)
  ↔ replace_microsecond_0 dt1 = replace_microsecond_0 dt2 ∧ i1 = i2.
Proof.
  intros Hv1 Hv2 Hi1 Hi2.
  pose proof (plain_ext_OUTPUT_FORMAT fmt) as Hext.
  rewrite !build_target_path_parts by done. split.
  - intros [= Heq]. apply app_inv_head in Heq.
    apply (f_equal (λ l, List.last l "")) in Heq.
    rewrite !last_last in Heq.
    assert (no_digit_ahead (OUTPUT_FORMAT_TO_EXT fmt)) by (by destruct fmt).
    apply base_name_inj in Heq as (Hsec & Hnum & _); done.
  - intros [Hsec ->].
    rewrite <- (layout_dirs_second env subfolders dt1), <- (layout_dirs_second env subfolders dt2).
    unfold base_stem.
    rewrite <- (stamp_second env dt1), <- (stamp_second env dt2). by rewrite Hsec.
Qed.

Lemma build_target_path_eq_iff_witness :
  let dt1 := mkDatetime 2024 3 5 10 0 0 120000 in
  let dt2 := mkDatetime 2024 3 5 10 0 0 990000 in
  valid_datetime dt1 ∧ valid_datetime dt2 ∧ 0 ≤ 7
  ∧ build_target_path env_birth_zero (mkPath false ["out"]) dt1 7 "day"
      (OUTPUT_FORMAT_TO_EXT png)
    = build_target_path env_birth_zero (mkPath false ["out"]) dt2 7 "day"
        (OUTPUT_FORMAT_TO_EXT png).
Proof.
  intros dt1 dt2.
  assert (valid_datetime dt1) as Hv1 by reflexivity.
  assert (valid_datetime dt2) as Hv2 by reflexivity.
  assert (0 ≤ 7) as Hi by lia.
  split_and!; [exact Hv1 | exact Hv2 | exact Hi |].
  apply (build_target_path_eq_iff env_birth_zero (mkPath false ["out"]) dt1 dt2 7 7
           "day" png Hv1 Hv2 Hi Hi).
  split; reflexivity.
Defined.

(** ** Files and their items *)

(** The items of the plan, one by one, are the sorted items: same source,
    same timestamp, same decision. *)
Lemma plan_same_items env opts (fs : FileStore) input_files plan :
  Forall2 (λ xn y, allocated env opts fs xn.1 xn.2 y)
    (zip (sorted_items env opts input_files)
         (seq_numbers seq_init (sorted_items env opts input_files)))
    plan →
  Forall2 (λ x y, source y = source x ∧ capture_dt y = capture_dt x
                  ∧ needs_reencode y = needs_reencode x)
    (sorted_items env opts input_files) plan.
Proof.
  intros Hplan.
  rewrite <- (fst_zip (sorted_items env opts input_files)
                (seq_numbers seq_init (sorted_items env opts input_files)))
    by (by rewrite seq_numbers_length).
  apply Forall2_fmap_l. eapply Forall2_impl; [exact Hplan|].
  intros [x n] y [-> _]. done.
Qed.

Lemma filter_item_of env opts dt nm (files : list Path) :
  source <$> filter (λ y, capture_dt y = dt ∧ name (source y) = nm)
               (item_of env opts <$> files)
  = filter (λ p, resolved env p = dt ∧ name p = nm) files.
Proof.
  induction files as [|p files IH]; [done|].
  rewrite fmap_cons, !filter_cons. cbn [item_of capture_dt source].
  destruct (decide (resolved env p = dt ∧ name p = nm)); cbn; by rewrite IH.
Qed.

Lemma filter_resolved env dt nm (files : list Path) :
  Forall (resolves env) files →
  filter (λ p, resolved env p = dt ∧ name p = nm) files
  = filter (λ p, determine_capture_datetime env p = Returned dt ∧ name p = nm) files.
Proof.
  induction 1 as [|p files Hp _ IH]; [done|]. rewrite !filter_cons, IH.
  apply determine_capture_datetime_resolved in Hp.
  destruct (decide (resolved env p = dt ∧ name p = nm)) as [[Hd Hn]|Hno];
    destruct (decide (determine_capture_datetime env p = Returned dt ∧ name p = nm))
      as [[Hd' Hn']|Hno']; try done.
  - destruct Hno'. split; [|done]. by rewrite Hp, Hd.
  - destruct Hno. split; [|done]. rewrite Hp in Hd'. by injection Hd'.
Qed.

(** X6.  Files with the same timestamp and the same name (one name in two
    directories) are in a plan in the order the scan listed them: the
    sort is stable. *)
Theorem plan_keeps_listing_order_of_equal_keys env opts (fs : FileStore) input_files plan :
  main env opts fs input_files = Returned (Planned plan) →
  ∀ dt nm,
    source <$> filter (λ y, capture_dt y = dt ∧ name (source y) = nm) plan
    = filter (λ p, determine_capture_datetime env p = Returned dt ∧ name p = nm)
        input_files.
Proof.
  intros (_ & Hres & Hplan)%main_planned. intros dt nm.
  apply plan_same_items in Hplan.
  assert (source <$> filter (λ y, capture_dt y = dt ∧ name (source y) = nm) plan
          = source <$> filter (λ y, capture_dt y = dt ∧ name (source y) = nm)
                         (sorted_items env opts input_files)) as ->.
  { symmetry. apply list_eq_Forall2, Forall2_fmap.
    eapply Forall2_impl.
    - apply (Forall2_filter _ (λ y, capture_dt y = dt ∧ name (source y) = nm)
                             (λ y, capture_dt y = dt ∧ name (source y) = nm));
        [|exact Hplan].
      intros x y (Hs & Hd & _). by rewrite Hs, Hd.
    - intros x y (Hs & _). done. }
  unfold sorted_items.
  rewrite (list_filter_iff _ (λ y, sort_key y = (dt, nm))).
  2:{ intros y. unfold sort_key. split; [by intros [-> ->] | by intros [= -> ->]]. }
  rewrite plan_sort_stable.
  rewrite (list_filter_iff _ (λ y, capture_dt y = dt ∧ name (source y) = nm)).
  2:{ intros y. unfold sort_key. split; [by intros [= -> ->] | by intros [-> ->]]. }
  rewrite filter_item_of. by apply filter_resolved.
Qed.

Lemma plan_keeps_listing_order_of_equal_keys_witness :
  let a := mkPath false ["in"; "a"; "IMG_20240305_100000.jpg"] in
  let b := mkPath false ["in"; "b"; "IMG_20240305_100000.jpg"] in
  let opts := mkOptions (mkPath false ["out"]) jpeg "none" true in
  ∃ plan,
    main env_birth_zero opts ∅ [b; a] = Returned (Planned plan)
    ∧ source <$> plan = [b; a]
    ∧ ∀ dt nm,
        source <$> filter (λ y, capture_dt y = dt ∧ name (source y) = nm) plan
        = filter (λ p, determine_capture_datetime env_birth_zero p = Returned dt
                       ∧ name p = nm) [b; a].
Proof.
  intros a b opts. eexists. split; [vm_compute; reflexivity|].
  split; [reflexivity|].
  refine (plan_keeps_listing_order_of_equal_keys env_birth_zero opts ∅ [b; a] _ _).
  vm_compute. reflexivity.
Defined.




(** ** The scan and the decision to re-encode *)

(** The scan yields files only, with a supported extension in any case of
    letters, in the order of the listing. *)
Lemma iter_input_files_sound ls root (recursive : bool) :
  let listing := if recursive then rglob ls root else iterdir ls root in
  iter_input_files ls root recursive `sublist_of` listing
  ∧ (∀ p : Path, p ∈ iter_input_files ls root recursive ↔
          p ∈ listing ∧ is_file ls p = true
          ∧ lower (suffix p) ∈ SUPPORTED_INPUT_EXTS).
Proof.
  intros listing.
  assert (iter_input_files ls root recursive
          = filter (λ p, is_input_file ls p = true) listing) as ->
    by (unfold iter_input_files, listing; by destruct recursive).
  split; [apply sublist_filter|].
  intros p. rewrite list_elem_of_filter. unfold is_input_file.
  rewrite andb_true_iff, bool_decide_eq_true. tauto.
Qed.

(** X8.  From the scan to the plan: every item of a plan comes from a
    file of the listing with a supported extension.  An item that is
    copied, not re-encoded, gets a target with the extension of its source
    in lower case, so a byte copy never changes the format a name stands
    for; and a source named .jpeg, .tif, .heic or .heif is re-encoded
    whatever the options are. *)
Theorem scanned_files_planned ls root (recursive : bool) env opts (fs : FileStore) plan :
  main env opts fs (iter_input_files ls root recursive) = Returned (Planned plan) →
  ∀ item,
    item ∈ plan →
    source item ∈ (if recursive then rglob ls root else iterdir ls root)
    ∧ is_file ls (source item) = true
    ∧ lower (suffix (source item)) ∈ SUPPORTED_INPUT_EXTS
    ∧ (needs_reencode item = false →
       suffix (target item) = lower (suffix (source item)))
    ∧ (lower (suffix (source item)) ∈ [".jpeg"; ".tif"; ".heic"; ".heif"] →
       needs_reencode item = true).
Proof.
  intros (_ & _ & Hplan)%main_planned. intros item [i Hi]%list_elem_of_lookup.
  destruct (plan_number env opts fs _ plan Hplan i item Hi) as [_ Hrun].
  destruct (allocated_target env opts fs item _ _ Hrun) as (_ & _ & Hsuf).
  destruct (plan_fields env opts fs _ plan Hplan i item Hi) as (x & Hx & Hs & _ & Hr).
  apply list_elem_of_lookup_2 in Hx. unfold sorted_items in Hx.
  rewrite plan_sort_perm in Hx. apply list_elem_of_fmap in Hx as (path & -> & Hp).
  cbn [item_of source needs_reencode] in Hs, Hr. rewrite Hs, Hr, Hsuf.
  apply (iter_input_files_sound ls root recursive) in Hp as (Hin & Hfile & Hsup).
  unfold copies_unchanged. split_and!; try done.
  - rewrite negb_false_iff, andb_true_iff, str_eqb_eq. by intros [_ ->].
  - intros Hext. apply negb_true_iff, andb_false_iff. right. apply str_eqb_neq.
    intros Heq. rewrite Heq in Hext.
    destruct (output_format opts); cbn in Hext; not_in_list Hext.
Qed.

Lemma scanned_files_planned_witness :
  let a := mkPath false ["in"; "A.JPG"] in
  let b := mkPath false ["in"; "b.jpeg"] in
  let c := mkPath false ["in"; "notes.txt"] in
  let ls := mkListing (λ _, [a; b; c]) (λ _, [a; b; c]) (λ _, true) in
  let opts := mkOptions (mkPath false ["out"]) jpeg "none" true in
  ∃ plan,
    main env_birth_zero opts ∅ (iter_input_files ls (mkPath false ["in"]) false)
    = Returned (Planned plan)
    ∧ source <$> plan = [a; b]
    ∧ ∀ item,
        item ∈ plan →
        source item ∈ iterdir ls (mkPath false ["in"])
        ∧ is_file ls (source item) = true
        ∧ lower (suffix (source item)) ∈ SUPPORTED_INPUT_EXTS
        ∧ (needs_reencode item = false →
           suffix (target item) = lower (suffix (source item)))
        ∧ (lower (suffix (source item)) ∈ [".jpeg"; ".tif"; ".heic"; ".heif"] →
           needs_reencode item = true).
Proof.
  intros a b c ls opts. eexists. split; [vm_compute; reflexivity|].
  split; [reflexivity|].
  refine (scanned_files_planned ls (mkPath false ["in"]) false env_birth_zero opts ∅ _ _).
  vm_compute. reflexivity.
Defined.

(** ** From a target name back to the timestamp *)

Lemma range_check (P : Z → bool) lo len :
  forallb P (seqZ lo len) = true → ∀ n, lo ≤ n < lo + len → P n = true.
Proof.
  intros Hall n Hn. rewrite forallb_forall in Hall. apply Hall.
  apply list_elem_of_In, elem_of_seqZ. lia.
Qed.

Lemma month_chars n : 1 ≤ n ≤ 12 → two_chars month_cls n = true.
Proof. intros Hn. apply (range_check _ 1 12); [by vm_compute | lia]. Qed.

Lemma day_chars n : 1 ≤ n ≤ 31 → two_chars day_cls n = true.
Proof. intros Hn. apply (range_check _ 1 31); [by vm_compute | lia]. Qed.

Lemma hour_chars n : 0 ≤ n ≤ 23 → two_chars hour_cls n = true.
Proof. intros Hn. apply (range_check _ 0 24); [by vm_compute | lia]. Qed.

Lemma sixty_chars n : 0 ≤ n ≤ 59 → two_chars sixty_cls n = true.
Proof. intros Hn. apply (range_check _ 0 60); [by vm_compute | lia]. Qed.

Lemma century_chars n : 2000 ≤ n ≤ 2099 → year_chars n = true.
Proof. intros Hn. apply (range_check _ 2000 100); [by vm_compute | lia]. Qed.

Lemma two_chars_inv cls n :
  two_chars cls n = true →
  ∃ a b, format_0d 2 n = String a (String b "") ∧ cls a b = true
         ∧ int_of_str (String a (String b "")) = Returned n.
Proof.
  unfold two_chars. destruct (format_0d 2 n) as [|a [|b [|]]]; try done.
  intros [Hc Hi%bool_decide_eq_true]%andb_prop. by exists a, b.
Qed.

Lemma year_chars_inv n :
  year_chars n = true →
  ∃ a b, format_0d 4 n = String "2" (String "0" (String a (String b "")))
         ∧ is_digit a = true ∧ is_digit b = true
         ∧ int_of_str (String "2" (String "0" (String a (String b "")))) = Returned n.
Proof.
  unfold year_chars. destruct (format_0d 4 n) as [|c1 [|c2 [|a [|b [|]]]]]; try done.
  rewrite !andb_true_iff, bool_decide_eq_true, !char_eqb_eq.
  intros ((((<- & <-) & Ha) & Hb) & Hi). by exists a, b.
Qed.

Lemma take_prefix_length (l : nat) : (S (S l) - l = 2)%nat ∧ (S (S (S (S l))) - l = 4)%nat.
Proof. lia. Qed.

Section re_match_chars.
Variables (rest : string) (gs m : match_groups).
Variable k : string → match_groups → option match_groups.

Lemma re_match_year a b :
  is_digit a = true → is_digit b = true →
  k rest (("y", String "2" (String "0" (String a (String b "")))) :: gs) = Some m →
  re_match (Grp "y" (Cat (lit "2") (Cat (lit "0") (Cat digit digit))))
    (String "2" (String "0" (String a (String b rest)))) gs k = Some m.
Proof using Type.
  intros Ha Hb Hk. cbn [re_match lit digit String.length].
  rewrite (proj2 (take_prefix_length _)). cbn [str_take].
  change (char_eqb "2" "2") with true. change (char_eqb "0" "0") with true.
  cbn iota. by rewrite Ha, Hb.
Qed.

Lemma re_match_opt f c :
  f c = true → k rest gs = Some m →
  re_match (Opt (Chr f)) (String c rest) gs k = Some m.
Proof using Type. intros Hc Hk. cbn [re_match]. by rewrite Hc, Hk. Qed.

Lemma re_match_two g f1 f2 a b :
  f1 a && f2 b = true →
  k rest ((g, String a (String b "")) :: gs) = Some m →
  re_match (Grp g (Cat (Chr f1) (Chr f2))) (String a (String b rest)) gs k = Some m.
Proof using Type.
  intros [Ha Hb]%andb_prop Hk. cbn [re_match String.length].
  rewrite (proj1 (take_prefix_length _)). cbn [str_take]. by rewrite Ha, Hb.
Qed.

Lemma re_match_two_alt g f1 f2 f3 f4 a b :
  (f1 a && f2 b) || (f3 a && f4 b) = true →
  k rest ((g, String a (String b "")) :: gs) = Some m →
  re_match (Grp g (Alt (Cat (Chr f1) (Chr f2)) (Cat (Chr f3) (Chr f4))))
    (String a (String b rest)) gs k = Some m.
Proof using Type.
  intros Hcls Hk. cbn [re_match String.length].
  rewrite (proj1 (take_prefix_length _)). cbn [str_take]. rewrite Hk.
  destruct (f1 a), (f2 b), (f3 a), (f4 b); done.
Qed.
End re_match_chars.

Lemma re_match_cat r1 r2 s gs k :
  re_match (Cat r1 r2) s gs k = re_match r1 s gs (λ s1 gs1, re_match r2 s1 gs1 k).
Proof. reflexivity. Qed.

Lemma valid_fields_second y mo d h mi s us :
  valid_fields y mo d h mi s us = true → valid_fields y mo d h mi s 0 = true.
Proof. unfold valid_fields. rewrite !andb_true_iff. intuition. Qed.

Lemma days_in_month_le y m : days_in_month y m ≤ 31.
Proof.
  unfold days_in_month. destruct (m =? 2); [by destruct (is_leap y)|].
  by destruct ((m =? 4) || (m =? 6) || (m =? 9) || (m =? 11)).
Qed.

Lemma valid_datetime_ranges dt :
  valid_datetime dt →
  1 ≤ month dt ≤ 12 ∧ 1 ≤ day dt ≤ 31 ∧ 0 ≤ hour dt ≤ 23
  ∧ 0 ≤ minute dt ≤ 59 ∧ 0 ≤ second dt ≤ 59.
Proof.
  unfold valid_datetime, valid_fields. rewrite !andb_true_iff, !Z.leb_le.
  pose proof (days_in_month_le (year dt) (month dt)). lia.
Qed.

(** The pattern matches a stamp at its start, with the six fields as the
    groups. *)
Lemma stamp_match env dt rest :
  valid_datetime dt → 2000 ≤ year dt ≤ 2099 →
  ∃ m, re_match name_pattern (stamp env dt +:+ rest) [] (λ _ gs, Some gs) = Some m
       ∧ datetime_of_match m = Returned (replace_microsecond_0 dt).
Proof.
  intros Hv Hy. destruct (valid_datetime_ranges dt Hv) as (Hmo & Hd & Hh & Hmi & Hs).
  destruct (year_chars_inv _ (century_chars _ Hy)) as (y1 & y2 & HY & Hy1 & Hy2 & HYi).
  destruct (two_chars_inv _ _ (month_chars _ Hmo)) as (mo1 & mo2 & HMO & Hmoc & HMOi).
  destruct (two_chars_inv _ _ (day_chars _ Hd)) as (d1 & d2 & HD & Hdc & HDi).
  destruct (two_chars_inv _ _ (hour_chars _ Hh)) as (h1 & h2 & HH & Hhc & HHi).
  destruct (two_chars_inv _ _ (sixty_chars _ Hmi)) as (mi1 & mi2 & HMI & Hmic & HMIi).
  destruct (two_chars_inv _ _ (sixty_chars _ Hs)) as (s1 & s2 & HS & Hsc & HSi).
  unfold stamp. rewrite (format_0d_four_digits _ _ (year_width_le env)) by lia.
  rewrite HY, HMO, HD, HH, HMI, HS. cbn [String.append].
  eexists. split.
  - unfold name_pattern.
    rewrite re_match_cat. apply re_match_year; [done..|].
    rewrite re_match_cat. apply re_match_opt; [done|].
    rewrite re_match_cat. apply re_match_two_alt; [exact Hmoc|].
    rewrite re_match_cat. apply re_match_opt; [done|].
    rewrite re_match_cat. apply re_match_two_alt; [exact Hdc|].
    rewrite re_match_cat. apply re_match_opt; [done|].
    rewrite re_match_cat. apply re_match_two_alt; [exact Hhc|].
    rewrite re_match_cat. apply re_match_opt; [done|].
    rewrite re_match_cat. apply re_match_two; [exact Hmic|].
    rewrite re_match_cat. apply re_match_opt; [done|].
    apply re_match_two; [exact Hsc|]. reflexivity.
  - unfold datetime_of_match, group_int. cbn [group].
    repeat (change (str_eqb ?a ?b) with (bool_decide (a = b));
            first [rewrite bool_decide_eq_true_2 by done
                  |rewrite bool_decide_eq_false_2 by done]).
    rewrite HYi, HMOi, HDi, HHi, HMIi, HSi. cbn [mbind outcome_bind].
    unfold datetime_new. unfold valid_datetime in Hv.
    by rewrite (valid_fields_second _ _ _ _ _ _ _ Hv).
Qed.

Lemma re_match_wrong_start c s gs k :
  c ≠ "2"%char → re_match name_pattern (String c s) gs k = None.
Proof.
  intros Hc. unfold name_pattern. cbn [re_match lit].
  assert (char_eqb "2" c = false) as -> by (apply char_eqb_neq; congruence). done.
Qed.

(** The search passes over a prefix in which no match can start. *)
Lemma re_search_skip prefix s :
  contains "2" prefix = false →
  re_search name_pattern (prefix +:+ s) = re_search name_pattern s.
Proof.
  induction prefix as [|c prefix IH]; [done|]. cbn [contains String.append].
  intros [Hc Hp]%orb_false_elim. apply char_eqb_neq in Hc.
  cbn [re_search]. by rewrite re_match_wrong_start, IH.
Qed.

Lemma re_search_at_start s m :
  re_match name_pattern s [] (λ _ gs, Some gs) = Some m →
  re_search name_pattern s = Some m.
Proof. intros H. destruct s; cbn [re_search]; by rewrite H. Qed.

(** X9.  A name that holds a stamp as [build_target_path] writes it, after
    any prefix without the digit 2 and before any rest, gives the extractor
    the timestamp of the stamp, to the second, for the years 2000 to
    2099. *)
Theorem try_parse_from_name_reads_stamp env prefix dt rest :
  valid_datetime dt → 2000 ≤ year dt ≤ 2099 → contains "2" prefix = false →
  try_parse_from_name (prefix +:+ strftime env dt "%Y-%m-%d_%H-%M-%S" +:+ rest)
  = Returned (Some (replace_microsecond_0 dt)).
Proof.
  intros Hv Hy Hp. rewrite try_parse_from_name_eq, strftime_stamp.
  unfold name_timestamp. rewrite re_search_skip by done.
  destruct (stamp_match env dt rest Hv Hy) as (m & Hm & Hdt).
  by rewrite (re_search_at_start _ _ Hm), Hdt.
Qed.

Lemma try_parse_from_name_reads_stamp_witness :
  let dt := mkDatetime 2024 2 29 23 59 58 123456 in
  valid_datetime dt ∧ (2000 ≤ year dt ≤ 2099) ∧ contains "2" "IMG_" = false
  ∧ try_parse_from_name
      ("IMG_" +:+ strftime env_birth_zero dt "%Y-%m-%d_%H-%M-%S" +:+ "_0001.jpg")
    = Returned (Some (mkDatetime 2024 2 29 23 59 58 0)).
Proof.
  intros dt.
  assert (valid_datetime dt) as Hv by reflexivity.
  assert (2000 ≤ year dt ≤ 2099) as Hy by (cbn; lia).
  assert (contains "2" "IMG_" = false) as Hp by reflexivity.
  split; [exact Hv|]. split; [exact Hy|]. split; [exact Hp|].
  exact (try_parse_from_name_reads_stamp env_birth_zero "IMG_" dt "_0001.jpg" Hv Hy Hp).
Defined.

(** X10.  The targets of a plan carry their timestamps: for an item of
    the years 2000 to 2099 the extractor reads the second of the item off
    the name of its target, so a file at the target without EXIF resolves
    to that second again. *)
Theorem plan_targets_resolve_again env opts (fs : FileStore) input_files plan :
  valid_env env →
  main env opts fs input_files = Returned (Planned plan) →
  ∀ item,
    item ∈ plan → 2000 ≤ year (capture_dt item) ≤ 2099 →
    try_parse_from_name (name (target item)) = Returned (Some (second_of item))
    ∧ ∀ env',
        exif_step env' (target item) = Returned None →
        determine_capture_datetime env' (target item)
        = Returned (second_of item).
Proof.
  intros Henv (_ & _ & Hplan)%main_planned. intros item [i Hi]%list_elem_of_lookup Hy.
  pose proof (plan_item_valid env opts fs input_files plan Henv Hplan i item Hi) as Hv.
  destruct (plan_number env opts fs input_files plan Hplan i item Hi) as [_ Hrun].
  apply allocated_name in Hrun as (tail & Hname & _);
    [|apply plain_ext_OUTPUT_FORMAT].
  assert (try_parse_from_name (name (target item)) = Returned (Some (second_of item)))
    as Hparse.
  { rewrite Hname, try_parse_from_name_eq. unfold base_stem, name_timestamp.
    rewrite !str_app_assoc.
    destruct (stamp_match env (capture_dt item)
                ("_" +:+ format_0d 4 (1 + count_second (second_of item) (take i plan))
                 +:+ tail) Hv Hy) as (m & Hm & Hdt).
    by rewrite (re_search_at_start _ _ Hm), Hdt. }
  split; [done|]. intros env' Hexif. unfold determine_capture_datetime.
  by rewrite Hexif, Hparse.
Qed.

Lemma plan_targets_resolve_again_witness :
  let files := [mkPath false ["in"; "IMG_20240305_100000.jpg"]] in
  let opts := mkOptions (mkPath false ["out"]) jpeg "day" true in
  valid_env env_birth_zero
  ∧ ∃ plan,
      main env_birth_zero opts ∅ files = Returned (Planned plan)
      ∧ target <$> plan
        = [mkPath false ["out"; "2024"; "03"; "05"; "2024-03-05_10-00-00_0001.jpg"]]
      ∧ ∀ item,
          item ∈ plan → 2000 ≤ year (capture_dt item) ≤ 2099 →
          try_parse_from_name (name (target item)) = Returned (Some (second_of item))
          ∧ ∀ env',
              exif_step env' (target item) = Returned None →
              determine_capture_datetime env' (target item)
              = Returned (second_of item).
Proof.
  intros files opts. split; [exact valid_env_birth_zero|].
  eexists. split; [vm_compute; reflexivity|]. split; [reflexivity|].
  refine (plan_targets_resolve_again env_birth_zero opts ∅ files _
            valid_env_birth_zero _).
  vm_compute. reflexivity.
Defined.

(** ** What the pattern can match *)

(** A match runs the continuation on the rest of the text and on the
    groups so far, with the groups of the pattern put in front. *)
Lemma re_match_groups r s gs k m :
  re_match r s gs k = Some m →
  ∃ s1 new, k s1 (new ++ gs) = Some m ∧ Forall (λ e, e.1 ∈ group_names r) new.
Proof.
  revert s gs k m.
  induction r as [f|r1 IH1 r2 IH2|r1 IH1 r2 IH2|r1 IH1|g r1 IH1];
    intros s gs k m; cbn [re_match group_names].
  - destruct s as [|c s]; [done|]. destruct (f c); [|done].
    intros Hk. by exists s, [].
  - intros (s1 & new1 & (s2 & new2 & Hk & Hn2)%IH2 & Hn1)%IH1.
    exists s2, (new2 ++ new1). rewrite <- app_assoc. split; [done|].
    apply Forall_app. split; eapply Forall_impl; eauto; cbn; intros e He;
      apply elem_of_app; auto.
  - destruct (re_match r1 s gs k) eqn:E1.
    + intros [= <-]. apply IH1 in E1 as (s1 & new & Hk & Hn).
      exists s1, new. split; [done|].
      eapply Forall_impl; eauto; cbn; intros e He; apply elem_of_app; auto.
    + intros (s1 & new & Hk & Hn)%IH2. exists s1, new. split; [done|].
      eapply Forall_impl; eauto; cbn; intros e He; apply elem_of_app; auto.
  - destruct (re_match r1 s gs k) eqn:E1.
    + intros [= <-]. by apply IH1 in E1.
    + intros Hk. by exists s, [].
  - intros (s1 & new & Hk & Hn)%IH1. eexists s1, (_ :: new). split; [exact Hk|].
    constructor; [by left|]. eapply Forall_impl; eauto; cbn; intros e He. by right.
Qed.

Lemma re_match_year_inv s gs k m :
  re_match (Grp "y" (Cat (lit "2") (Cat (lit "0") (Cat digit digit)))) s gs k = Some m →
  ∃ a b rest,
    is_digit a = true ∧ is_digit b = true
    ∧ k rest (("y", String "2" (String "0" (String a (String b "")))) :: gs) = Some m.
Proof.
  cbn [re_match lit digit].
  destruct s as [|c1 [|c2 [|a [|b rest]]]];
    repeat (match goal with
            | |- context [char_eqb ?x ?y] =>
                let E := fresh "E" in destruct (char_eqb x y) eqn:E; [|done]
            | |- context [is_digit ?x] =>
                let E := fresh "E" in destruct (is_digit x) eqn:E; [|done]
            end); try done.
  apply char_eqb_eq in E, E0. subst c1 c2. cbn [String.length].
  rewrite (proj2 (take_prefix_length _)). cbn [str_take]. intros Hk.
  by exists a, b, rest.
Qed.

Lemma re_search_inv r s m :
  re_search r s = Some m → ∃ s', re_match r s' [] (λ _ gs, Some gs) = Some m.
Proof.
  induction s as [|c s IH]; cbn [re_search].
  - destruct (re_match r "" [] _) eqn:E; [|done]. intros [= <-]. eauto.
  - destruct (re_match r (String c s) [] _) eqn:E; [intros [= <-]; eauto | done].
Qed.

Lemma group_skip new gs g :
  Forall (λ e : string * string, e.1 ≠ g) new → group (new ++ gs) g = group gs g.
Proof.
  induction 1 as [|[g' v] new Hg _ IH]; [done|]. cbn [app group].
  cbn in Hg. apply str_eqb_neq in Hg. by rewrite Hg.
Qed.

Lemma digit_value_range a :
  is_digit a = true → 0 ≤ Z.of_N (N_of_ascii a - 48) ≤ 9.
Proof.
  unfold is_digit, in_range. rewrite andb_true_iff, !N.leb_le.
  change (N_of_ascii "0") with 48%N. change (N_of_ascii "9") with 57%N. lia.
Qed.

Lemma int_of_century a b y :
  is_digit a = true → is_digit b = true →
  int_of_str (String "2" (String "0" (String a (String b "")))) = Returned y →
  2000 ≤ y ≤ 2099.
Proof.
  intros Ha Hb. cbn [int_of_str int_digits].
  change (is_digit "2") with true. change (is_digit "0") with true. cbn iota.
  rewrite Ha, Hb. intros [= <-].
  pose proof (digit_value_range a Ha). pose proof (digit_value_range b Hb).
  change (N_of_ascii "2" - 48)%N with 2%N. change (N_of_ascii "0" - 48)%N with 0%N.
  lia.
Qed.

(** The year group of any match of the pattern is [20] and two digits. *)
Lemma name_pattern_year s m :
  re_match name_pattern s [] (λ _ gs, Some gs) = Some m →
  ∃ a b, is_digit a = true ∧ is_digit b = true
         ∧ group m "y" = Some (String "2" (String "0" (String a (String b "")))).
Proof.
  unfold name_pattern. rewrite re_match_cat.
  intros (a & b & rest & Ha & Hb & Hk)%re_match_year_inv.
  apply re_match_groups in Hk as (s1 & new & [= <-] & Hnew).
  exists a, b. split_and!; [done..|]. rewrite group_skip; [cbn; done|].
  eapply Forall_impl; [exact Hnew|]. intros [g v] He Hg. cbn in He, Hg. subst g.
  not_in_list He.
Qed.

(** X11.  A date the extractor takes from a file name is in the years
    2000 to 2099 and has no microseconds. *)
Theorem try_parse_from_name_century nm dt :
  try_parse_from_name nm = Returned (Some dt) →
  2000 ≤ year dt ≤ 2099 ∧ microsecond dt = 0.
Proof.
  rewrite try_parse_from_name_eq. unfold name_timestamp.
  destruct (re_search name_pattern nm) as [m|] eqn:Hs; [|done].
  destruct (datetime_of_match m) as [dt'| |] eqn:Hm; try done. intros [= ->].
  apply re_search_inv in Hs as (s' & Hs).
  apply name_pattern_year in Hs as (a & b & Ha & Hb & Hy).
  unfold datetime_of_match, group_int in Hm. rewrite Hy in Hm.
  destruct (int_of_str (String "2" _)) as [y| |] eqn:Hyi; try done.
  apply int_of_century in Hyi; [|done..]. cbn [mbind outcome_bind] in Hm.
  repeat (match type of Hm with
          | context [group m ?g] => destruct (group m g) as [?|]; [|done]
          | context [int_of_str ?t] => destruct (int_of_str t); [|done..]
          end; cbn [mbind outcome_bind] in Hm).
  unfold datetime_new in Hm. destruct (valid_fields _ _ _ _ _ _ _); [|done].
  injection Hm as <-. done.
Qed.

Lemma try_parse_from_name_century_witness :
  try_parse_from_name "PXL_20991231_235959.jpg"
  = Returned (Some (mkDatetime 2099 12 31 23 59 59 0))
  ∧ (2000 ≤ 2099 ≤ 2099).
Proof.
  assert (try_parse_from_name "PXL_20991231_235959.jpg"
          = Returned (Some (mkDatetime 2099 12 31 23 59 59 0))) as Hrun
    by (vm_compute; reflexivity).
  split; [exact Hrun|].
  exact (proj1 (try_parse_from_name_century _ _ Hrun)).
Defined.

Example ex_name_1999 : try_parse_from_name "IMG_19991231_235959.jpg" = Returned None.
Proof. vm_compute. reflexivity. Qed.

(** ** The order of target names *)

Lemma comparison_eqb_eq c d : comparison_eqb c d = true → c = d.
Proof. by destruct c, d. Qed.

Lemma ascii_compare_refl c : Ascii.compare c c = Eq.
Proof. apply N.compare_refl. Qed.

Lemma str_compare_refl s : String.compare s s = Eq.
Proof.
  induction s as [|c s IH]; [done|]. cbn [String.compare].
  by rewrite ascii_compare_refl.
Qed.

(** Texts with heads of one length compare by the heads first. *)
Lemma str_compare_app s s' t t' :
  String.length s = String.length s' →
  String.compare (s +:+ t) (s' +:+ t')
  = match String.compare s s' with
    | Eq => String.compare t t'
    | c => c
    end.
Proof.
  revert s'. induction s as [|c s IH]; intros [|c' s'] Hlen; try done.
  cbn [String.append String.compare]. injection Hlen as Hlen.
  destruct (Ascii.compare c c'); [by apply IH | done..].
Qed.

Lemma str_compare_field s s' sep t t' :
  String.length s = String.length s' →
  String.compare (s +:+ String sep t) (s' +:+ String sep t')
  = match String.compare s s' with
    | Eq => String.compare t t'
    | c => c
    end.
Proof.
  intros Hlen. rewrite str_compare_app by done. cbn [String.compare].
  by rewrite ascii_compare_refl.
Qed.

Lemma two_digits_facts a b :
  0 ≤ a ≤ 99 → 0 ≤ b ≤ 99 →
  String.length (format_0d 2 a) = 2%nat
  ∧ String.compare (format_0d 2 a) (format_0d 2 b) = (a ?= b).
Proof.
  intros Ha Hb.
  assert (two_digits_ordered a = true) as [Hlen Hall]%andb_prop
    by (apply (range_check _ 0 100); [by vm_compute | lia]).
  split; [by apply Nat.eqb_eq|].
  apply comparison_eqb_eq. apply (range_check _ 0 100 Hall). lia.
Qed.

Lemma four_digits_facts a b :
  0 ≤ a ≤ 9999 → 0 ≤ b ≤ 9999 →
  String.length (format_0d 4 a) = 4%nat
  ∧ String.compare (format_0d 4 a) (format_0d 4 b) = (a ?= b).
Proof.
  intros Ha Hb.
  assert (∀ n, 0 ≤ n ≤ 9999 →
               format_0d 4 n = format_0d 2 (n / 100) +:+ format_0d 2 (n mod 100)) as Hsplit.
  { intros n Hn. apply str_eqb_eq.
    apply (range_check four_digits_split 0 10000); [by vm_compute | lia]. }
  assert (∀ n, 0 ≤ n ≤ 9999 → 0 ≤ n / 100 ≤ 99 ∧ 0 ≤ n mod 100 ≤ 99) as Hparts.
  { intros n Hn. pose proof (Z.mod_pos_bound n 100).
    assert (0 ≤ n / 100) by (apply Z.div_pos; lia).
    assert (n / 100 < 100) by (apply Z.div_lt_upper_bound; lia). lia. }
  destruct (Hparts a Ha) as [Ha1 Ha2], (Hparts b Hb) as [Hb1 Hb2].
  destruct (two_digits_facts (a / 100) (b / 100) Ha1 Hb1) as [Hl1 Hc1].
  destruct (two_digits_facts (a mod 100) (b mod 100) Ha2 Hb2) as [Hl2 Hc2].
  destruct (two_digits_facts (b / 100) (b / 100) Hb1 Hb1) as [Hl3 _].
  rewrite !Hsplit by done. split.
  - rewrite str_app_length. lia.
  - rewrite str_compare_app by congruence. rewrite Hc1, Hc2.
    pose proof (Z.div_mod a 100). pose proof (Z.div_mod b 100).
    destruct (a / 100 ?= b / 100) eqn:E1, (a mod 100 ?= b mod 100) eqn:E2;
      symmetry; rewrite ?Z.compare_eq_iff, ?Z.compare_lt_iff, ?Z.compare_gt_iff in *;
      lia.
Qed.

Lemma valid_datetime_year dt : valid_datetime dt → 0 ≤ year dt ≤ 9999.
Proof.
  unfold valid_datetime, valid_fields. rewrite !andb_true_iff, !Z.leb_le. lia.
Qed.

(** X12.  The names of two computed targets with the same extension
    compare, as texts, the way their seconds compare and then their
    numbers, for years of four digits and numbers up to 9999: a listing
    sorted by name is sorted by time. *)
Theorem target_names_sort_by_time env output_dir dt1 dt2 i1 i2 sub1 sub2 fmt :
  valid_datetime dt1 → valid_datetime dt2 →
  four_digit_year env dt1 → four_digit_year env dt2 →
  0 ≤ i1 ≤ 9999 → 0 ≤ i2 ≤ 9999 →
  String.compare
    (name (build_target_path env output_dir dt1 i1 sub1 (OUTPUT_FORMAT_TO_EXT fmt)))
    (name (build_target_path env output_dir dt2 i2 sub2 (OUTPUT_FORMAT_TO_EXT fmt)))
  = second_then_number dt1 dt2 i1 i2.
Proof.
  intros Hv1 Hv2 Hy1 Hy2 Hi1 Hi2.
  rewrite !build_target_path_name by apply plain_ext_OUTPUT_FORMAT.
  destruct (valid_datetime_ranges dt1 Hv1) as (?&?&?&?&?).
  destruct (valid_datetime_ranges dt2 Hv2) as (?&?&?&?&?).
  pose proof (valid_datetime_year dt1 Hv1). pose proof (valid_datetime_year dt2 Hv2).
  destruct (four_digits_facts (year dt1) (year dt2)) as [LY CY]; [lia..|].
  destruct (four_digits_facts (year dt2) (year dt2)) as [LY' _]; [lia..|].
  destruct (four_digits_facts i1 i2) as [LI CI]; [lia..|].
  destruct (four_digits_facts i2 i2) as [LI' _]; [lia..|].
  assert (∀ a b, 0 ≤ a ≤ 99 → 0 ≤ b ≤ 99 →
                 String.length (format_0d 2 a) = String.length (format_0d 2 b)) as L2.
  { intros a b Ha Hb. destruct (two_digits_facts a b Ha Hb) as [-> _].
    by destruct (two_digits_facts b b Hb Hb) as [-> _]. }
  assert (∀ a b, 0 ≤ a ≤ 99 → 0 ≤ b ≤ 99 →
                 String.compare (format_0d 2 a) (format_0d 2 b) = (a ?= b)) as C2.
  { intros a b Ha Hb. by destruct (two_digits_facts a b Ha Hb) as [_ ->]. }
  unfold base_stem, stamp. rewrite !four_digit_year_text by done.
  rewrite !str_app_assoc. cbn [String.append].
  rewrite str_compare_field by congruence.
  rewrite !(str_compare_field (format_0d 2 _)) by (apply L2; lia).
  rewrite str_compare_app by congruence.
  rewrite CY, CI, !C2, str_compare_refl by lia.
  unfold second_then_number, dt_cmp, replace_microsecond_0, dt_tuple.
  cbn [tuple_cmp year month day hour minute second microsecond].
  repeat (match goal with
          | |- context [match ?x ?= ?y with _ => _ end] =>
              lazymatch x with
              | 0 => fail
              | _ => destruct (x ?= y); try done
              end
          end).
Qed.

Lemma target_names_sort_by_time_witness :
  let dt1 := mkDatetime 2024 3 5 10 0 0 900000 in
  let dt2 := mkDatetime 2024 3 5 10 0 0 100000 in
  valid_datetime dt1 ∧ valid_datetime dt2
  ∧ four_digit_year env_birth_zero dt1 ∧ four_digit_year env_birth_zero dt2
  ∧ (0 ≤ 9 ≤ 9999) ∧ (0 ≤ 10 ≤ 9999)
  ∧ String.compare
      (name (build_target_path env_birth_zero (mkPath false ["out"]) dt1 9 "none"
               (OUTPUT_FORMAT_TO_EXT jpeg)))
      (name (build_target_path env_birth_zero (mkPath false ["out"]) dt2 10 "day"
               (OUTPUT_FORMAT_TO_EXT jpeg)))
    = Lt.
Proof.
  intros dt1 dt2.
  assert (valid_datetime dt1) as Hv1 by reflexivity.
  assert (valid_datetime dt2) as Hv2 by reflexivity.
  assert (four_digit_year env_birth_zero dt1) as Hy1 by (right; cbn; lia).
  assert (four_digit_year env_birth_zero dt2) as Hy2 by (right; cbn; lia).
  assert (0 ≤ 9 ≤ 9999) as Hi1 by lia.
  assert (0 ≤ 10 ≤ 9999) as Hi2 by lia.
  split; [exact Hv1|]. split; [exact Hv2|]. split; [exact Hy1|]. split; [exact Hy2|].
  split; [exact Hi1|]. split; [exact Hi2|].
  exact (target_names_sort_by_time env_birth_zero (mkPath false ["out"]) dt1 dt2 9 10
           "none" "day" jpeg Hv1 Hv2 Hy1 Hy2 Hi1 Hi2).
Defined.

(** Past 9999 the order of the names is no longer the order of the
    numbers. *)
Example ex_names_past_9999 :
  String.compare
    (name (build_target_path env_birth_zero (mkPath false ["out"])
             (mkDatetime 2024 3 5 10 0 0 0) 10000 "none" ".jpg"))
    (name (build_target_path env_birth_zero (mkPath false ["out"])
             (mkDatetime 2024 3 5 10 0 0 0) 9999 "none" ".jpg"))
  = Lt.
Proof. vm_compute. reflexivity. Qed.

(** Where the year is written as it is, the name of a year before 1000
    comes after the name of a later year. *)
Example ex_names_before_1000 :
  String.compare
    (name (build_target_path env_birth_zero (mkPath false ["out"])
             (mkDatetime 999 3 5 10 0 0 0) 1 "none" ".jpg"))
    (name (build_target_path env_birth_zero (mkPath false ["out"])
             (mkDatetime 1000 3 5 10 0 0 0) 1 "none" ".jpg"))
  = Gt.
Proof. vm_compute. reflexivity. Qed.

(** ** How far the allocator counts *)

Lemma str_take_drop n s : str_take n s +:+ str_drop n s = s.
Proof.
  revert s. induction n as [|n IH]; intros [|c s]; cbn; try done.
  by rewrite IH.
Qed.

Lemma name_stem_suffix nm : name_stem nm +:+ name_suffix nm = nm.
Proof.
  unfold name_stem, name_suffix. destruct (splits_at_dot nm).
  - apply str_take_drop.
  - apply str_app_nil_r.
Qed.

(** No candidate is the path itself: its name is longer. *)
Lemma candidate_not_self p k :
  sibling p (candidate_name (stem p) (suffix p) k) ≠ p.
Proof.
  intros Heq. apply (f_equal name) in Heq. rewrite name_sibling in Heq.
  apply (f_equal String.length) in Heq.
  pose proof (f_equal String.length (name_stem_suffix (name p))) as Hn.
  unfold candidate_name, stem, suffix in Heq.
  rewrite str_app_length in Hn. rewrite str_app_length in Heq.
  cbn [String.append String.length] in Heq. rewrite str_app_length in Heq. lia.
Qed.

(** X13.  When the path exists, the number the allocator appends is at most
    the number of existing paths: the path and the candidates passed over
    are that many different existing paths. *)
Theorem ensure_unique_counter_bound (fs : FileStore) p r :
  p ∈ fs → ensure_unique fs p = Returned r →
  ∃ k, 1 ≤ k ≤ Z.of_nat (size fs)
       ∧ r = sibling p (candidate_name (stem p) (suffix p) k)
       ∧ ∀ j, 1 ≤ j < k → sibling p (candidate_name (stem p) (suffix p) j) ∈ fs.
Proof.
  intros Hin Hr.
  assert (name p ≠ "" ∧ valid_name (candidate_name (stem p) (suffix p) 1) = true)
    as [Hname Hvalid].
  { revert Hr. unfold ensure_unique. apply path_exists_true in Hin. rewrite Hin.
    cbn [negb ensure_unique_loop]. unfold with_name.
    destruct (str_eqb (name p) "") eqn:En; [done|].
    destruct (valid_name (candidate_name (stem p) (suffix p) 1)); [|done].
    by apply str_eqb_neq in En. }
  destruct (ensure_unique_spec fs p Hname)
    as [[Hnot _]|[_ (k & Hk & Hrun & Hfree & Hbelow)]]; [|done|].
  { intros k. by rewrite (candidate_name_valid_any _ _ k 1). }
  rewrite Hrun in Hr. injection Hr as <-. exists k. split; [|done].
  split; [done|].
  set (cand := λ j, sibling p (candidate_name (stem p) (suffix p) j)) in *.
  set (passed := p :: (cand <$> seqZ 1 (k - 1))).
  assert (NoDup passed) as Hnodup.
  { apply NoDup_cons. split.
    - intros (j & Hj & _)%list_elem_of_fmap. symmetry in Hj.
      by apply candidate_not_self in Hj.
    - apply NoDup_fmap_2; [|apply NoDup_seqZ].
      intros a b Hab. by apply sibling_inj, candidate_name_inj in Hab. }
  assert (list_to_set (C := gset Path) passed ⊆ fs) as Hsub.
  { intros x [->|(j & -> & Hj)%list_elem_of_fmap]%elem_of_list_to_set%elem_of_cons;
      [done|].
    apply elem_of_seqZ in Hj. apply Hbelow. lia. }
  apply subseteq_size in Hsub. rewrite size_list_to_set in Hsub by done.
  unfold passed in Hsub. cbn [length] in Hsub.
  rewrite length_fmap, length_seqZ in Hsub. lia.
Qed.

Lemma ensure_unique_counter_bound_witness :
  let p := mkPath false ["out"; "a.jpg"] in
  let r := mkPath false ["out"; "a__2.jpg"] in
  let fs : FileStore := {[ p; mkPath false ["out"; "a__1.jpg"];
                           mkPath false ["out"; "b.jpg"] ]} in
  p ∈ fs ∧ ensure_unique fs p = Returned r
  ∧ ∃ k, 1 ≤ k ≤ Z.of_nat (size fs)
         ∧ r = sibling p (candidate_name (stem p) (suffix p) k)
         ∧ ∀ j, 1 ≤ j < k → sibling p (candidate_name (stem p) (suffix p) j) ∈ fs.
Proof.
  intros p r fs.
  assert (p ∈ fs) as Hin by (apply path_exists_true; vm_compute; reflexivity).
  assert (ensure_unique fs p = Returned r) as Hrun by (vm_compute; reflexivity).
  split; [exact Hin|]. split; [exact Hrun|].
  exact (ensure_unique_counter_bound fs p r Hin Hrun).
Defined.

(** ** The forms of a date in a file name *)

Lemma digit_not_sep c :
  is_digit c = true → date_sep c = false ∧ mid_sep c = false ∧ time_sep c = false.
Proof.
  destruct c as [[] [] [] [] [] [] [] []]; vm_compute; intros Hd;
    first [discriminate Hd | done].
Qed.

Lemma int_of_str_first_digit a s n :
  int_of_str (String a s) = Returned n → is_digit a = true.
Proof. unfold int_of_str. cbn [int_digits]. by destruct (is_digit a). Qed.

(** An optional separator in front of a character that is none. *)
Lemma re_match_opt_sep f sep c rest gs k m :
  opt_sep f sep = true → f c = false →
  k (String c rest) gs = Some m →
  re_match (Opt (Chr f)) (sep +:+ String c rest) gs k = Some m.
Proof.
  intros Hsep Hc Hk. destruct sep as [|s [|]]; [| |done]; cbn [String.append re_match].
  - by rewrite Hc.
  - cbn [opt_sep] in Hsep. by rewrite Hsep, Hk.
Qed.

Lemma written_fields_match dt s1 s2 s3 s4 s5 rest :
  valid_datetime dt → 2000 ≤ year dt ≤ 2099 →
  opt_sep date_sep s1 = true → opt_sep date_sep s2 = true →
  opt_sep mid_sep s3 = true →
  opt_sep time_sep s4 = true → opt_sep time_sep s5 = true →
  ∃ m, re_match name_pattern (written_fields dt s1 s2 s3 s4 s5 +:+ rest) []
         (λ _ gs, Some gs) = Some m
       ∧ datetime_of_match m = Returned (replace_microsecond_0 dt).
Proof.
  intros Hv Hy H1 H2 H3 H4 H5.
  destruct (valid_datetime_ranges dt Hv) as (Hmo & Hd & Hh & Hmi & Hs).
  destruct (year_chars_inv _ (century_chars _ Hy)) as (y1 & y2 & HY & Hy1 & Hy2 & HYi).
  destruct (two_chars_inv _ _ (month_chars _ Hmo)) as (mo1 & mo2 & HMO & Hmoc & HMOi).
  destruct (two_chars_inv _ _ (day_chars _ Hd)) as (d1 & d2 & HD & Hdc & HDi).
  destruct (two_chars_inv _ _ (hour_chars _ Hh)) as (h1 & h2 & HH & Hhc & HHi).
  destruct (two_chars_inv _ _ (sixty_chars _ Hmi)) as (mi1 & mi2 & HMI & Hmic & HMIi).
  destruct (two_chars_inv _ _ (sixty_chars _ Hs)) as (c1 & c2 & HS & Hsc & HSi).
  destruct (digit_not_sep _ (int_of_str_first_digit _ _ _ HMOi)) as (Nmo & _ & _).
  destruct (digit_not_sep _ (int_of_str_first_digit _ _ _ HDi)) as (Nd & _ & _).
  destruct (digit_not_sep _ (int_of_str_first_digit _ _ _ HHi)) as (_ & Nh & _).
  destruct (digit_not_sep _ (int_of_str_first_digit _ _ _ HMIi)) as (_ & _ & Nmi).
  destruct (digit_not_sep _ (int_of_str_first_digit _ _ _ HSi)) as (_ & _ & Ns).
  unfold written_fields. rewrite HY, HMO, HD, HH, HMI, HS, !str_app_assoc.
  cbn [String.append].
  repeat match goal with
         | |- context [?s +:+ String ?a (String ?b ?t) +:+ ?u] =>
             change (s +:+ String a (String b t) +:+ u)
               with (s +:+ String a (String b (t +:+ u)))
         end.
  eexists. split.
  - unfold name_pattern.
    rewrite re_match_cat. apply re_match_year; [done..|].
    rewrite re_match_cat. apply re_match_opt_sep; [exact H1 | exact Nmo |].
    rewrite re_match_cat. apply re_match_two_alt; [exact Hmoc|].
    rewrite re_match_cat. apply re_match_opt_sep; [exact H2 | exact Nd |].
    rewrite re_match_cat. apply re_match_two_alt; [exact Hdc|].
    rewrite re_match_cat. apply re_match_opt_sep; [exact H3 | exact Nh |].
    rewrite re_match_cat. apply re_match_two_alt; [exact Hhc|].
    rewrite re_match_cat. apply re_match_opt_sep; [exact H4 | exact Nmi |].
    rewrite re_match_cat. apply re_match_two; [exact Hmic|].
    rewrite re_match_cat. apply re_match_opt_sep; [exact H5 | exact Ns |].
    apply re_match_two; [exact Hsc|]. reflexivity.
  - unfold datetime_of_match, group_int. cbn [group].
    repeat (change (str_eqb ?a ?b) with (bool_decide (a = b));
            first [rewrite bool_decide_eq_true_2 by done
                  |rewrite bool_decide_eq_false_2 by done]).
    rewrite HYi, HMOi, HDi, HHi, HMIi, HSi. cbn [mbind outcome_bind].
    unfold datetime_new. unfold valid_datetime in Hv.
    by rewrite (valid_fields_second _ _ _ _ _ _ _ Hv).
Qed.

(** X14.  The extractor reads a timestamp of the years 2000 to 2099 off a
    name that holds its six fields in order, with between them nothing or
    one separator the pattern names (dash, underscore or dot in the date;
    these or white space before the hour; colon, dot, underscore or dash
    in the time), after any prefix without the digit 2. *)
Theorem try_parse_from_name_separators prefix dt s1 s2 s3 s4 s5 rest :
  valid_datetime dt → 2000 ≤ year dt ≤ 2099 → contains "2" prefix = false →
  opt_sep date_sep s1 = true → opt_sep date_sep s2 = true →
  opt_sep mid_sep s3 = true →
  opt_sep time_sep s4 = true → opt_sep time_sep s5 = true →
  try_parse_from_name (prefix +:+ written_fields dt s1 s2 s3 s4 s5 +:+ rest)
  = Returned (Some (replace_microsecond_0 dt)).
Proof.
  intros Hv Hy Hp H1 H2 H3 H4 H5. rewrite try_parse_from_name_eq.
  unfold name_timestamp. rewrite re_search_skip by done.
  destruct (written_fields_match dt s1 s2 s3 s4 s5 rest Hv Hy H1 H2 H3 H4 H5)
    as (m & Hm & Hdt).
  by rewrite (re_search_at_start _ _ Hm), Hdt.
Qed.

Lemma try_parse_from_name_separators_witness :
  let dt := mkDatetime 2024 3 5 10 0 0 0 in
  valid_datetime dt ∧ (2000 ≤ year dt ≤ 2099) ∧ contains "2" "IMG_" = false
  ∧ opt_sep date_sep "" = true ∧ opt_sep mid_sep "_" = true
  ∧ opt_sep time_sep "" = true
  ∧ "IMG_" +:+ written_fields dt "" "" "_" "" "" +:+ ".jpg" = "IMG_20240305_100000.jpg"
  ∧ try_parse_from_name ("IMG_" +:+ written_fields dt "" "" "_" "" "" +:+ ".jpg")
    = Returned (Some dt).
Proof.
  intros dt.
  assert (valid_datetime dt) as Hv by reflexivity.
  assert (2000 ≤ year dt ≤ 2099) as Hy by (cbn; lia).
  assert (contains "2" "IMG_" = false) as Hp by reflexivity.
  assert (opt_sep date_sep "" = true) as Hd by reflexivity.
  assert (opt_sep mid_sep "_" = true) as Hm by reflexivity.
  assert (opt_sep time_sep "" = true) as Ht by reflexivity.
  split; [exact Hv|]. split; [exact Hy|]. split; [exact Hp|].
  split; [exact Hd|]. split; [exact Hm|]. split; [exact Ht|].
  split; [vm_compute; reflexivity|].
  exact (try_parse_from_name_separators "IMG_" dt "" "" "_" "" "" ".jpg"
           Hv Hy Hp Hd Hd Hm Ht Ht).
Defined.

(** ** The formats of an EXIF value *)

Lemma replace_slash_no_slash s : contains "/" (replace_char "/" ":" s) = false.
Proof.
  induction s as [|c s IH]; [done|]. cbn [replace_char contains]. rewrite IH.
  destruct (char_eqb c "/") eqn:E; [done|]. by rewrite E.
Qed.

(** X15.  An EXIF value is stripped and its slashes become colons before it
    is parsed, so a timestamp read from EXIF is one the colon format or the
    dash format gives; with a [strptime] that wants the slashes of its
    format in the value, the slash format never gives one. *)
Theorem exif_value_formats env v dt :
  slash_format_needs_slash env →
  parse_exif_value env v = Some dt →
  ∃ s, (v = Some (ExifStr s) ∨ v = Some (ExifBytes s))
       ∧ contains "/" (replace_char "/" ":" (strip s)) = false
       ∧ (strptime env (replace_char "/" ":" (strip s)) "%Y:%m:%d %H:%M:%S" = inr dt
          ∨ strptime env (replace_char "/" ":" (strip s)) "%Y-%m-%d %H:%M:%S" = inr dt).
Proof.
  intros Hslash. unfold parse_exif_value.
  assert (∀ s,
    match strptime env (replace_char "/" ":" (strip s)) "%Y:%m:%d %H:%M:%S" with
    | inr d => Some d
    | inl _ => strptime_relaxed env (replace_char "/" ":" (strip s))
                 ["%Y-%m-%d %H:%M:%S"; "%Y/%m/%d %H:%M:%S"]
    end = Some dt →
    strptime env (replace_char "/" ":" (strip s)) "%Y:%m:%d %H:%M:%S" = inr dt
    ∨ strptime env (replace_char "/" ":" (strip s)) "%Y-%m-%d %H:%M:%S" = inr dt)
    as Hone.
  { intros s. destruct (strptime env _ "%Y:%m:%d %H:%M:%S") as [e|d] eqn:E1.
    - cbn [strptime_relaxed].
      destruct (strptime env _ "%Y-%m-%d %H:%M:%S") as [e2|d2] eqn:E2.
      + destruct (strptime env _ "%Y/%m/%d %H:%M:%S") as [e3|d3] eqn:E3; [done|].
        apply Hslash in E3. by rewrite replace_slash_no_slash in E3.
      + intros [= ->]. by right.
    - intros [= ->]. by left. }
  destruct v as [[s|s|]|]; try done; intros Hdt%Hone;
    exists s; (split; [auto|]); (split; [apply replace_slash_no_slash | done]).
Qed.

Lemma exif_value_formats_witness :
  let dt := mkDatetime 2021 1 2 15 30 45 0 in
  slash_format_needs_slash env_exif_slashes
  ∧ parse_exif_value env_exif_slashes (Some (ExifStr " 2021/01/02 15:30:45 ")) = Some dt
  ∧ determine_capture_datetime env_exif_slashes (mkPath false ["in"; "a.jpg"])
    = Returned dt
  ∧ ∃ s, (Some (ExifStr " 2021/01/02 15:30:45 ") = Some (ExifStr s)
          ∨ Some (ExifStr " 2021/01/02 15:30:45 ") = Some (ExifBytes s))
       ∧ contains "/" (replace_char "/" ":" (strip s)) = false
       ∧ (strptime env_exif_slashes (replace_char "/" ":" (strip s)) "%Y:%m:%d %H:%M:%S"
          = inr dt
          ∨ strptime env_exif_slashes (replace_char "/" ":" (strip s)) "%Y-%m-%d %H:%M:%S"
            = inr dt).
Proof.
  intros dt.
  assert (slash_format_needs_slash env_exif_slashes) as Hslash
    by (intros value d Hd; vm_compute in Hd; discriminate Hd).
  assert (parse_exif_value env_exif_slashes (Some (ExifStr " 2021/01/02 15:30:45 "))
          = Some dt) as Hparse by (vm_compute; reflexivity).
  split; [exact Hslash|]. split; [exact Hparse|].
  split; [vm_compute; reflexivity|].
  exact (exif_value_formats env_exif_slashes _ dt Hslash Hparse).
Defined.
